(** * FBX batch conditioning and partition export (mgear, game_tools_fbx/fbx_batch.py)

    A shallow embedding of the scene partitioning code: the chain resolver
    ([_get_joint_list], [_get_root_joint]), the partition planner and executor
    ([_export_skeletal_mesh_partitions]), the stale hierarchy cleanup
    ([_cleanup_stale_dag_hierarchies], [_parent_to_root]) and the namespace
    normalizer ([_clean_namespaces], [_remove_namespace]).

    Maya itself is not part of the repository.  Read-only queries on the open
    scene are the fields of a record [Host]; the commands that change the
    scene act on a concrete [Scene], the DAG nodes listed by full path name. *)

From Stdlib Require Import String Ascii List Arith Bool Lia.
Import ListNotations.
Open Scope string_scope.
Open Scope list_scope.

(* ================================================================== *)
(** * Python values and exceptions *)
(* ================================================================== *)

(** The exceptions the code can meet.  [PyException] is the plain
    [Exception] raised by [_get_joint_list]. *)
Inductive exn : Type :=
| TypeError (msg : string)
| ValueError (msg : string)
| IndexError (msg : string)
| RuntimeError (msg : string)
| PyException (msg : string).

(** What a call into Maya gives back: a value or a raised exception. *)
Inductive Outcome (A : Type) : Type :=
| Returns (a : A)
| Raises (e : exn).
Arguments Returns {A} a.
Arguments Raises {A} e.

(** Outcome of the code itself: a value, a raised exception, or [OutOfFuel]
    when the bound put on a [while] loop or on a recursion is used up. *)
Inductive Result (A : Type) : Type :=
| Ok (a : A)
| Raise (e : exn)
| OutOfFuel.
Arguments Ok {A} a.
Arguments Raise {A} e.
Arguments OutOfFuel {A}.

Definition call {A} (o : Outcome A) : Result A :=
  match o with
  | Returns a => Ok a
  | Raises e => Raise e
  end.

Definition bind {A B} (r : Result A) (k : A -> Result B) : Result B :=
  match r with
  | Ok a => k a
  | Raise e => Raise e
  | OutOfFuel => OutOfFuel
  end.

Declare Scope py_scope.
Delimit Scope py_scope with py.
Notation "x <- c ;; k" := (bind c (fun x => k))
  (at level 61, c at next level, right associativity) : py_scope.
Open Scope py_scope.

(** [for x in l: acc = body(acc, x)], leaving at the first exception. *)
Fixpoint for_each {A B} (body : B -> A -> Result B) (l : list A) (acc : B) : Result B :=
  match l with
  | [] => Ok acc
  | x :: rest => acc' <- body acc x ;; for_each body rest acc'
  end.

(** [x in l] on a list of strings. *)
Definition mem (x : string) (l : list string) : bool := existsb (String.eqb x) l.

(** [c in s] for a character. *)
Fixpoint contains (c : ascii) (s : string) : bool :=
  match s with
  | EmptyString => false
  | String d rest => Ascii.eqb d c || contains c rest
  end.

(** [l.count(x)]. *)
Definition count (l : list string) (x : string) : nat := count_occ string_dec l x.

(** [l.remove(x)]: drops the first occurrence, [ValueError] when there is none. *)
Fixpoint list_remove (x : string) (l : list string) : Result (list string) :=
  match l with
  | [] => Raise (ValueError "list.remove(x): x not in list")
  | y :: rest =>
      if String.eqb y x then Ok rest
      else rest' <- list_remove x rest ;; Ok (y :: rest')
  end.

(* ================================================================== *)
(** * The host: queries on the open scene *)
(* ================================================================== *)

(** What the planner asks Maya.  Names are Python strings. *)
Record Host : Type := {
  (** [om.MSelectionList().add(name)]: the full path names the list then
      holds, or the exception [add] raises. *)
  sel_add : string -> Outcome (list string);
  (** [cmds.listRelatives(start, ad=True, fullPath=True)]: the nodes below
      [start], or Python's [None] when Maya lists none. *)
  listRelatives_descendants : string -> option (list string);
  (** [cmds.ls(arg, long=True, type="joint")], where [arg] is what
      [listRelatives] gave: a list of names, or [None]. *)
  ls_joints : option (list string) -> list string;
  (** [cmds.listRelatives(x, p=True, pa=True, fullPath=True)]; [None] and the
      empty list are both falsy and both read [[]] here. *)
  listRelatives_parent : string -> list string;
  (** [cmds.listRelatives(x, parent=True, type="joint")], same convention. *)
  listRelatives_joint_parent : string -> list string;
  (** [cmds.skinCluster(mesh, query=True, influence=True)]. *)
  skinCluster_influence : string -> Outcome (list string)
}.

(** Lines 528-532: [descendant_list], the answer of [cmds.ls] on the answer
    of [cmds.listRelatives]. *)
Definition ls_joint_descendants (host : Host) (start_joint : string) : list string :=
  ls_joints host (listRelatives_descendants host start_joint).

(* ================================================================== *)
(** * ChainResolver *)
(* ================================================================== *)

Section ChainResolver.

Variable host : Host.

(** The body of each [try] of [_get_joint_list]: [sel_list.add(name)],
    [sel_list.getDagPath(0)], [dag_path.fullPathName()].  [None] is the
    [except] branch: [add] raised, or the list is empty and [getDagPath(0)]
    raised. *)
Definition full_path (name : string) : option string :=
  match sel_add host name with
  | Returns (p :: _) => Some p
  | _ => None
  end.

(** The [while joint_list[-1] != start_joint] loop.  [joint_list] is the
    Python list, [last] its last element. *)
Fixpoint climb (fuel : nat) (start_joint : string) (joint_list : list string)
  (last : string) : Result (list string) :=
  match fuel with
  | 0 => OutOfFuel
  | S fuel' =>
      if String.eqb last start_joint then Ok joint_list
      else
        match listRelatives_parent host last with
        | [] => Raise (PyException "Found root joint while searching for start joint")
        | parent_jnt :: _ =>
            climb fuel' start_joint (joint_list ++ [parent_jnt]) parent_jnt
        end
  end.

Definition _get_joint_list (fuel : nat) (start_joint end_joint : string)
  : Result (list string) :=
  match full_path start_joint with
  | None => Ok []
  | Some start_joint =>
      match full_path end_joint with
      | None => Ok []
      | Some end_joint =>
          if String.eqb start_joint end_joint then Ok [start_joint]
          else if Nat.eqb (count (ls_joint_descendants host start_joint) end_joint) 0
          then Ok []
          else
            joint_list <- climb fuel start_joint [end_joint] end_joint ;;
            Ok (rev joint_list)
      end
  end.

(** [_get_root_joint]; the second test [if parent] is the truth value of a
    string, false for the empty one. *)
Fixpoint _get_root_joint (fuel : nat) (start_joint : string) : Result string :=
  match fuel with
  | 0 => OutOfFuel
  | S fuel' =>
      match listRelatives_joint_parent host start_joint with
      | [] => Ok start_joint
      | parent :: _ =>
          if String.eqb parent "" then Ok start_joint
          else _get_root_joint fuel' parent
      end
  end.

End ChainResolver.

(* ================================================================== *)
(** * PartitionPlanner *)
(* ================================================================== *)

(** One entry of [export_data["partitions"]]: [data.get("enabled", False)]
    and [data.get("skeletal_meshes", None)]. *)
Record PartitionData : Type := {
  enabled : bool;
  skeletal_meshes : option (list string)
}.

(** [joint_hierarchy], an [OrderedDict] from candidate root to joint list,
    as its items in insertion order. *)
Definition JointHierarchy : Type := list (string * list string).

Definition has_key (k : string) (d : JointHierarchy) : bool :=
  existsb (fun kv => String.eqb (fst kv) k) d.

(** [d.setdefault(k, list())]. *)
Definition setdefault (k : string) (d : JointHierarchy) : JointHierarchy :=
  if has_key k d then d else d ++ [(k, [])].

(** [if x not in d[k]: d[k].append(x)]. *)
Fixpoint append_new (k x : string) (d : JointHierarchy) : JointHierarchy :=
  match d with
  | [] => []
  | (k', v) :: rest =>
      if String.eqb k' k then (k', if mem x v then v else v ++ [x]) :: rest
      else (k', v) :: append_new k x rest
  end.

(** [partitions_data[partition_name]]: the empty dict, or root and hierarchy. *)
Record Plan : Type := {
  root : string;
  hierarchy : list string
}.

Section PartitionPlanner.

Variable host : Host.
Variable fuel : nat.

(** [for hierarchy_jnt in jnt_hierarchy]. *)
Definition add_chain (jnt_root : string) (jnt_hierarchy : list string)
  (d : JointHierarchy) : JointHierarchy :=
  fold_left (fun d hierarchy_jnt => append_new jnt_root hierarchy_jnt d) jnt_hierarchy d.

(** [for inf_jnt in influences]. *)
Definition for_influences (jnt_root : string) (influences : list string)
  (d : JointHierarchy) : Result JointHierarchy :=
  for_each (fun d inf_jnt =>
              jnt_hierarchy <- _get_joint_list host fuel jnt_root inf_jnt ;;
              Ok (add_chain jnt_root jnt_hierarchy d))
           influences d.

(** [for jnt_root in jnt_roots]. *)
Definition for_roots (jnt_roots influences : list string) (d : JointHierarchy)
  : Result JointHierarchy :=
  for_each (fun d jnt_root => for_influences jnt_root influences (setdefault jnt_root d))
           jnt_roots d.

(** [for mesh in meshes]; iterating [None] is a [TypeError]. *)
Definition for_meshes (jnt_roots : list string) (meshes : option (list string))
  : Result JointHierarchy :=
  match meshes with
  | None => Raise (TypeError "'NoneType' object is not iterable")
  | Some meshes =>
      for_each (fun d mesh =>
                  influences <- call (skinCluster_influence host mesh) ;;
                  for_roots jnt_roots influences d)
               meshes []
  end.

(** Lines 176-186: the loop over [joint_hierarchy.items()]; the result is
    [(partitions_data[name]["root"], short_hierarchy)]. *)
Fixpoint shortest (items : JointHierarchy) (short_hierarchy : option (string * list string))
  : option (string * list string) :=
  match items with
  | [] => short_hierarchy
  | (root_jnt, joint_hierarchy) :: rest =>
      let total_joints := List.length joint_hierarchy in
      if Nat.leb total_joints 0 then shortest rest short_hierarchy
      else
        match short_hierarchy with
        | None => shortest rest (Some (root_jnt, joint_hierarchy))
        | Some (_, sh) =>
            if Nat.ltb (List.length joint_hierarchy) (List.length sh)
            then shortest rest (Some (root_jnt, joint_hierarchy))
            else shortest rest short_hierarchy
        end
  end.

(** Lines 158-188: the chosen candidate and its hierarchy, [None] when no
    candidate has a non-empty hierarchy. *)
Definition choose_root (jnt_roots : list string) (meshes : option (list string))
  : Result (option (string * list string)) :=
  joint_hierarchy <- for_meshes jnt_roots meshes ;;
  Ok (shortest joint_hierarchy None).

(** Lines 190-195.  [short_hierarchy] is not empty here. *)
Definition extend_to_root (short_hierarchy : list string) : Result (list string) :=
  match short_hierarchy with
  | [] => Raise (IndexError "list index out of range")
  | first :: _ =>
      root_jnt <- _get_root_joint host fuel first ;;
      if negb (mem root_jnt short_hierarchy) then
        parent_hierarchy <- _get_joint_list host fuel root_jnt first ;;
        Ok (parent_hierarchy ++ short_hierarchy)
      else Ok short_hierarchy
  end.

(** [partitions_data], an [OrderedDict] keyed by partition name, as its
    items; [None] is the empty dict left by [setdefault] when the partition
    is skipped at line 188. *)
Definition PartitionsData : Type := list (string * option Plan).

(** [partitions_data.setdefault(name, dict())] followed by the assignments
    to its keys: the keys of [partitions] are distinct, the entry is new. *)
Definition set_entry (name : string) (p : option Plan) (d : PartitionsData)
  : PartitionsData :=
  let d' := if existsb (fun kv => String.eqb (fst kv) name) d
            then d else d ++ [(name, None)] in
  match p with
  | None => d'
  | Some _ => map (fun kv => if String.eqb (fst kv) name then (name, p) else kv) d'
  end.

(** The body of the first loop of [_export_skeletal_mesh_partitions]. *)
Definition plan_partition (jnt_roots : list string) (pd : PartitionsData)
  (entry : string * PartitionData) : Result PartitionsData :=
  let (partition_name, data) := entry in
  if negb (enabled data) then Ok pd
  else
    chosen <- choose_root jnt_roots (skeletal_meshes data) ;;
    match chosen with
    | None => Ok (set_entry partition_name None pd)
    | Some (root_jnt, short_hierarchy) =>
        h <- extend_to_root short_hierarchy ;;
        Ok (set_entry partition_name
              (Some {| root := root_jnt; hierarchy := h |}) pd)
    end.

(** Lines 146-196. *)
Definition plan_partitions (jnt_roots : list string)
  (partitions : list (string * PartitionData)) : Result PartitionsData :=
  for_each (plan_partition jnt_roots) partitions [].

End PartitionPlanner.

(* ================================================================== *)
(** * SceneGraph: the DAG behind the commands that change it *)
(* ================================================================== *)

Inductive Kind : Type := Transform | Joint | Mesh | Other.

Definition Kind_eqb (a b : Kind) : bool :=
  match a, b with
  | Transform, Transform | Joint, Joint | Mesh, Mesh | Other, Other => true
  | _, _ => false
  end.

(** A DAG node: its full path name ([dag_path.fullPathName()], such as
    [|Root|Spine]) and its kind.  [Joint] is a node with both [kJoint] and
    [kTransform], [Mesh] one with both [kMesh] and [kTransform]. *)
Record Node : Type := {
  path : string;
  kind : Kind
}.

(** The nodes of the scene in the order [om.MItDag(om.MItDag.kBreadthFirst)]
    visits them. *)
Definition Scene : Type := list Node.

(** [x] lies strictly below [a]: its full path continues the one of [a]. *)
Definition is_below (a x : string) : bool := String.prefix (a ++ "|")%string x.

(** [x] is [a] or lies below it. *)
Definition in_subtree (a x : string) : bool := String.eqb x a || is_below a x.

(** The full path of the parent: [Some ""] for a child of the world,
    [None] when the string holds no [|]. *)
Fixpoint parent_path (s : string) : option string :=
  match s with
  | EmptyString => None
  | String c rest =>
      match parent_path rest with
      | Some p => Some (String c p)
      | None => if Ascii.eqb c "|" then Some EmptyString else None
      end
  end.

Definition ends_with (suffix s : string) : bool :=
  Nat.leb (String.length suffix) (String.length s)
  && String.eqb
       (String.substring (String.length s - String.length suffix)
          (String.length suffix) s)
       suffix.

(** The nodes a name denotes: the one with that full path, or those whose
    full path ends with [|name] (a partial path). *)
Definition matches (sc : Scene) (name : string) : list string :=
  map path
    (filter (fun n => String.eqb (path n) name
                      || ends_with ("|" ++ name)%string (path n)) sc).

(** The partial paths of a full path, longest first: [A|B], [B] for [|A|B]. *)
Fixpoint partial_paths (s : string) : list string :=
  match s with
  | EmptyString => []
  | String c rest =>
      if Ascii.eqb c "|" then rest :: partial_paths rest else partial_paths rest
  end.

(** The name Maya prints for a node when [fullPath] is not asked for: its
    shortest partial path that denotes no other node. *)
Definition short_name (sc : Scene) (p : string) : string :=
  match find (fun q => Nat.eqb (List.length (matches sc q)) 1) (rev (partial_paths p)) with
  | Some q => q
  | None => p
  end.

Definition kind_of (sc : Scene) (p : string) : option Kind :=
  option_map kind (find (fun n => String.eqb (path n) p) sc).

Definition node_exists (sc : Scene) (p : string) : bool :=
  existsb (fun n => String.eqb (path n) p) sc.

(** [om.MSelectionList().add(name)]: every node the name denotes; Maya
    raises when there is none. *)
Definition scene_sel_add (sc : Scene) (name : string) : Outcome (list string) :=
  match matches sc name with
  | [] => Raises (RuntimeError "(kInvalidParameter): Object does not exist")
  | l => Returns l
  end.

(** The one node a name denotes, for the [cmds] queries. *)
Definition resolve (sc : Scene) (name : string) : option string :=
  match matches sc name with
  | [p] => Some p
  | _ => None
  end.

Definition scene_parent (sc : Scene) (name : string) : list string :=
  match resolve sc name with
  | None => []
  | Some p =>
      match parent_path p with
      | Some EmptyString | None => []
      | Some pp => [pp]
      end
  end.

Definition scene_joint_parent (sc : Scene) (name : string) : list string :=
  match scene_parent sc name with
  | pp :: _ =>
      match kind_of sc pp with
      | Some Joint => [short_name sc pp]
      | _ => []
      end
  | [] => []
  end.

(** [cmds.listRelatives(start, ad=True, fullPath=True)], asked with a full
    path: every node below [start], of any kind, and [None] when there is
    none. *)
Definition scene_descendants (sc : Scene) (start : string) : option (list string) :=
  match filter (is_below start) (map path sc) with
  | [] => None
  | below => Some below
  end.

(** [p] is the full path of a Joint node. *)
Definition is_joint (sc : Scene) (p : string) : bool :=
  existsb (fun n => String.eqb (path n) p && Kind_eqb (kind n) Joint) sc.

(** [cmds.ls(arg, long=True, type="joint")]: of the names listed, those of
    Joint nodes.  What Maya lists when it is handed [None] is not decided
    here: it is the parameter [ls_nothing]. *)
Definition scene_ls_joints (ls_nothing : Scene -> list string) (sc : Scene)
  (arg : option (list string)) : list string :=
  match arg with
  | None => ls_nothing sc
  | Some names => filter (is_joint sc) names
  end.

(** Skin bindings, by full path of the mesh. *)
Definition SkinBinding : Type := list (string * list string).

Definition scene_influences (skin : SkinBinding) (sc : Scene) (mesh : string)
  : Outcome (list string) :=
  match resolve sc mesh with
  | None => Raises (ValueError "No object matches name")
  | Some p =>
      match find (fun kv => String.eqb (fst kv) p) skin with
      | Some kv => Returns (snd kv)
      | None => Raises (RuntimeError "No skinCluster found")
      end
  end.

(** The queries, answered on a scene. *)
Definition scene_host_with (ls_nothing : Scene -> list string) (skin : SkinBinding)
  (sc : Scene) : Host :=
  {| sel_add := scene_sel_add sc;
     listRelatives_descendants := scene_descendants sc;
     ls_joints := scene_ls_joints ls_nothing sc;
     listRelatives_parent := scene_parent sc;
     listRelatives_joint_parent := scene_joint_parent sc;
     skinCluster_influence := scene_influences skin sc |}.

(** Deleting a node removes it and its entire subtree. *)
Definition remove_subtree (p : string) (sc : Scene) : Scene :=
  filter (fun n => negb (in_subtree p (path n))) sc.

(** [_get_all_mesh_dag_objects] and [_get_all_joint_dag_objects]. *)
Definition _get_all_mesh_dag_objects (sc : Scene) : list string :=
  map path (filter (fun n => Kind_eqb (kind n) Mesh) sc).

Definition _get_all_joint_dag_objects (sc : Scene) : list string :=
  map path (filter (fun n => Kind_eqb (kind n) Joint) sc).

(** [cmds.ls(long=True, type="joint")] without a name lists every joint of
    the scene. *)
Definition ls_every_joint : Scene -> list string := _get_all_joint_dag_objects.

(** The host in which [cmds.ls] handed [None] answers as it does without a
    name.  The statements that depend on that answer are made on
    [scene_host_with], for every answer. *)
Definition scene_host : SkinBinding -> Scene -> Host := scene_host_with ls_every_joint.



(** [_get_dag_objects_under_scene_root]: the paths of length one. *)
Definition _get_dag_objects_under_scene_root (sc : Scene) : list string :=
  map path
    (filter (fun n => match parent_path (path n) with
                      | Some EmptyString => true
                      | _ => false
                      end) sc).

(* ================================================================== *)
(** * The Maya session and its commands *)
(* ================================================================== *)

(** The open scene, the scene files on disk, what was handed to the FBX
    exporter (output path and selection), and the lines sent to the console
    that the commands below keep. *)
Record Session : Type := {
  scene : Scene;
  files : list (string * Scene);
  exported : list (string * list string);
  console : list string
}.

(** A command: an outcome and the session it leaves, also when it raises. *)
Definition Cmd (A : Type) : Type := Session -> Result A * Session.

Definition ret {A} (a : A) : Cmd A := fun s => (Ok a, s).

Definition lift {A} (r : Result A) : Cmd A := fun s => (r, s).

Definition cbind {A B} (c : Cmd A) (k : A -> Cmd B) : Cmd B :=
  fun s =>
    match c s with
    | (Ok a, s') => k a s'
    | (Raise e, s') => (Raise e, s')
    | (OutOfFuel, s') => (OutOfFuel, s')
    end.

Notation "x <<- c ;; k" := (cbind c (fun x => k))
  (at level 61, c at next level, right associativity) : py_scope.
Notation "c ;;; k" := (cbind c (fun _ => k))
  (at level 61, right associativity) : py_scope.

(** [try: body except Exception: handler]. *)
Definition try_except {A} (body : Cmd A) (handler : exn -> Cmd A) : Cmd A :=
  fun s =>
    match body s with
    | (Raise e, s') => handler e s'
    | r => r
    end.

(** [for x in l: body(x)]. *)
Fixpoint cfor {A} (body : A -> Cmd unit) (l : list A) : Cmd unit :=
  match l with
  | [] => ret tt
  | x :: rest => body x ;;; cfor body rest
  end.

Definition get_scene : Cmd Scene := fun s => (Ok (scene s), s).

Definition set_scene (sc : Scene) : Cmd unit :=
  fun s => (Ok tt, {| scene := sc; files := files s;
                      exported := exported s; console := console s |}).

Definition print (line : string) : Cmd unit :=
  fun s => (Ok tt, {| scene := scene s; files := files s;
                      exported := exported s; console := console s ++ [line] |}).

(** [cmds.error(msg)]: from Python the command raises [RuntimeError]. *)
Definition cmds_error {A} (msg : string) : Cmd A :=
  fun s => (Raise (RuntimeError msg), s).

(** [cmds.delete(name)] on a full path name. *)
Definition cmds_delete (p : string) : Cmd unit :=
  sc <<- get_scene ;;
  if node_exists sc p then set_scene (remove_subtree p sc)
  else lift (Raise (ValueError "No object matches name")).

(** [cmds.file(scene_path, open=True, force=True, save=False)]: the open
    scene becomes the one stored in the file. *)
Definition cmds_file_open (scene_path : string) : Cmd unit :=
  fun s =>
    match find (fun kv => String.eqb (fst kv) scene_path) (files s) with
    | Some kv => set_scene (snd kv) s
    | None => (Raise (RuntimeError "File not found"), s)
    end.

(** [cmds.select(names)]: every name has to denote one node. *)
Definition cmds_select (names : list string) : Cmd unit :=
  sc <<- get_scene ;;
  if forallb (fun n => Nat.eqb (List.length (matches sc n)) 1) names then ret tt
  else lift (Raise (ValueError "No object matches name")).

(** [os.path.join(a, b)] of [posixpath]. *)
Definition os_path_join (a b : string) : string :=
  if String.prefix "/" b then b
  else if String.eqb a "" || ends_with "/" a then (a ++ b)%string
  else (a ++ "/" ++ b)%string.

(** [export_data]: the keys the partition export reads.  The export
    settings (preset, up axis, version, file type) go to the exporter as they
    are. *)
Record ExportData : Type := {
  file_path : string;
  file_name : string;
  partitions : list (string * PartitionData);
  preset_path : option string;
  up_axis : option string;
  fbx_version : option string;
  file_type : option string
}.

(** The last partial path: the name of the node itself. *)
Definition leaf_name (p : string) : string := last (partial_paths p) p.

(** [for x in l: acc = body(acc, x)] on commands. *)
Fixpoint cfold {A B} (body : B -> A -> Cmd B) (l : list A) (acc : B) : Cmd B :=
  match l with
  | [] => ret acc
  | x :: rest => acc' <<- body acc x ;; cfold body rest acc'
  end.

(* ================================================================== *)
(** * PartitionExecutor *)
(* ================================================================== *)

Section PartitionExecutor.

(** The queries as Maya answers them on a scene. *)
Variable maya : Scene -> Host.
Variable fuel : nat.

(** The exporter: lines 235-254, which reset and set the export settings,
    and [pfbx.FBXExport(f=export_path, s=True)] on the selection. *)
Variable pfbx_settings : ExportData -> Outcome unit.
Variable pfbx_FBXExport : string -> list string -> Scene -> Outcome unit.

(** Lines 217-221.  [partition_meshes] is what
    [partitions.get(name).get("skeletal_meshes")] gave. *)
Definition delete_meshes (partition_meshes : option (list string)) : Cmd unit :=
  sc <<- get_scene ;;
  cfor (fun mesh =>
          match partition_meshes with
          | None => lift (Raise (TypeError "argument of type 'NoneType' is not iterable"))
          | Some pm => if negb (mem mesh pm) then cmds_delete mesh else ret tt
          end)
       (_get_all_mesh_dag_objects sc).

(** Lines 223-227. *)
Definition delete_joints (partition_joints : list string) : Cmd unit :=
  sc <<- get_scene ;;
  cfor (fun jnt => if negb (mem jnt partition_joints) then cmds_delete jnt else ret tt)
       (rev (_get_all_joint_dag_objects sc)).

(** What [pfbx.FBXExport] has written: the FBX files are kept on record in
    [exported], by output path and selection, apart from the scene files of
    [files]. *)
Definition record_export (export_path : string) (selection : list string) : Cmd unit :=
  fun s => (Ok tt, {| scene := scene s; files := files s;
                      exported := exported s ++ [(export_path, selection)];
                      console := console s |}).

Definition export_path_of (export_data : ExportData) (partition_name : string) : string :=
  let partition_file_name := (file_name export_data ++ "_" ++ partition_name ++ ".fbx")%string in
  os_path_join (file_path export_data) partition_file_name.

(** The body of the [try], lines 235-258. *)
Definition export_attempt (export_data : ExportData) (export_path : string)
  (partition_joints : list string) (partition_meshes : option (list string))
  : Cmd unit :=
  lift (call (pfbx_settings export_data)) ;;;
  selection <<- lift (match partition_meshes with
                      | None => Raise (TypeError "can only concatenate list to list")
                      | Some pm => Ok (partition_joints ++ pm)
                      end) ;;
  cmds_select selection ;;;
  sc <<- get_scene ;;
  lift (call (pfbx_FBXExport export_path selection sc)) ;;;
  record_export export_path selection.

Definition export_error_message (partition_name : string) : string :=
  ("Something wrong happened while export Partition " ++ partition_name)%string.

(** Lines 229-265. *)
Definition export_partition (export_data : ExportData) (partition_name : string)
  (partition_joints : list string) (partition_meshes : option (list string))
  : Cmd unit :=
  let export_path := export_path_of export_data partition_name in
  print export_path ;;;
  try_except
    (export_attempt export_data export_path partition_joints partition_meshes)
    (fun _ => cmds_error (export_error_message partition_name)).

(** Lines 217-265: what is done to the scene once it is loaded. *)
Definition prune_and_export (export_data : ExportData) (partition_name : string)
  (partition_joints : list string) (partition_meshes : option (list string))
  : Cmd unit :=
  delete_meshes partition_meshes ;;;
  delete_joints partition_joints ;;;
  export_partition export_data partition_name partition_joints partition_meshes.

(** [partitions.get(partition_name).get("skeletal_meshes")]. *)
Definition partition_meshes_of (export_data : ExportData) (partition_name : string)
  : Result (option (list string)) :=
  match find (fun kv => String.eqb (fst kv) partition_name) (partitions export_data) with
  | Some kv => Ok (skeletal_meshes (snd kv))
  | None => Raise (TypeError "'NoneType' object has no attribute 'get'")
  end.

(** The body of the second loop, lines 204-265. *)
Definition execute_partition (export_data : ExportData) (scene_path : string)
  (entry : string * option Plan) : Cmd unit :=
  let (partition_name, partition_data) := entry in
  match partition_data with
  | None => print ("   Partition " ++ partition_name ++ " contains no data.")%string
  | Some plan =>
      partition_meshes <<- lift (partition_meshes_of export_data partition_name) ;;
      let partition_joints := hierarchy plan in
      cmds_file_open scene_path ;;;
      prune_and_export export_data partition_name partition_joints partition_meshes
  end.

(** Lines 204-266: the executor on the plans. *)
Definition execute_partitions (export_data : ExportData) (scene_path : string)
  (partitions_data : PartitionsData) : Cmd unit :=
  cfor (execute_partition export_data scene_path) partitions_data.

(** Lines 124-266.  Of what the pass sends to the console the session keeps
    the warning of line 140, the line of a partition without data (line 206)
    and the export paths (line 233); the progress lines of lines 133, 149,
    198, 209 and 210 are not kept. *)
Definition _export_skeletal_mesh_partitions (jnt_roots : list string)
  (export_data : ExportData) (scene_path : string) : Cmd bool :=
  match partitions export_data with
  | [] => print "  Partitions not defined!" ;;; ret false
  | _ =>
      sc <<- get_scene ;;
      partitions_data <<-
        lift (plan_partitions (maya sc) fuel jnt_roots (partitions export_data)) ;;
      execute_partitions export_data scene_path partitions_data ;;;
      ret true
  end.

End PartitionExecutor.

(* ================================================================== *)
(** * HierarchyCleaner *)
(* ================================================================== *)

Definition IGNORED_OBJECTS : list string := ["|persp"; "|top"; "|front"; "|side"].

Section HierarchyCleaner.

Variable maya : Scene -> Host.

(** [cmds.parent(name, world=True)]. *)
Variable cmds_parent_world : string -> Scene -> Outcome Scene.

(** The [try] around [obj_names.remove(pipped_io)]. *)
Definition remove_kept (obj_names : list string) (i_o : string) : Cmd (list string) :=
  let pipped_io := ("|" ++ i_o)%string in
  try_except
    (lift (list_remove pipped_io obj_names))
    (fun _ => print ("  skipped " ++ pipped_io)%string ;;; ret obj_names).

(** The last loop: the node is deleted when the selection list holds it
    alone. *)
Definition delete_hierarchy (name : string) : Cmd unit :=
  sc <<- get_scene ;;
  temp_sel <<- lift (call (sel_add (maya sc) name)) ;;
  match temp_sel with
  | [dag_path] => set_scene (remove_subtree dag_path sc)
  | _ => ret tt
  end.

Definition _cleanup_stale_dag_hierarchies (ignore_objects : list string) : Cmd unit :=
  sc <<- get_scene ;;
  let obj_names := _get_dag_objects_under_scene_root sc in
  obj_names <<- lift (for_each (fun names i_o => list_remove i_o names)
                               IGNORED_OBJECTS obj_names) ;;
  obj_names <<- cfold remove_kept ignore_objects obj_names ;;
  cfor delete_hierarchy obj_names.

(** The name of the parent as [om.MFnDependencyNode(parent_obj).name()]
    gives it, [world] for a child of the world. *)
Definition parent_name (dag_path : string) : string :=
  match parent_path dag_path with
  | Some EmptyString | None => "world"
  | Some pp => leaf_name pp
  end.

Definition _parent_to_root (name : string) : Cmd unit :=
  sc <<- get_scene ;;
  temp_sel <<- lift (call (sel_add (maya sc) name)) ;;
  match temp_sel with
  | [dag_path] =>
      if String.eqb (parent_name dag_path) "world" then ret tt
      else
        sc' <<- lift (call (cmds_parent_world name sc)) ;;
        set_scene sc' ;;;
        print ("  Moved " ++ name ++ " to scene root.")%string
  | _ => ret tt
  end.

(** The [scene_clean] branch of [perform_fbx_condition], lines 76-84. *)
Definition scene_clean (root_joint : string) (root_geos : list string) : Cmd unit :=
  print "Cleaning Scene.." ;;;
  _parent_to_root root_joint ;;;
  cfor _parent_to_root root_geos ;;;
  _cleanup_stale_dag_hierarchies (root_joint :: root_geos).

End HierarchyCleaner.

(* ================================================================== *)
(** * NamespaceNormalizer *)
(* ================================================================== *)

Definition IGNORED_NAMESPACES : list string := [":UI"; ":shared"; ":root"].

(** [l.remove(x)] once [x in l] is known. *)
Fixpoint remove_first (x : string) (l : list string) : list string :=
  match l with
  | [] => []
  | y :: rest => if String.eqb y x then rest else y :: remove_first x rest
  end.

(** [name[n:]]. *)
Definition slice_from (n : nat) (name : string) : string :=
  String.substring n (String.length name - n) name.

Section NamespaceNormalizer.

(** The dependency graph and its nodes, as [om.MNamespace] and
    [om.MFnDependencyNode] show them.  [setName] is taken to succeed. *)
Variable DG : Type.
Variable MObject : Type.
Variable getNamespaces : DG -> list string.
Variable getNamespaces_recurse : DG -> string -> list string.
Variable getNamespaceObjects : DG -> string -> list MObject.
Variable dg_name : DG -> MObject -> string.
Variable dg_namespace : DG -> MObject -> string.
Variable setName : MObject -> string -> DG -> DG.

(** The graph and the renames done so far, oldest first. *)
Record NsState : Type := {
  graph : DG;
  renames : list (MObject * string)
}.

Definition _get_scene_namespaces (g : DG) : list string :=
  fold_left (fun spaces ignored =>
               if mem ignored spaces then remove_first ignored spaces else spaces)
            IGNORED_NAMESPACES (getNamespaces g).

(** The name [_remove_namespace] hands to [setName]. *)
Definition stripped_name (g : DG) (mobj : MObject) : string :=
  slice_from (String.length (dg_namespace g mobj)) (dg_name g mobj).

Definition _remove_namespace (st : NsState) (mobj : MObject) : NsState :=
  let new_name := stripped_name (graph st) mobj in
  {| graph := setName mobj new_name (graph st);
     renames := renames st ++ [(mobj, new_name)] |}.

(** [m_objs = getNamespaceObjects(ns)] and the loop over them. *)
Definition strip_objects (st : NsState) (ns : string) : NsState :=
  fold_left _remove_namespace (getNamespaceObjects (graph st) ns) st.

(** The body of the loop over [namespaces]. *)
Definition strip_namespace (st : NsState) (namespace : string) : NsState :=
  let child_namespaces := getNamespaces_recurse (graph st) namespace in
  strip_objects (fold_left strip_objects child_namespaces st) namespace.

Definition _clean_namespaces (st : NsState) : NsState :=
  fold_left strip_namespace (_get_scene_namespaces (graph st)) st.

End NamespaceNormalizer.

(* ================================================================== *)
(** * Predicates used in the statements *)
(* ================================================================== *)

(** The parent walk of [_get_joint_list] from [x] leaves the hierarchy: it
    meets a node without parent after [n] steps, and no node met on the way,
    that node included, is [start_joint]. *)
Inductive exits_hierarchy (host : Host) (start_joint : string) : nat -> string -> Prop :=
| exits_here : forall x,
    x <> start_joint ->
    listRelatives_parent host x = [] ->
    exits_hierarchy host start_joint 0 x
| exits_above : forall n x p others,
    x <> start_joint ->
    listRelatives_parent host x = p :: others ->
    exits_hierarchy host start_joint n p ->
    exits_hierarchy host start_joint (S n) x.

(** The candidates in the order they are given, each once: the keys of
    [joint_hierarchy] after [setdefault] was called on each. *)
Definition add_key (keys : list string) (k : string) : list string :=
  if mem k keys then keys else keys ++ [k].

Definition first_occurrences (jnt_roots : list string) : list string :=
  fold_left add_key jnt_roots [].

(** One turn of the loop of [shortest]. *)
Definition shortest_step (cur : option (string * list string)) (item : string * list string)
  : option (string * list string) :=
  if Nat.leb (List.length (snd item)) 0 then cur
  else
    match cur with
    | None => Some item
    | Some (_, sh) =>
        if Nat.ltb (List.length (snd item)) (List.length sh) then Some item else cur
    end.

(** [(r, h)] is at index [i], is not empty, no non-empty hierarchy is
    shorter and every non-empty one before [i] is longer. *)
Definition first_shortest (items : JointHierarchy) (i : nat) (r : string) (h : list string)
  : Prop :=
  nth_error items i = Some (r, h) /\ h <> [] /\
  forall j r' h',
    nth_error items j = Some (r', h') -> h' <> [] ->
    List.length h <= List.length h' /\ (j < i -> List.length h < List.length h').


(** A node the executor deletes by name: a mesh that is not in the mesh set
    of the partition, or a joint that is not in its hierarchy. *)
Definition excluded (sc : Scene) (partition_meshes partition_joints : list string)
  (p : string) : Prop :=
  exists n, In n sc /\ path n = p /\
    ((kind n = Mesh /\ mem p partition_meshes = false) \/
     (kind n = Joint /\ mem p partition_joints = false)).

(** [m] neither is nor lies below a node the executor deletes by name. *)
Definition outside_excluded (snapshot : Scene) (partition_meshes partition_joints : list string)
  (m : Node) : Prop :=
  forall d, excluded snapshot partition_meshes partition_joints d ->
            in_subtree d (path m) = false.

(** The open scene holds nodes of the snapshot only, and all of those that
    are outside the excluded subtrees. *)
Definition survivors_kept (snapshot : Scene) (partition_meshes partition_joints : list string)
  (sc : Scene) : Prop :=
  incl sc snapshot /\
  forall m, In m snapshot ->
            outside_excluded snapshot partition_meshes partition_joints m -> In m sc.

(** A command keeps [Q] true of the session, whatever its outcome. *)
Definition preserves (Q : Session -> Prop) {A} (c : Cmd A) : Prop :=
  forall s r s', Q s -> c s = (r, s') -> Q s'.

(** The session with another scene open. *)
Definition with_scene (sc : Scene) (s : Session) : Session :=
  {| scene := sc; files := files s; exported := exported s; console := console s |}.

(** The scene stored in a file. *)
Definition stored (s : Session) (scene_path : string) : option Scene :=
  option_map snd (find (fun kv => String.eqb (fst kv) scene_path) (files s)).

Section NamespacePredicates.

Variable DG : Type.
Variable MObject : Type.
Variable getNamespaces : DG -> list string.
Variable getNamespaces_recurse : DG -> string -> list string.
Variable getNamespaceObjects : DG -> string -> list MObject.
Variable dg_name : DG -> MObject -> string.
Variable dg_namespace : DG -> MObject -> string.
Variable setName : MObject -> string -> DG -> DG.

(** No namespace the normalizer goes through, and no child namespace of
    one, holds a node. *)
Definition stripped (g : DG) : Prop :=
  forall ns, In ns (_get_scene_namespaces DG getNamespaces g) ->
    getNamespaceObjects g ns = [] /\
    forall chld_ns, In chld_ns (getNamespaces_recurse g ns) ->
      getNamespaceObjects g chld_ns = [].

(** The namespaces the normalizer goes through: those of
    [_get_scene_namespaces] and their child namespaces. *)
Definition gone_through (g : DG) (ns : string) : Prop :=
  In ns (_get_scene_namespaces DG getNamespaces g) \/
  exists namespace,
    In namespace (_get_scene_namespaces DG getNamespaces g) /\
    In ns (getNamespaces_recurse g namespace).

(** What [_remove_namespace] relies on from Maya.  [setName] neither adds
    nor removes a namespace.  Once a node was given its name without its
    namespace, a namespace gone through holds only nodes it held before, and
    not the renamed one. *)
Record rename_laws : Prop := {
  setName_getNamespaces :
    forall mobj name g, getNamespaces (setName mobj name g) = getNamespaces g;
  setName_getNamespaces_recurse :
    forall mobj name g ns,
      getNamespaces_recurse (setName mobj name g) ns = getNamespaces_recurse g ns;
  setName_getNamespaceObjects :
    forall mobj g ns o,
      gone_through g ns ->
      In o (getNamespaceObjects
              (setName mobj (stripped_name DG MObject dg_name dg_namespace g mobj) g) ns) ->
      In o (getNamespaceObjects g ns) /\ o <> mobj
}.

(** [g'] has the namespaces of [g], and a namespace gone through holds in
    [g'] only nodes it holds in [g]. *)
Definition shrinks (g g' : DG) : Prop :=
  getNamespaces g' = getNamespaces g /\
  (forall ns, getNamespaces_recurse g' ns = getNamespaces_recurse g ns) /\
  forall ns o,
    gone_through g ns ->
    In o (getNamespaceObjects g' ns) -> In o (getNamespaceObjects g ns).

End NamespacePredicates.

(* ================================================================== *)
(** * Scenes used in the examples *)
(* ================================================================== *)

Module Examples.

(** [Root -> Spine -> Arm -> Hand], the mesh [Glove] skinned to [Hand]. *)
Definition glove_scene : Scene :=
  [ {| path := "|Root"; kind := Joint |};
    {| path := "|Glove"; kind := Mesh |};
    {| path := "|Root|Spine"; kind := Joint |};
    {| path := "|Root|Spine|Arm"; kind := Joint |};
    {| path := "|Root|Spine|Arm|Hand"; kind := Joint |} ].

Definition glove_skin : SkinBinding := [("|Glove", ["Hand"])].

Definition glove_host : Host := scene_host glove_skin glove_scene.

Definition glove_partitions : list (string * PartitionData) :=
  [("Glove", {| enabled := true; skeletal_meshes := Some ["|Glove"] |})].

(** A host whose answers disagree: [|B] is listed below every joint and has
    no parent. *)
Definition broken_host : Host :=
  {| sel_add := fun name => Returns [name];
     listRelatives_descendants := fun _ => Some ["|B"];
     ls_joints := fun arg => match arg with Some names => names | None => [] end;
     listRelatives_parent := fun _ => [];
     listRelatives_joint_parent := fun _ => [];
     skinCluster_influence := fun _ => Returns ["|B"] |}.

Definition broken_partitions : list (string * PartitionData) :=
  [("Part", {| enabled := true; skeletal_meshes := Some ["|M"] |})].

(** The mesh [Glove] sits under the mesh [Body]. *)
Definition nested_scene : Scene :=
  [ {| path := "|Body"; kind := Mesh |};
    {| path := "|Root"; kind := Joint |};
    {| path := "|Body|Glove"; kind := Mesh |};
    {| path := "|Root|Hand"; kind := Joint |} ].

Definition nested_skin : SkinBinding := [("|Body|Glove", ["Hand"])].

(** Two meshes, each skinned to its own joint. *)
Definition outfit_scene : Scene :=
  [ {| path := "|Root"; kind := Joint |};
    {| path := "|Glove"; kind := Mesh |};
    {| path := "|Boot"; kind := Mesh |};
    {| path := "|Root|Hand"; kind := Joint |};
    {| path := "|Root|Foot"; kind := Joint |} ].

Definition outfit_skin : SkinBinding := [("|Glove", ["Hand"]); ("|Boot", ["Foot"])].

Definition export_data_of (parts : list (string * PartitionData)) : ExportData :=
  {| file_path := "out"; file_name := "char"; partitions := parts;
     preset_path := None; up_axis := None; fbx_version := None; file_type := None |}.

Definition nested_export_data : ExportData :=
  export_data_of [("Glove", {| enabled := true; skeletal_meshes := Some ["|Body|Glove"] |})].

Definition outfit_export_data : ExportData :=
  export_data_of
    [("Glove", {| enabled := true; skeletal_meshes := Some ["|Glove"] |});
     ("Boot", {| enabled := true; skeletal_meshes := Some ["|Boot"] |})].

Definition conditioned_file : string := "char_conditioned.ma".

Definition session_on (sc : Scene) : Session :=
  {| scene := sc; files := [(conditioned_file, sc)]; exported := []; console := [] |}.

(** An exporter that always succeeds, and one that fails on one output. *)
Definition settings_ok : ExportData -> Outcome unit := fun _ => Returns tt.

Definition export_ok : string -> list string -> Scene -> Outcome unit :=
  fun _ _ _ => Returns tt.

Definition export_fails_on (f : string) : string -> list string -> Scene -> Outcome unit :=
  fun export_path _ _ =>
    if String.eqb export_path f then Raises (RuntimeError "FBX export failed")
    else Returns tt.

Definition glove_plan : Plan := {| root := "Root"; hierarchy := ["|Root"; "|Root|Hand"] |}.

Definition boot_plan : Plan := {| root := "Root"; hierarchy := ["|Root"; "|Root|Foot"] |}.

Definition outfit_plans : PartitionsData :=
  [("Glove", Some glove_plan); ("Boot", Some boot_plan)].

(** The session once [Glove] was executed with the exporter that succeeds. *)
Definition after_glove : Result unit * Session :=
  execute_partition settings_ok export_ok outfit_export_data conditioned_file
    ("Glove", Some glove_plan) (session_on outfit_scene).

(** The session in which the export of [Glove] is attempted. *)
Definition glove_pruned : Session :=
  snd ((cmds_file_open conditioned_file ;;; delete_meshes (Some ["|Glove"]) ;;;
        delete_joints (hierarchy glove_plan) ;;;
        print (export_path_of outfit_export_data "Glove")) (session_on outfit_scene)).

(** [cmds.parent(name, world=True)] for scenes whose kept nodes are
    children of the world already. *)
Definition parent_world_idle : string -> Scene -> Outcome Scene := fun _ sc => Returns sc.

(** A scene with the default cameras, a rig and a stale transform. *)
Definition studio_scene : Scene :=
  [ {| path := "|persp"; kind := Other |};
    {| path := "|top"; kind := Other |};
    {| path := "|front"; kind := Other |};
    {| path := "|side"; kind := Other |};
    {| path := "|Root"; kind := Joint |};
    {| path := "|Stale"; kind := Transform |};
    {| path := "|Root|Hand"; kind := Joint |};
    {| path := "|Stale|Old"; kind := Mesh |} ].

(** A dependency graph for the namespace normalizer: the namespaces of the
    scene by their absolute names ([:rig], [:rig:arm]) and the names of the
    nodes ([rig:arm:Hand]).  A node is its index in the list. *)
Record NsGraph : Type := {
  spaces : list string;
  node_names : list string
}.

(** The namespace a name is in: what stands before its last [:]. *)
Fixpoint namespace_of (name : string) : string :=
  match name with
  | EmptyString => EmptyString
  | String c rest =>
      if contains ":" rest then String c (namespace_of rest) else EmptyString
  end.

(** A namespace right under the root: [:] and a name without [:]. *)
Definition is_top_level (ns : string) : bool :=
  match ns with
  | EmptyString => false
  | String c x => Ascii.eqb c ":" && negb (String.eqb x "") && negb (contains ":" x)
  end.

Definition ns_getNamespaces (g : NsGraph) : list string :=
  filter is_top_level (spaces g).

Definition ns_getNamespaces_recurse (g : NsGraph) (ns : string) : list string :=
  filter (String.prefix (ns ++ ":")%string) (spaces g).

Definition ns_name (g : NsGraph) (o : nat) : string := nth o (node_names g) "".

Definition ns_namespace (g : NsGraph) (o : nat) : string := namespace_of (ns_name g o).

Definition ns_objects (g : NsGraph) (ns : string) : list nat :=
  filter (fun o => String.eqb (":" ++ ns_namespace g o)%string ns)
         (seq 0 (List.length (node_names g))).

(** A name that starts with [:] is read from the root namespace. *)
Definition from_root (name : string) : string :=
  match name with
  | String ":" leaf => leaf
  | _ => name
  end.

Fixpoint set_nth (o : nat) (x : string) (l : list string) : list string :=
  match l, o with
  | [], _ => []
  | _ :: rest, 0 => x :: rest
  | y :: rest, S o' => y :: set_nth o' x rest
  end.

(** [setName]: the node takes the name, the namespaces stay. *)
Definition ns_setName (o : nat) (new_name : string) (g : NsGraph) : NsGraph :=
  {| spaces := spaces g;
     node_names := set_nth o (from_root new_name) (node_names g) |}.

Definition rig_graph : NsGraph :=
  {| spaces := [":UI"; ":shared"; ":rig"; ":rig:arm"];
     node_names := ["rig:Root"; "Glove"; "rig:arm:Hand"] |}.

(** A graph with the namespaces of a new scene. *)
Definition plain_graph : NsGraph :=
  {| spaces := [":UI"; ":shared"]; node_names := ["Root"; "Glove"] |}.

End Examples.

(* ================================================================== *)
(** * Chains: how their joints follow one another *)
(* ================================================================== *)

(** In the order of [joint_list]: after each joint comes the first parent
    Maya lists for it. *)
Fixpoint climbs (host : Host) (joint_list : list string) : Prop :=
  match joint_list with
  | c :: (p :: _) as rest =>
      (exists others, listRelatives_parent host c = p :: others) /\ climbs host rest
  | _ => True
  end.

(** Root first: each joint is the first parent listed for the next. *)
Fixpoint linked (host : Host) (chain : list string) : Prop :=
  match chain with
  | p :: (c :: _) as rest =>
      (exists others, listRelatives_parent host c = p :: others) /\ linked host rest
  | _ => True
  end.

(** The parent walk from [x] meets [start_joint] after [n] steps. *)
Inductive reaches (host : Host) (start_joint : string) : nat -> string -> Prop :=
| reaches_here : reaches host start_joint 0 start_joint
| reaches_above : forall n x p others,
    x <> start_joint ->
    listRelatives_parent host x = p :: others ->
    reaches host start_joint n p ->
    reaches host start_joint (S n) x.

(** [_get_root_joint] stops at [x]: no joint parent is listed for it, or
    the one listed is the empty string. *)
Definition no_joint_parent (host : Host) (x : string) : Prop :=
  listRelatives_joint_parent host x = [] \/
  exists others, listRelatives_joint_parent host x = "" :: others.

(** [if x not in v: v.append(x)]. *)
Definition append_if_new (v : list string) (x : string) : list string :=
  if mem x v then v else v ++ [x].

(** What every entry of [joint_hierarchy] satisfies: no key stands twice,
    no joint stands twice in a hierarchy, and a hierarchy that is not empty
    starts at the full path of its candidate root. *)
Definition well_keyed (host : Host) (d : JointHierarchy) : Prop :=
  NoDup (map fst d) /\
  forall k v, In (k, v) d ->
    NoDup v /\ (v <> [] -> exists p tl, full_path host k = Some p /\ v = p :: tl).

(* ================================================================== *)
(** * perform_fbx_condition: names and the conditioned file *)
(* ================================================================== *)

(** [s.split(sep)] for a separator of one character. *)
Fixpoint split (sep : ascii) (s : string) : list string :=
  match s with
  | EmptyString => [EmptyString]
  | String c rest =>
      if Ascii.eqb c sep then EmptyString :: split sep rest
      else
        match split sep rest with
        | [] => [String c EmptyString]
        | w :: ws => String c w :: ws
        end
  end.

(** Lines 72 and 74: [name.split(":")[-1]]. *)
Definition without_namespace (name : string) : string := last (split ":" name) "".

(** Lines 67-74: the names of the root joint and of the geometry roots
    once [_clean_namespaces] was called. *)
Definition names_after_namespaces (remove_namespace : bool) (root_joint : string)
  (root_geos : list string) : string * list string :=
  if remove_namespace then (without_namespace root_joint, map without_namespace root_geos)
  else (root_joint, root_geos).

(** [os.path.basename] of [posixpath]. *)
Definition os_path_basename (p : string) : string := last (split "/" p) "".

(** Lines 59-60: [fbx_file.split(".")[0] + "_conditioned.ma"]. *)
Definition conditioned_file_of (master_fbx_path : string) : string :=
  (hd "" (split "." (os_path_basename master_fbx_path)) ++ "_conditioned.ma")%string.

(** The last character of a string. *)
Fixpoint last_char (s : string) : option ascii :=
  match s with
  | EmptyString => None
  | String c rest =>
      match last_char rest with
      | Some d => Some d
      | None => Some c
      end
  end.

(** The scene [cmds.file(new=True, force=True)] opens: the default cameras. *)
Definition new_scene : Scene :=
  [ {| path := "|persp"; kind := Other |};
    {| path := "|top"; kind := Other |};
    {| path := "|front"; kind := Other |};
    {| path := "|side"; kind := Other |} ].

Definition cmds_file_new : Cmd unit := set_scene new_scene.

(** [cmds.file(rename=name)] and [cmds.file(save=True, force=True,
    type="mayaAscii")]: the open scene is written to the file. *)
Definition cmds_file_save_as (name : string) : Cmd unit :=
  fun s =>
    (Ok tt,
     {| scene := scene s;
        files := (name, scene s)
                 :: filter (fun kv => negb (String.eqb (fst kv) name)) (files s);
        exported := exported s;
        console := console s |}).

Definition os_path_exists (name : string) : Cmd bool :=
  fun s => (Ok (existsb (fun kv => String.eqb (fst kv) name) (files s)), s).

Definition os_remove (name : string) : Cmd unit :=
  fun s =>
    (Ok tt,
     {| scene := scene s;
        files := filter (fun kv => negb (String.eqb (fst kv) name)) (files s);
        exported := exported s;
        console := console s |}).

(** The session once lines 105-111 ran: two lines printed and the open
    scene written to the conditioned file. *)
Definition conditioned_session (conditioned_file : string) (s : Session) : Session :=
  {| scene := scene s;
     files := (conditioned_file, scene s)
              :: filter (fun kv => negb (String.eqb (fst kv) conditioned_file)) (files s);
     exported := exported s;
     console := console s ++ ["[Partitions]"; "   Preparing scene for Partition creation.."] |}.

Section PartitionStage.

Variable maya : Scene -> Host.
Variable fuel : nat.
Variable pfbx_settings : ExportData -> Outcome unit.
Variable pfbx_FBXExport : string -> list string -> Scene -> Outcome unit.

(** Lines 104-121 of [perform_fbx_condition]. *)
Definition perform_fbx_condition_partitions (partitions : bool)
  (export_data : option ExportData) (root_joint conditioned_file : string) : Cmd unit :=
  match partitions, export_data with
  | true, Some export_data =>
      print "[Partitions]" ;;;
      print "   Preparing scene for Partition creation.." ;;;
      cmds_file_save_as conditioned_file ;;;
      _export_skeletal_mesh_partitions maya fuel pfbx_settings pfbx_FBXExport
        [root_joint] export_data conditioned_file ;;;
      cmds_file_new ;;;
      there <<- os_path_exists conditioned_file ;;
      if there then os_remove conditioned_file
      else
        print "   Cleaned up conditioned file..." ;;;
        print ("      Deleted - " ++ conditioned_file)%string
  | _, _ => ret tt
  end.

End PartitionStage.

Module StageExamples.

(** The pass over the two partitions of the outfit, run as the partition
    stage runs it, with the exporter that succeeds. *)
Definition outfit_pass : Result bool * Session :=
  _export_skeletal_mesh_partitions (scene_host Examples.outfit_skin) 10
    Examples.settings_ok Examples.export_ok ["Root"] Examples.outfit_export_data
    Examples.conditioned_file
    (conditioned_session Examples.conditioned_file
       (Examples.session_on Examples.outfit_scene)).

(** The same with the exporter that fails on the file of [Glove]. *)
Definition outfit_pass_failing : Result bool * Session :=
  _export_skeletal_mesh_partitions (scene_host Examples.outfit_skin) 10
    Examples.settings_ok (Examples.export_fails_on "out/char_Glove.fbx") ["Root"]
    Examples.outfit_export_data Examples.conditioned_file
    (conditioned_session Examples.conditioned_file
       (Examples.session_on Examples.outfit_scene)).

End StageExamples.

(** The hierarchy kept under the candidate root [r] holds the joint [x]. *)
Definition holds (d : JointHierarchy) (r x : string) : Prop :=
  exists h, In (r, h) d /\ In x h.

(* ================================================================== *)
(** * Loops and outcomes *)
(* ================================================================== *)

Lemma bind_Ok_inv {A B} (r : Result A) (k : A -> Result B) (b : B) :
  bind r k = Ok b -> exists a, r = Ok a /\ k a = Ok b.
Proof.
  destruct r as [a | e |]; simpl; intros H; try discriminate.
  exists a; split; [reflexivity | exact H].
Qed.

(** A loop that ends normally ran its body normally on every element. *)
Lemma for_each_Ok_inv {A B} (body : B -> A -> Result B) :
  forall l acc b,
    for_each body l acc = Ok b ->
    forall x, In x l -> exists a a', body a x = Ok a'.
Proof.
  induction l as [| y l IH]; intros acc b Hrun x Hin.
  - destruct Hin.
  - simpl in Hrun. apply bind_Ok_inv in Hrun as [acc' [Hy Hrest]].
    destruct Hin as [-> | Hin].
    + exists acc, acc'. exact Hy.
    + exact (IH _ _ Hrest x Hin).
Qed.

Lemma for_each_app {A B} (body : B -> A -> Result B) :
  forall l1 l2 acc,
    for_each body (l1 ++ l2) acc = (acc' <- for_each body l1 acc ;; for_each body l2 acc').
Proof.
  induction l1 as [| x l1 IH]; intros l2 acc; simpl.
  - reflexivity.
  - destruct (body acc x) as [acc' | e |]; simpl; [apply IH | reflexivity | reflexivity].
Qed.

Lemma mem_In (x : string) (l : list string) : mem x l = true <-> In x l.
Proof.
  unfold mem. rewrite existsb_exists. split.
  - intros [y [Hin Heq]]. apply String.eqb_eq in Heq. subst. exact Hin.
  - intros Hin. exists x. split; [exact Hin | apply String.eqb_refl].
Qed.

Lemma mem_false_not_In (x : string) (l : list string) : mem x l = false <-> ~ In x l.
Proof.
  rewrite <- mem_In. destruct (mem x l); split; intros H; congruence.
Qed.

Lemma count_zero_not_In (l : list string) (x : string) :
  Nat.eqb (count l x) 0 = true <-> ~ In x l.
Proof.
  unfold count. rewrite Nat.eqb_eq. symmetry. apply count_occ_not_In.
Qed.

(* ================================================================== *)
(** * ChainResolver: properties *)
(* ================================================================== *)

Section ChainResolverFacts.

Variable host : Host.


(** A walk that leaves the hierarchy raises, once the fuel covers it. *)
Lemma climb_exits :
  forall start_joint n x,
    exits_hierarchy host start_joint n x ->
    forall fuel joint_list,
      n < fuel ->
      climb host fuel start_joint joint_list x
      = Raise (PyException "Found root joint while searching for start joint").
Proof.
  intros start_joint n x Hexit.
  induction Hexit as [x Hne Hpar | n x p others Hne Hpar Hexit IH];
    intros fuel joint_list Hfuel.
  - destruct fuel as [| fuel']; [lia |].
    simpl. apply String.eqb_neq in Hne. rewrite Hne, Hpar. reflexivity.
  - destruct fuel as [| fuel']; [lia |].
    simpl. apply String.eqb_neq in Hne. rewrite Hne, Hpar.
    apply IH. lia.
Qed.

Lemma exits_hierarchy_ne :
  forall start_joint n x, exits_hierarchy host start_joint n x -> x <> start_joint.
Proof. intros start_joint n x H. destruct H; assumption. Qed.

Lemma _get_joint_list_exits :
  forall fuel n start end_ start_joint end_joint,
    full_path host start = Some start_joint ->
    full_path host end_ = Some end_joint ->
    In end_joint (ls_joint_descendants host start_joint) ->
    exits_hierarchy host start_joint n end_joint ->
    n < fuel ->
    _get_joint_list host fuel start end_
    = Raise (PyException "Found root joint while searching for start joint").
Proof.
  intros fuel n start end_ start_joint end_joint Hs He Hin Hexit Hfuel.
  unfold _get_joint_list. rewrite Hs, He.
  pose proof (exits_hierarchy_ne _ _ _ Hexit) as Hne.
  assert (Hneq : String.eqb start_joint end_joint = false).
  { apply String.eqb_neq. congruence. }
  rewrite Hneq.
  destruct (Nat.eqb (count (ls_joint_descendants host start_joint) end_joint) 0) eqn:Hc.
  - apply count_zero_not_In in Hc. contradiction.
  - rewrite (climb_exits _ _ _ Hexit fuel [end_joint] Hfuel). reflexivity.
Qed.

(** What [climb] returns continues the list it was given and ends at the
    start joint. *)
Lemma climb_Ok :
  forall fuel start_joint joint_list x l,
    climb host fuel start_joint (joint_list ++ [x]) x = Ok l ->
    (exists up, l = joint_list ++ x :: up) /\ (exists below, l = below ++ [start_joint]).
Proof.
  induction fuel as [| fuel IH]; intros start_joint joint_list x l Hrun.
  - discriminate.
  - simpl in Hrun. destruct (String.eqb x start_joint) eqn:Hx.
    + apply String.eqb_eq in Hx. inversion Hrun; subst. split.
      * exists []. reflexivity.
      * exists joint_list. reflexivity.
    + destruct (listRelatives_parent host x) as [| p others]; [discriminate |].
      destruct (IH _ _ _ _ Hrun) as [[up Hup] Hbelow]. split.
      * exists (p :: up). rewrite Hup, <- app_assoc. reflexivity.
      * exact Hbelow.
Qed.

(** A chain that is not empty starts at the full path of the start joint
    and ends at the full path of the end joint. *)
Lemma _get_joint_list_ends :
  forall fuel start end_ chain,
    _get_joint_list host fuel start end_ = Ok chain ->
    chain <> [] ->
    exists start_joint end_joint,
      full_path host start = Some start_joint /\
      full_path host end_ = Some end_joint /\
      (exists tl, chain = start_joint :: tl) /\
      (exists before, chain = before ++ [end_joint]).
Proof.
  intros fuel start end_ chain Hrun Hne.
  unfold _get_joint_list in Hrun.
  destruct (full_path host start) as [start_joint |]; [| inversion Hrun; congruence].
  destruct (full_path host end_) as [end_joint |]; [| inversion Hrun; congruence].
  exists start_joint, end_joint. split; [reflexivity | split; [reflexivity |]].
  destruct (String.eqb start_joint end_joint) eqn:Heq.
  - apply String.eqb_eq in Heq. inversion Hrun; subst. split.
    + exists []. reflexivity.
    + exists []. reflexivity.
  - destruct (Nat.eqb (count (ls_joint_descendants host start_joint) end_joint) 0);
      [inversion Hrun; congruence |].
    apply bind_Ok_inv in Hrun as [joint_list [Hclimb Hrev]].
    inversion Hrev; subst chain.
    destruct (climb_Ok fuel start_joint [] end_joint joint_list Hclimb)
      as [[up Hup] [below Hbelow]].
    split.
    + exists (rev below). rewrite Hbelow, rev_app_distr. reflexivity.
    + exists (rev up). rewrite Hup. reflexivity.
Qed.

End ChainResolverFacts.



(* ================================================================== *)
(** * PartitionPlanner: the minimality rule *)
(* ================================================================== *)

Lemma shortest_fold :
  forall items cur, shortest items cur = fold_left shortest_step items cur.
Proof.
  induction items as [| [r h] items IH]; intros cur; simpl.
  - reflexivity.
  - unfold shortest_step at 2. simpl.
    destruct (Nat.leb (List.length h) 0); [apply IH |].
    destruct cur as [[r0 sh] |]; [| apply IH].
    destruct (Nat.ltb (List.length h) (List.length sh)); apply IH.
Qed.

Lemma length_leb_0 {A} (h : list A) : Nat.leb (List.length h) 0 = true <-> h = [].
Proof.
  destruct h; simpl; split; intros H; try reflexivity; discriminate.
Qed.

Lemma shortest_first_shortest :
  forall items,
    match shortest items None with
    | None => forall r h, In (r, h) items -> h = []
    | Some (r, h) => exists i, first_shortest items i r h
    end.
Proof.
  intros items. rewrite shortest_fold.
  induction items as [| [r h] items IH] using rev_ind.
  - simpl. intros r h [].
  - rewrite fold_left_app. simpl.
    destruct (fold_left shortest_step items None) as [[r0 h0] |].
    + destruct IH as [i [Hi [Hne Hmin]]].
      assert (Hlt : i < List.length items).
      { apply nth_error_Some. rewrite Hi. discriminate. }
      unfold shortest_step. simpl.
      destruct (Nat.leb (List.length h) 0) eqn:Hempty.
      * apply length_leb_0 in Hempty. subst h.
        exists i. split; [| split; [exact Hne |]].
        -- rewrite nth_error_app1 by exact Hlt. exact Hi.
        -- intros j r' h' Hj Hne'.
           destruct (Nat.lt_ge_cases j (List.length items)) as [Hjl | Hjl].
           ++ rewrite nth_error_app1 in Hj by exact Hjl. exact (Hmin j r' h' Hj Hne').
           ++ rewrite nth_error_app2 in Hj by exact Hjl.
              destruct (j - List.length items) as [| k]; simpl in Hj.
              ** inversion Hj; subst. congruence.
              ** destruct k; discriminate.
      * destruct (Nat.ltb (List.length h) (List.length h0)) eqn:Hshorter.
        -- apply Nat.ltb_lt in Hshorter.
           exists (List.length items). split; [| split].
           ++ rewrite nth_error_app2 by lia. rewrite Nat.sub_diag. reflexivity.
           ++ intros ->. discriminate.
           ++ intros j r' h' Hj Hne'.
              destruct (Nat.lt_ge_cases j (List.length items)) as [Hjl | Hjl].
              ** rewrite nth_error_app1 in Hj by exact Hjl.
                 destruct (Hmin j r' h' Hj Hne') as [Hle _]. lia.
              ** rewrite nth_error_app2 in Hj by exact Hjl.
                 destruct (j - List.length items) as [| k] eqn:Hk; simpl in Hj.
                 --- inversion Hj; subst. split; lia.
                 --- destruct k; discriminate.
        -- apply Nat.ltb_ge in Hshorter.
           exists i. split; [| split; [exact Hne |]].
           ++ rewrite nth_error_app1 by exact Hlt. exact Hi.
           ++ intros j r' h' Hj Hne'.
              destruct (Nat.lt_ge_cases j (List.length items)) as [Hjl | Hjl].
              ** rewrite nth_error_app1 in Hj by exact Hjl. exact (Hmin j r' h' Hj Hne').
              ** rewrite nth_error_app2 in Hj by exact Hjl.
                 destruct (j - List.length items) as [| k] eqn:Hk; simpl in Hj.
                 --- inversion Hj; subst. split; lia.
                 --- destruct k; discriminate.
    + unfold shortest_step. simpl.
      destruct (Nat.leb (List.length h) 0) eqn:Hempty.
      * apply length_leb_0 in Hempty. subst h.
        intros r' h' Hin. apply in_app_or in Hin as [Hin | [Heq | []]].
        -- exact (IH r' h' Hin).
        -- inversion Heq. reflexivity.
      * exists (List.length items). split; [| split].
        -- rewrite nth_error_app2 by lia. rewrite Nat.sub_diag. reflexivity.
        -- intros ->. discriminate.
        -- intros j r' h' Hj Hne'.
           destruct (Nat.lt_ge_cases j (List.length items)) as [Hjl | Hjl].
           ++ rewrite nth_error_app1 in Hj by exact Hjl.
              apply nth_error_In in Hj. apply IH in Hj. contradiction.
           ++ rewrite nth_error_app2 in Hj by exact Hjl.
              destruct (j - List.length items) as [| k] eqn:Hk; simpl in Hj.
              ** inversion Hj; subst. split; lia.
              ** destruct k; discriminate.
Qed.

(** Induced sizes 5, 3, 3: the first candidate of size 3 is kept. *)
Example shortest_5_3_3 :
  shortest [("a", ["1"; "2"; "3"; "4"; "5"]); ("b", ["1"; "2"; "3"]); ("c", ["4"; "5"; "6"])] None
  = Some ("b", ["1"; "2"; "3"]).
Proof. reflexivity. Qed.

(* ================================================================== *)
(** * PartitionPlanner: the keys of [joint_hierarchy] *)
(* ================================================================== *)

Lemma has_key_mem (k : string) (d : JointHierarchy) : has_key k d = mem k (map fst d).
Proof.
  unfold has_key, mem. induction d as [| [k' v] d IH]; simpl.
  - reflexivity.
  - rewrite IH, (String.eqb_sym k' k). reflexivity.
Qed.

Lemma keys_setdefault (k : string) (d : JointHierarchy) :
  map fst (setdefault k d) = add_key (map fst d) k.
Proof.
  unfold setdefault, add_key. rewrite has_key_mem.
  destruct (mem k (map fst d)); [reflexivity |].
  rewrite map_app. reflexivity.
Qed.

Lemma keys_append_new (k x : string) (d : JointHierarchy) :
  map fst (append_new k x d) = map fst d.
Proof.
  induction d as [| [k' v] d IH]; simpl; [reflexivity |].
  destruct (String.eqb k' k); simpl; [reflexivity | rewrite IH; reflexivity].
Qed.

Lemma add_key_keeps (keys : list string) (k x : string) :
  In x keys -> In x (add_key keys k).
Proof.
  unfold add_key. destruct (mem k keys); [tauto |].
  intros H. apply in_or_app. left. exact H.
Qed.

Lemma add_key_has (keys : list string) (k : string) : In k (add_key keys k).
Proof.
  unfold add_key. destruct (mem k keys) eqn:Hm.
  - apply mem_In. exact Hm.
  - apply in_or_app. right. left. reflexivity.
Qed.

Lemma fold_add_key_keeps :
  forall roots keys x, In x keys -> In x (fold_left add_key roots keys).
Proof.
  induction roots as [| r roots IH]; intros keys x H; simpl; [exact H |].
  apply IH. apply add_key_keeps. exact H.
Qed.

Lemma fold_add_key_fixed :
  forall roots keys,
    (forall r, In r roots -> In r keys) -> fold_left add_key roots keys = keys.
Proof.
  induction roots as [| r roots IH]; intros keys H; simpl; [reflexivity |].
  assert (Hr : add_key keys r = keys).
  { unfold add_key. rewrite (proj2 (mem_In r keys)); [reflexivity |].
    apply H. left. reflexivity. }
  rewrite Hr. apply IH. intros r' Hr'. apply H. right. exact Hr'.
Qed.

Lemma first_occurrences_has :
  forall roots keys r, In r roots -> In r (fold_left add_key roots keys).
Proof.
  induction roots as [| r0 roots IH]; intros keys r Hin; [destruct Hin |].
  simpl. destruct Hin as [-> | Hin].
  - apply fold_add_key_keeps. apply add_key_has.
  - apply IH. exact Hin.
Qed.

Section PlannerFacts.

Variable host : Host.
Variable fuel : nat.

Lemma keys_add_chain (k : string) :
  forall chain d, map fst (add_chain k chain d) = map fst d.
Proof.
  unfold add_chain. induction chain as [| x chain IH]; intros d; simpl.
  - reflexivity.
  - rewrite IH. apply keys_append_new.
Qed.

Lemma keys_for_influences (k : string) :
  forall influences d d',
    for_influences host fuel k influences d = Ok d' -> map fst d' = map fst d.
Proof.
  unfold for_influences.
  induction influences as [| inf influences IH]; intros d d' Hrun; simpl in Hrun.
  - inversion Hrun. reflexivity.
  - apply bind_Ok_inv in Hrun as [d1 [Hstep Hrest]].
    apply bind_Ok_inv in Hstep as [chain [_ Hd1]].
    inversion Hd1; subst d1.
    rewrite (IH _ _ Hrest). apply keys_add_chain.
Qed.

Lemma keys_for_roots (influences : list string) :
  forall jnt_roots d d',
    for_roots host fuel jnt_roots influences d = Ok d' ->
    map fst d' = fold_left add_key jnt_roots (map fst d).
Proof.
  unfold for_roots.
  induction jnt_roots as [| r jnt_roots IH]; intros d d' Hrun; simpl in Hrun.
  - inversion Hrun. reflexivity.
  - apply bind_Ok_inv in Hrun as [d1 [Hstep Hrest]].
    rewrite (IH _ _ Hrest). simpl.
    rewrite (keys_for_influences _ _ _ _ Hstep), keys_setdefault. reflexivity.
Qed.

(** Once a mesh went through the loop, the keys are the candidates in the
    order given, and stay so. *)
Lemma keys_for_meshes_step (jnt_roots : list string) :
  forall meshes d d',
    for_each (fun d mesh =>
                influences <- call (skinCluster_influence host mesh) ;;
                for_roots host fuel jnt_roots influences d) meshes d = Ok d' ->
    map fst d = first_occurrences jnt_roots ->
    map fst d' = first_occurrences jnt_roots.
Proof.
  induction meshes as [| mesh meshes IH]; intros d d' Hrun Hkeys; simpl in Hrun.
  - inversion Hrun; subst. exact Hkeys.
  - apply bind_Ok_inv in Hrun as [d1 [Hstep Hrest]].
    apply bind_Ok_inv in Hstep as [influences [_ Hroots]].
    apply (IH _ _ Hrest).
    rewrite (keys_for_roots _ _ _ _ Hroots), Hkeys.
    apply fold_add_key_fixed. intros r Hr.
    unfold first_occurrences. apply first_occurrences_has. exact Hr.
Qed.

Lemma keys_for_meshes (jnt_roots : list string) :
  forall mesh meshes items,
    for_meshes host fuel jnt_roots (Some (mesh :: meshes)) = Ok items ->
    map fst items = first_occurrences jnt_roots.
Proof.
  intros mesh meshes items Hrun. unfold for_meshes in Hrun. simpl in Hrun.
  apply bind_Ok_inv in Hrun as [d1 [Hstep Hrest]].
  apply bind_Ok_inv in Hstep as [influences [_ Hroots]].
  apply (keys_for_meshes_step _ _ _ _ Hrest).
  rewrite (keys_for_roots _ _ _ _ Hroots). reflexivity.
Qed.

(** C4.  When some candidate root has a non-empty induced hierarchy, the
    planner keeps the candidate whose hierarchy has the fewest joints among
    the non-empty ones, and among several of that size the first in the
    order the candidates were supplied: the items of [joint_hierarchy] are
    keyed by the candidates in that order, the chosen item is at some index
    [i], no non-empty hierarchy is shorter and every non-empty one before
    [i] is strictly longer. *)
Theorem C4_fewest_joints_first_on_ties :
  forall jnt_roots meshes items,
    for_meshes host fuel jnt_roots meshes = Ok items ->
    (exists r h, In (r, h) items /\ h <> []) ->
    map fst items = first_occurrences jnt_roots /\
    exists i r h,
      choose_root host fuel jnt_roots meshes = Ok (Some (r, h)) /\
      nth_error items i = Some (r, h) /\
      h <> [] /\
      forall j r' h',
        nth_error items j = Some (r', h') -> h' <> [] ->
        List.length h <= List.length h' /\ (j < i -> List.length h < List.length h').
Proof.
  intros jnt_roots meshes items Hitems [r0 [h0 [Hin0 Hne0]]]. split.
  - destruct meshes as [[| mesh meshes] |].
    + inversion Hitems; subst. destruct Hin0.
    + exact (keys_for_meshes _ _ _ _ Hitems).
    + discriminate.
  - unfold choose_root. rewrite Hitems. simpl.
    pose proof (shortest_first_shortest items) as Hspec.
    destruct (shortest items None) as [[r h] |].
    + destruct Hspec as [i [Hi [Hne Hmin]]].
      exists i, r, h.
      split; [reflexivity |]. split; [exact Hi |]. split; [exact Hne |]. exact Hmin.
    + exfalso. apply Hne0. exact (Hspec r0 h0 Hin0).
Qed.

End PlannerFacts.

(* ================================================================== *)
(** * PartitionPlanner: the hierarchy brought up to the true root *)
(* ================================================================== *)

Section FinalHierarchy.

Variable host : Host.
Variable fuel : nat.

(** Lines 190-195.  Let [first :: others] be the hierarchy chosen by the
    minimality rule, [first] being a full path, and [root_jnt] the result of
    [_get_root_joint first].  When [root_jnt] is in the hierarchy the plan
    keeps the hierarchy as it is.  Otherwise the plan is the whole chain
    [_get_joint_list root_jnt first] followed by the hierarchy: a chain that
    is not empty starts at the full path of [root_jnt], so the plan begins
    at the true root, and it ends with [first], which is kept and so stands
    twice in the plan. *)
Lemma extend_to_root_puts_the_whole_chain_in_front :
  forall first others final,
    full_path host first = Some first ->
    extend_to_root host fuel (first :: others) = Ok final ->
    exists root_jnt,
      _get_root_joint host fuel first = Ok root_jnt /\
      ((In root_jnt (first :: others) /\ final = first :: others) \/
       (~ In root_jnt (first :: others) /\
        exists chain,
          _get_joint_list host fuel root_jnt first = Ok chain /\
          final = chain ++ first :: others /\
          (chain <> [] ->
           exists root_path before,
             full_path host root_jnt = Some root_path /\
             chain = before ++ [first] /\
             hd_error final = Some root_path /\
             final = before ++ first :: first :: others))).
Proof.
  intros first others final Hfirst Hrun.
  unfold extend_to_root in Hrun.
  apply bind_Ok_inv in Hrun as [root_jnt [Hroot Hrest]].
  exists root_jnt. split; [exact Hroot |].
  destruct (mem root_jnt (first :: others)) eqn:Hmem; simpl in Hrest.
  - left. split; [apply mem_In; exact Hmem |]. inversion Hrest. reflexivity.
  - right. split; [apply mem_false_not_In; exact Hmem |].
    apply bind_Ok_inv in Hrest as [chain [Hchain Hfinal]].
    exists chain. split; [exact Hchain |].
    inversion Hfinal; subst final. split; [reflexivity |].
    intros Hne.
    destruct (_get_joint_list_ends host fuel root_jnt first chain Hchain Hne)
      as [root_path [end_joint [Hrp [Hend [[tl Htl] [before Hbefore]]]]]].
    rewrite Hfirst in Hend. inversion Hend; subst end_joint.
    exists root_path, before. split; [exact Hrp |]. split; [exact Hbefore |]. split.
    + rewrite Htl. reflexivity.
    + rewrite Hbefore, <- app_assoc. reflexivity.
Qed.

End FinalHierarchy.

(* ================================================================== *)
(** * The partitioning pass: what aborts it *)
(* ================================================================== *)

Section PassFacts.

Variable maya : Scene -> Host.
Variable fuel : nat.
Variable pfbx_settings : ExportData -> Outcome unit.
Variable pfbx_FBXExport : string -> list string -> Scene -> Outcome unit.

(** An exception in the planner leaves [_export_skeletal_mesh_partitions]
    with the session as it was. *)
Lemma planner_exception_leaves :
  forall jnt_roots export_data scene_path s e,
    partitions export_data <> [] ->
    plan_partitions (maya (scene s)) fuel jnt_roots (partitions export_data) = Raise e ->
    _export_skeletal_mesh_partitions maya fuel pfbx_settings pfbx_FBXExport
      jnt_roots export_data scene_path s = (Raise e, s).
Proof.
  intros jnt_roots export_data scene_path s e Hne Hplan.
  unfold _export_skeletal_mesh_partitions.
  destruct (partitions export_data) as [| p ps] eqn:Hparts; [congruence |].
  unfold cbind, get_scene, lift. rewrite Hplan. reflexivity.
Qed.

(** The planner does not end normally when one of the chains it asks for
    raises. *)
Lemma planner_meets_the_exception :
  forall host jnt_roots parts name data meshes mesh influences jnt_root inf_jnt e,
    In (name, data) parts ->
    enabled data = true ->
    skeletal_meshes data = Some meshes ->
    In mesh meshes ->
    skinCluster_influence host mesh = Returns influences ->
    In inf_jnt influences ->
    In jnt_root jnt_roots ->
    _get_joint_list host fuel jnt_root inf_jnt = Raise e ->
    forall pd, plan_partitions host fuel jnt_roots parts <> Ok pd.
Proof.
  intros host jnt_roots parts name data meshes mesh influences jnt_root inf_jnt e
    Hpart Hen Hmeshes Hmesh Hskin Hinf Hroot Hraise pd Hrun.
  unfold plan_partitions in Hrun.
  destruct (for_each_Ok_inv _ _ _ _ Hrun _ Hpart) as [pd0 [pd1 Hone]].
  unfold plan_partition in Hone. rewrite Hen in Hone. simpl in Hone.
  apply bind_Ok_inv in Hone as [chosen [Hchoose _]].
  unfold choose_root in Hchoose.
  apply bind_Ok_inv in Hchoose as [items [Hitems _]].
  unfold for_meshes in Hitems. rewrite Hmeshes in Hitems.
  destruct (for_each_Ok_inv _ _ _ _ Hitems _ Hmesh) as [d0 [d1 Hm]].
  rewrite Hskin in Hm. simpl in Hm. unfold for_roots in Hm.
  destruct (for_each_Ok_inv _ _ _ _ Hm _ Hroot) as [d2 [d3 Hr]].
  unfold for_influences in Hr.
  destruct (for_each_Ok_inv _ _ _ _ Hr _ Hinf) as [d4 [d5 Hi]].
  rewrite Hraise in Hi. discriminate.
Qed.

(** C7.  When [end_joint] passed the descendant check and the parent walk
    from it meets a node without parent before it meets [start_joint],
    [_get_joint_list] raises, once the fuel covers the walk.  Nothing
    catches the exception: where the planner makes that call for an enabled
    partition, [_export_skeletal_mesh_partitions] ends with an exception and
    has not touched the session, provided the fuel covers the loops of the
    planner. *)
Theorem C7_leaving_the_hierarchy_aborts_the_pass :
  forall host n jnt_root inf_jnt start_joint end_joint,
    full_path host jnt_root = Some start_joint ->
    full_path host inf_jnt = Some end_joint ->
    In end_joint (ls_joint_descendants host start_joint) ->
    exits_hierarchy host start_joint n end_joint ->
    n < fuel ->
    _get_joint_list host fuel jnt_root inf_jnt
    = Raise (PyException "Found root joint while searching for start joint") /\
    forall jnt_roots export_data scene_path s name data meshes mesh influences,
      maya (scene s) = host ->
      In (name, data) (partitions export_data) ->
      enabled data = true ->
      skeletal_meshes data = Some meshes ->
      In mesh meshes ->
      skinCluster_influence host mesh = Returns influences ->
      In inf_jnt influences ->
      In jnt_root jnt_roots ->
      plan_partitions host fuel jnt_roots (partitions export_data) <> OutOfFuel ->
      exists e,
        _export_skeletal_mesh_partitions maya fuel pfbx_settings pfbx_FBXExport
          jnt_roots export_data scene_path s = (Raise e, s).
Proof.
  intros host n jnt_root inf_jnt start_joint end_joint Hs He Hdesc Hexit Hfuel.
  pose proof (_get_joint_list_exits host fuel n jnt_root inf_jnt start_joint end_joint
                Hs He Hdesc Hexit Hfuel) as Hraise.
  split; [exact Hraise |].
  intros jnt_roots export_data scene_path s name data meshes mesh influences
    Hhost Hpart Hen Hmeshes Hmesh Hskin Hinf Hroot Hterm.
  pose proof (planner_meets_the_exception host jnt_roots (partitions export_data)
                name data meshes mesh influences jnt_root inf_jnt _
                Hpart Hen Hmeshes Hmesh Hskin Hinf Hroot Hraise) as Hnot.
  destruct (plan_partitions host fuel jnt_roots (partitions export_data))
    as [pd | e |] eqn:Hplan.
  - exfalso. exact (Hnot pd eq_refl).
  - exists e. apply planner_exception_leaves.
    + intros Hnil. rewrite Hnil in Hpart. destruct Hpart.
    + rewrite Hhost. exact Hplan.
  - exfalso. apply Hterm. reflexivity.
Qed.

(** C10.  An enabled partition without mesh list is not skipped: the loop
    over [None] raises [TypeError], the planner raises it once the
    partitions before went through, and so does
    [_export_skeletal_mesh_partitions], before any scene is loaded or
    exported. *)
Theorem C10_missing_mesh_list_aborts_the_pass :
  forall jnt_roots export_data scene_path s before name data after pd,
    partitions export_data = before ++ (name, data) :: after ->
    enabled data = true ->
    skeletal_meshes data = None ->
    plan_partitions (maya (scene s)) fuel jnt_roots before = Ok pd ->
    plan_partition (maya (scene s)) fuel jnt_roots pd (name, data)
    = Raise (TypeError "'NoneType' object is not iterable") /\
    _export_skeletal_mesh_partitions maya fuel pfbx_settings pfbx_FBXExport
      jnt_roots export_data scene_path s
    = (Raise (TypeError "'NoneType' object is not iterable"), s).
Proof.
  intros jnt_roots export_data scene_path s before name data after pd
    Hparts Hen Hnone Hbefore.
  assert (Hone : plan_partition (maya (scene s)) fuel jnt_roots pd (name, data)
                 = Raise (TypeError "'NoneType' object is not iterable")).
  { unfold plan_partition, choose_root, for_meshes. rewrite Hen, Hnone. reflexivity. }
  split; [exact Hone |].
  apply planner_exception_leaves.
  - rewrite Hparts. intros Hnil. destruct before; discriminate.
  - rewrite Hparts. unfold plan_partitions in *.
    rewrite for_each_app, Hbefore. cbn [bind for_each]. rewrite Hone. reflexivity.
Qed.

End PassFacts.

(* ================================================================== *)
(** * The planner on the example scenes *)
(* ================================================================== *)


(** [Hand] has no node below it, and [listRelatives] gives [None]: the chain
    from [Hand] to [Spine] is empty when [cmds.ls] answers [None] with the
    empty list, and the parent walk from [Spine] raises when it answers with
    every joint of the scene. *)
Example chain_from_the_childless_Hand :
  listRelatives_descendants Examples.glove_host "|Root|Spine|Arm|Hand" = None /\
  _get_joint_list (scene_host_with (fun _ => []) Examples.glove_skin Examples.glove_scene)
    5 "Hand" "Spine" = Ok [] /\
  _get_joint_list (scene_host_with ls_every_joint Examples.glove_skin Examples.glove_scene)
    5 "Hand" "Spine"
  = Raise (PyException "Found root joint while searching for start joint").
Proof. split; [reflexivity |]. split; reflexivity. Qed.

(** With the candidates [Root] and [Spine] the planner keeps [Spine], whose
    hierarchy has three joints against four. *)
Lemma C4_Spine_is_chosen_before_Root :
  for_meshes Examples.glove_host 10 ["Root"; "Spine"] (Some ["|Glove"])
  = Ok [("Root", ["|Root"; "|Root|Spine"; "|Root|Spine|Arm"; "|Root|Spine|Arm|Hand"]);
        ("Spine", ["|Root|Spine"; "|Root|Spine|Arm"; "|Root|Spine|Arm|Hand"])] /\
  exists i r h,
    choose_root Examples.glove_host 10 ["Root"; "Spine"] (Some ["|Glove"]) = Ok (Some (r, h)) /\
    nth_error
      [("Root", ["|Root"; "|Root|Spine"; "|Root|Spine|Arm"; "|Root|Spine|Arm|Hand"]);
       ("Spine", ["|Root|Spine"; "|Root|Spine|Arm"; "|Root|Spine|Arm|Hand"])] i
    = Some (r, h) /\
    h <> [] /\
    forall j r' h',
      nth_error
        [("Root", ["|Root"; "|Root|Spine"; "|Root|Spine|Arm"; "|Root|Spine|Arm|Hand"]);
         ("Spine", ["|Root|Spine"; "|Root|Spine|Arm"; "|Root|Spine|Arm|Hand"])] j
      = Some (r', h') ->
      h' <> [] ->
      List.length h <= List.length h' /\ (j < i -> List.length h < List.length h').
Proof.
  split; [reflexivity |].
  apply (C4_fewest_joints_first_on_ties Examples.glove_host 10 ["Root"; "Spine"]
           (Some ["|Glove"])
           [("Root", ["|Root"; "|Root|Spine"; "|Root|Spine|Arm"; "|Root|Spine|Arm|Hand"]);
            ("Spine", ["|Root|Spine"; "|Root|Spine|Arm"; "|Root|Spine|Arm|Hand"])]).
  - reflexivity.
  - exists "Root", ["|Root"; "|Root|Spine"; "|Root|Spine|Arm"; "|Root|Spine|Arm|Hand"].
    split; [left; reflexivity | discriminate].
Defined.

(** C1.  The hierarchy of a plan is to begin at the true root and to hold
    no joint twice, the chain put in front leaving out the join point.  For
    [Root -> Spine -> Arm -> Hand], the mesh [Glove] skinned to [Hand] and
    the candidates [Root] and [Spine], the planner keeps [Spine]; the plan
    it emits begins at [|Root], but the chain from [Root] to [|Root|Spine]
    is put in front whole, and the join point [|Root|Spine] stands twice in
    the hierarchy of the plan. *)
Lemma C1_join_point_stands_twice :
  exists plan,
    plan_partitions Examples.glove_host 10 ["Root"; "Spine"] Examples.glove_partitions
    = Ok [("Glove", Some plan)] /\
    root plan = "Spine" /\
    hierarchy plan
    = ["|Root"; "|Root|Spine"; "|Root|Spine"; "|Root|Spine|Arm"; "|Root|Spine|Arm|Hand"] /\
    _get_joint_list Examples.glove_host 10 "Root" "|Root|Spine" = Ok ["|Root"; "|Root|Spine"] /\
    count (hierarchy plan) "|Root|Spine" = 2 /\
    ~ NoDup (hierarchy plan).
Proof.
  exists {| root := "Spine";
            hierarchy := ["|Root"; "|Root|Spine"; "|Root|Spine";
                          "|Root|Spine|Arm"; "|Root|Spine|Arm|Hand"] |}.
  split; [reflexivity |]. split; [reflexivity |]. split; [reflexivity |].
  split; [reflexivity |]. split; [reflexivity |].
  simpl. intros Hnodup.
  inversion Hnodup as [| x l _ Hrest]; subst.
  inversion Hrest as [| y l' Hnotin _]; subst.
  apply Hnotin. left. reflexivity.
Qed.

(** [extend_to_root] on the hierarchy of [Spine] in the glove scene. *)
Lemma extend_to_root_on_the_Spine_hierarchy :
  full_path Examples.glove_host "|Root|Spine" = Some "|Root|Spine" /\
  exists root_jnt,
    _get_root_joint Examples.glove_host 10 "|Root|Spine" = Ok root_jnt /\
    ((In root_jnt ["|Root|Spine"; "|Root|Spine|Arm"; "|Root|Spine|Arm|Hand"] /\
      ["|Root"; "|Root|Spine"; "|Root|Spine"; "|Root|Spine|Arm"; "|Root|Spine|Arm|Hand"]
      = ["|Root|Spine"; "|Root|Spine|Arm"; "|Root|Spine|Arm|Hand"]) \/
     (~ In root_jnt ["|Root|Spine"; "|Root|Spine|Arm"; "|Root|Spine|Arm|Hand"] /\
      exists chain,
        _get_joint_list Examples.glove_host 10 root_jnt "|Root|Spine" = Ok chain /\
        ["|Root"; "|Root|Spine"; "|Root|Spine"; "|Root|Spine|Arm"; "|Root|Spine|Arm|Hand"]
        = chain ++ ["|Root|Spine"; "|Root|Spine|Arm"; "|Root|Spine|Arm|Hand"] /\
        (chain <> [] ->
         exists root_path before,
           full_path Examples.glove_host root_jnt = Some root_path /\
           chain = before ++ ["|Root|Spine"] /\
           hd_error
             ["|Root"; "|Root|Spine"; "|Root|Spine"; "|Root|Spine|Arm"; "|Root|Spine|Arm|Hand"]
           = Some root_path /\
           ["|Root"; "|Root|Spine"; "|Root|Spine"; "|Root|Spine|Arm"; "|Root|Spine|Arm|Hand"]
           = before ++ "|Root|Spine" :: "|Root|Spine"
                       :: ["|Root|Spine|Arm"; "|Root|Spine|Arm|Hand"]))).
Proof.
  split; [reflexivity |].
  apply (extend_to_root_puts_the_whole_chain_in_front Examples.glove_host 10
           "|Root|Spine" ["|Root|Spine|Arm"; "|Root|Spine|Arm|Hand"]
           ["|Root"; "|Root|Spine"; "|Root|Spine"; "|Root|Spine|Arm"; "|Root|Spine|Arm|Hand"]).
  - reflexivity.
  - reflexivity.
Defined.

(** On the host whose answers disagree the chain from [|A] to [|B] raises
    and the pass ends with an exception. *)
Lemma C7_broken_host_aborts :
  exits_hierarchy Examples.broken_host "|A" 0 "|B" /\
  _get_joint_list Examples.broken_host 5 "|A" "|B"
  = Raise (PyException "Found root joint while searching for start joint") /\
  exists e,
    _export_skeletal_mesh_partitions (fun _ => Examples.broken_host) 5
      Examples.settings_ok Examples.export_ok ["|A"]
      (Examples.export_data_of Examples.broken_partitions)
      Examples.conditioned_file (Examples.session_on [])
    = (Raise e, Examples.session_on []).
Proof.
  assert (Hexit : exits_hierarchy Examples.broken_host "|A" 0 "|B").
  { apply exits_here; [discriminate | reflexivity]. }
  split; [exact Hexit |].
  destruct (C7_leaving_the_hierarchy_aborts_the_pass (fun _ => Examples.broken_host) 5
              Examples.settings_ok Examples.export_ok
              Examples.broken_host 0 "|A" "|B" "|A" "|B"
              eq_refl eq_refl (or_introl eq_refl) Hexit (le_n_S 0 4 (Nat.le_0_l 4)))
    as [Hchain Hpass].
  split; [exact Hchain |].
  apply (Hpass ["|A"] (Examples.export_data_of Examples.broken_partitions)
           Examples.conditioned_file (Examples.session_on [])
           "Part" {| enabled := true; skeletal_meshes := Some ["|M"] |}
           ["|M"] "|M" ["|B"]).
  - reflexivity.
  - left. reflexivity.
  - reflexivity.
  - reflexivity.
  - left. reflexivity.
  - reflexivity.
  - left. reflexivity.
  - left. reflexivity.
  - discriminate.
Defined.

(** The partition [Glove] without mesh list stops the pass on the glove
    scene. *)
Lemma C10_Glove_without_mesh_list :
  plan_partition (scene_host Examples.glove_skin Examples.glove_scene) 10 ["Root"] []
    ("Glove", {| enabled := true; skeletal_meshes := None |})
  = Raise (TypeError "'NoneType' object is not iterable") /\
  _export_skeletal_mesh_partitions (scene_host Examples.glove_skin) 10
    Examples.settings_ok Examples.export_ok ["Root"]
    (Examples.export_data_of [("Glove", {| enabled := true; skeletal_meshes := None |})])
    Examples.conditioned_file (Examples.session_on Examples.glove_scene)
  = (Raise (TypeError "'NoneType' object is not iterable"),
     Examples.session_on Examples.glove_scene).
Proof.
  apply (C10_missing_mesh_list_aborts_the_pass (scene_host Examples.glove_skin) 10
           Examples.settings_ok Examples.export_ok ["Root"]
           (Examples.export_data_of [("Glove", {| enabled := true; skeletal_meshes := None |})])
           Examples.conditioned_file (Examples.session_on Examples.glove_scene)
           [] "Glove" {| enabled := true; skeletal_meshes := None |} [] []).
  - reflexivity.
  - reflexivity.
  - reflexivity.
  - reflexivity.
Defined.

(* ================================================================== *)
(** * Commands: what they keep *)
(* ================================================================== *)

Lemma preserves_ret (Q : Session -> Prop) {A} (a : A) : preserves Q (ret a).
Proof. intros s r s' HQ Hrun. inversion Hrun; subst. exact HQ. Qed.

Lemma preserves_lift (Q : Session -> Prop) {A} (x : Result A) : preserves Q (lift x).
Proof. intros s r s' HQ Hrun. inversion Hrun; subst. exact HQ. Qed.

Lemma preserves_cmds_error (Q : Session -> Prop) {A} (msg : string) :
  preserves Q (@cmds_error A msg).
Proof. intros s r s' HQ Hrun. inversion Hrun; subst. exact HQ. Qed.

Lemma preserves_cbind (Q : Session -> Prop) {A B} (c : Cmd A) (k : A -> Cmd B) :
  preserves Q c -> (forall a, preserves Q (k a)) -> preserves Q (cbind c k).
Proof.
  intros Hc Hk s r s' HQ Hrun. unfold cbind in Hrun.
  destruct (c s) as [[a | e |] s1] eqn:Hcs.
  - exact (Hk a s1 r s' (Hc s _ s1 HQ Hcs) Hrun).
  - inversion Hrun; subst. exact (Hc s _ s' HQ Hcs).
  - inversion Hrun; subst. exact (Hc s _ s' HQ Hcs).
Qed.

Lemma preserves_try_except (Q : Session -> Prop) {A} (body : Cmd A) (handler : exn -> Cmd A) :
  preserves Q body -> (forall e, preserves Q (handler e)) ->
  preserves Q (try_except body handler).
Proof.
  intros Hb Hh s r s' HQ Hrun. unfold try_except in Hrun.
  destruct (body s) as [[a | e |] s1] eqn:Hbs.
  - inversion Hrun; subst. exact (Hb s _ s' HQ Hbs).
  - exact (Hh e s1 r s' (Hb s _ s1 HQ Hbs) Hrun).
  - inversion Hrun; subst. exact (Hb s _ s' HQ Hbs).
Qed.

Lemma preserves_cfor (Q : Session -> Prop) {A} (body : A -> Cmd unit) :
  forall l, (forall x, In x l -> preserves Q (body x)) -> preserves Q (cfor body l).
Proof.
  induction l as [| x l IH]; intros Hbody; simpl.
  - apply preserves_ret.
  - apply preserves_cbind.
    + apply Hbody. left. reflexivity.
    + intros _. apply IH. intros y Hy. apply Hbody. right. exact Hy.
Qed.

Lemma cfor_app {A} (body : A -> Cmd unit) :
  forall l1 l2 s,
    cfor body (l1 ++ l2) s
    = match cfor body l1 s with
      | (Ok _, s1) => cfor body l2 s1
      | other => other
      end.
Proof.
  induction l1 as [| x l1 IH]; intros l2 s; simpl.
  - reflexivity.
  - unfold cbind. destruct (body x s) as [[[] | e |] s1]; [apply IH | reflexivity | reflexivity].
Qed.

(** Commands that read the scene or write elsewhere keep the scene. *)
Lemma print_scene (line : string) (s : Session) :
  print line s = (Ok tt, {| scene := scene s; files := files s;
                            exported := exported s; console := console s ++ [line] |}).
Proof. reflexivity. Qed.

Lemma cmds_select_unchanged (names : list string) (s : Session) :
  forall r s', cmds_select names s = (r, s') -> s' = s.
Proof.
  intros r s' Hrun. unfold cmds_select, cbind, get_scene in Hrun.
  destruct (forallb _ names); inversion Hrun; reflexivity.
Qed.

Section ExporterFacts.

Variable pfbx_settings : ExportData -> Outcome unit.
Variable pfbx_FBXExport : string -> list string -> Scene -> Outcome unit.

(** An attempt that raises has changed nothing: the export is recorded
    last. *)
Lemma export_attempt_Raise :
  forall export_data export_path partition_joints partition_meshes s e s',
    export_attempt pfbx_settings pfbx_FBXExport export_data export_path
      partition_joints partition_meshes s = (Raise e, s') ->
    s' = s.
Proof.
  intros export_data export_path partition_joints partition_meshes s e s' Hrun.
  unfold export_attempt, cbind, lift, get_scene in Hrun.
  destruct (call (pfbx_settings export_data)) as [[] | e0 |];
    [| inversion Hrun; reflexivity | inversion Hrun].
  destruct partition_meshes as [pm |]; [| inversion Hrun; reflexivity].
  destruct (cmds_select (partition_joints ++ pm) s) as [[[] | e1 |] s1] eqn:Hsel.
  - apply cmds_select_unchanged in Hsel. subst s1.
    destruct (call (pfbx_FBXExport export_path (partition_joints ++ pm) (scene s)))
      as [[] | e2 |]; inversion Hrun; reflexivity.
  - apply cmds_select_unchanged in Hsel. inversion Hrun; subst. reflexivity.
  - inversion Hrun.
Qed.

(** The export step keeps the open scene and the files. *)
Lemma export_partition_keeps :
  forall (P : Scene -> list (string * Scene) -> Prop)
         export_data partition_name partition_joints partition_meshes,
    preserves (fun s => P (scene s) (files s))
      (export_partition pfbx_settings pfbx_FBXExport export_data partition_name
         partition_joints partition_meshes).
Proof.
  intros P export_data partition_name partition_joints partition_meshes.
  unfold export_partition.
  apply preserves_cbind.
  - intros s r s' HQ Hrun. inversion Hrun; subst. exact HQ.
  - intros _. apply preserves_try_except.
    + unfold export_attempt.
      apply preserves_cbind; [apply preserves_lift | intros _].
      apply preserves_cbind; [apply preserves_lift | intros selection].
      apply preserves_cbind.
      * intros s r s' HQ Hrun. apply cmds_select_unchanged in Hrun. subst. exact HQ.
      * intros _. apply preserves_cbind.
        -- intros s r s' HQ Hrun. inversion Hrun; subst. exact HQ.
        -- intros sc. apply preserves_cbind; [apply preserves_lift | intros _].
           intros s r s' HQ Hrun. inversion Hrun; subst. exact HQ.
    + intros e. apply preserves_cmds_error.
Qed.

End ExporterFacts.

(* ================================================================== *)
(** * PartitionExecutor: deletions, reload, export failure *)
(* ================================================================== *)

Lemma Kind_eqb_eq (a b : Kind) : Kind_eqb a b = true -> a = b.
Proof. destruct a, b; simpl; intros H; try reflexivity; discriminate. Qed.

Lemma cmds_delete_keeps_survivors :
  forall snapshot pm pj p,
    excluded snapshot pm pj p ->
    preserves (fun s => survivors_kept snapshot pm pj (scene s)) (cmds_delete p).
Proof.
  intros snapshot pm pj p Hex s r s' [Hincl Hkeep] Hrun.
  unfold cmds_delete, cbind, get_scene in Hrun.
  destruct (node_exists (scene s) p).
  - inversion Hrun; subst; simpl. split.
    + intros x Hx. apply filter_In in Hx. apply Hincl. exact (proj1 Hx).
    + intros m Hm Hout. apply filter_In. split.
      * exact (Hkeep m Hm Hout).
      * rewrite (Hout p Hex). reflexivity.
  - inversion Hrun; subst. split; assumption.
Qed.

Lemma delete_meshes_keeps_survivors :
  forall snapshot pm pj,
    preserves (fun s => survivors_kept snapshot pm pj (scene s)) (delete_meshes (Some pm)).
Proof.
  intros snapshot pm pj s r s' HQ Hrun.
  unfold delete_meshes, cbind, get_scene in Hrun.
  refine (preserves_cfor (fun t => survivors_kept snapshot pm pj (scene t)) _ _ _
            s r s' HQ Hrun).
  intros x Hx. destruct (mem x pm) eqn:Hmem; simpl.
  - apply preserves_ret.
  - apply cmds_delete_keeps_survivors.
    unfold _get_all_mesh_dag_objects in Hx.
    apply in_map_iff in Hx as [n [Hpath Hn]]. apply filter_In in Hn as [Hn Hkind].
    exists n. split; [exact (proj1 HQ n Hn) |]. split; [exact Hpath |].
    left. split; [exact (Kind_eqb_eq _ _ Hkind) | exact Hmem].
Qed.

Lemma delete_joints_keeps_survivors :
  forall snapshot pm pj,
    preserves (fun s => survivors_kept snapshot pm pj (scene s)) (delete_joints pj).
Proof.
  intros snapshot pm pj s r s' HQ Hrun.
  unfold delete_joints, cbind, get_scene in Hrun.
  refine (preserves_cfor (fun t => survivors_kept snapshot pm pj (scene t)) _ _ _
            s r s' HQ Hrun).
  intros x Hx. destruct (mem x pj) eqn:Hmem; simpl.
  - apply preserves_ret.
  - apply cmds_delete_keeps_survivors.
    apply in_rev in Hx. unfold _get_all_joint_dag_objects in Hx.
    apply in_map_iff in Hx as [n [Hpath Hn]]. apply filter_In in Hn as [Hn Hkind].
    exists n. split; [exact (proj1 HQ n Hn) |]. split; [exact Hpath |].
    right. split; [exact (Kind_eqb_eq _ _ Hkind) | exact Hmem].
Qed.

Lemma cmds_delete_keeps_files (P : list (string * Scene) -> Prop) (p : string) :
  preserves (fun s => P (files s)) (cmds_delete p).
Proof.
  intros s r s' HQ Hrun. unfold cmds_delete, cbind, get_scene in Hrun.
  destruct (node_exists (scene s) p); inversion Hrun; subst; exact HQ.
Qed.

Lemma delete_meshes_keeps_files (P : list (string * Scene) -> Prop) partition_meshes :
  preserves (fun s => P (files s)) (delete_meshes partition_meshes).
Proof.
  unfold delete_meshes. apply preserves_cbind.
  - intros s r s' HQ Hrun. inversion Hrun; subst. exact HQ.
  - intros sc. apply preserves_cfor. intros x _.
    destruct partition_meshes as [pm |]; [| apply preserves_lift].
    destruct (negb (mem x pm)); [apply cmds_delete_keeps_files | apply preserves_ret].
Qed.

Lemma delete_joints_keeps_files (P : list (string * Scene) -> Prop) partition_joints :
  preserves (fun s => P (files s)) (delete_joints partition_joints).
Proof.
  unfold delete_joints. apply preserves_cbind.
  - intros s r s' HQ Hrun. inversion Hrun; subst. exact HQ.
  - intros sc. apply preserves_cfor. intros x _.
    destruct (negb (mem x partition_joints));
      [apply cmds_delete_keeps_files | apply preserves_ret].
Qed.

Lemma cmds_file_open_stored (scene_path : string) (s : Session) (snapshot : Scene) :
  stored s scene_path = Some snapshot ->
  cmds_file_open scene_path s = (Ok tt, with_scene snapshot s).
Proof.
  unfold stored, cmds_file_open. intros Hstored.
  destruct (find (fun kv => String.eqb (fst kv) scene_path) (files s)) as [kv |];
    simpl in Hstored; [| discriminate].
  inversion Hstored; subst. reflexivity.
Qed.

Lemma cmds_file_open_keeps_files (P : list (string * Scene) -> Prop) (scene_path : string) :
  preserves (fun s => P (files s)) (cmds_file_open scene_path).
Proof.
  intros s r s' HQ Hrun. unfold cmds_file_open in Hrun.
  destruct (find (fun kv => String.eqb (fst kv) scene_path) (files s)) as [kv |];
    inversion Hrun; subst; exact HQ.
Qed.

Section ExecutorFacts.

Variable pfbx_settings : ExportData -> Outcome unit.
Variable pfbx_FBXExport : string -> list string -> Scene -> Outcome unit.

Lemma prune_and_export_keeps_files (P : list (string * Scene) -> Prop) :
  forall export_data partition_name partition_joints partition_meshes,
    preserves (fun s => P (files s))
      (prune_and_export pfbx_settings pfbx_FBXExport export_data partition_name
         partition_joints partition_meshes).
Proof.
  intros export_data partition_name partition_joints partition_meshes.
  unfold prune_and_export.
  apply preserves_cbind; [apply delete_meshes_keeps_files | intros _].
  apply preserves_cbind; [apply delete_joints_keeps_files | intros _].
  apply (export_partition_keeps pfbx_settings pfbx_FBXExport (fun _ f => P f)).
Qed.

Lemma execute_partition_keeps_files (P : list (string * Scene) -> Prop) :
  forall export_data scene_path entry,
    preserves (fun s => P (files s))
      (execute_partition pfbx_settings pfbx_FBXExport export_data scene_path entry).
Proof.
  intros export_data scene_path [partition_name [plan |]]; unfold execute_partition.
  - apply preserves_cbind; [apply preserves_lift | intros partition_meshes].
    apply preserves_cbind; [apply cmds_file_open_keeps_files | intros _].
    apply prune_and_export_keeps_files.
  - intros s r s' HQ Hrun. inversion Hrun; subst. exact HQ.
Qed.

(** C6, as the code has it.  The partition is run from the snapshot stored
    at [scene_path].  Whatever the outcome, a node of the snapshot, and so a
    member of the plan's hierarchy or of the mesh set, is still in the scene
    afterwards when it neither is nor lies below a node the two loops delete
    by name: a mesh that is not in the mesh set, a joint that is not in the
    hierarchy. *)
Theorem C6_deletions_spare_nodes_outside_excluded_subtrees :
  forall export_data scene_path name plan pm snapshot s r s' m,
    stored s scene_path = Some snapshot ->
    partition_meshes_of export_data name = Ok (Some pm) ->
    execute_partition pfbx_settings pfbx_FBXExport export_data scene_path
      (name, Some plan) s = (r, s') ->
    In m snapshot ->
    outside_excluded snapshot pm (hierarchy plan) m ->
    In m (scene s').
Proof.
  intros export_data scene_path name plan pm snapshot s r s' m
    Hstored Hpm Hrun Hm Hout.
  unfold execute_partition, cbind at 1, lift in Hrun. rewrite Hpm in Hrun.
  unfold cbind at 1 in Hrun.
  rewrite (cmds_file_open_stored _ _ _ Hstored) in Hrun.
  assert (Hpres : preserves (fun t => survivors_kept snapshot pm (hierarchy plan) (scene t))
                    (prune_and_export pfbx_settings pfbx_FBXExport export_data name
                       (hierarchy plan) (Some pm))).
  { unfold prune_and_export.
    apply (preserves_cbind (fun t => survivors_kept snapshot pm (hierarchy plan) (scene t)));
      [apply delete_meshes_keeps_survivors | intros _].
    apply (preserves_cbind (fun t => survivors_kept snapshot pm (hierarchy plan) (scene t)));
      [apply delete_joints_keeps_survivors | intros _].
    apply (export_partition_keeps pfbx_settings pfbx_FBXExport
             (fun sc _ => survivors_kept snapshot pm (hierarchy plan) sc)). }
  assert (Hstart : survivors_kept snapshot pm (hierarchy plan)
                     (scene (with_scene snapshot s))).
  { simpl. split; [apply incl_refl | intros x Hx _; exact Hx]. }
  exact (proj2 (Hpres (with_scene snapshot s) r s' Hstart Hrun) m Hm Hout).
Qed.

(** C5.  Whatever partition [A] did to the open scene, and however it
    ended, the snapshot stored at [scene_path] is as it was, and partition
    [B] is run on it: executing [B] in the session left by [A] is pruning
    and exporting [B] with the snapshot as the open scene.  So in a run of
    [A] then [B] the scene [B] deletes from holds every node of the
    snapshot, those deleted for [A] too. *)
Theorem C5_each_partition_is_run_on_the_snapshot :
  forall export_data scene_path A planA B planB pmB snapshot s rA sA,
    stored s scene_path = Some snapshot ->
    partition_meshes_of export_data B = Ok pmB ->
    execute_partition pfbx_settings pfbx_FBXExport export_data scene_path
      (A, Some planA) s = (rA, sA) ->
    stored sA scene_path = Some snapshot /\
    execute_partition pfbx_settings pfbx_FBXExport export_data scene_path
      (B, Some planB) sA
    = prune_and_export pfbx_settings pfbx_FBXExport export_data B (hierarchy planB) pmB
        (with_scene snapshot sA) /\
    (rA = Ok tt ->
     execute_partitions pfbx_settings pfbx_FBXExport export_data scene_path
       [(A, Some planA); (B, Some planB)] s
     = prune_and_export pfbx_settings pfbx_FBXExport export_data B (hierarchy planB) pmB
         (with_scene snapshot sA)).
Proof.
  intros export_data scene_path A planA B planB pmB snapshot s rA sA Hstored HpmB HrunA.
  assert (HstoredA : stored sA scene_path = Some snapshot).
  { unfold stored in *.
    exact (execute_partition_keeps_files
             (fun f => option_map snd (find (fun kv => String.eqb (fst kv) scene_path) f)
                       = Some snapshot)
             export_data scene_path (A, Some planA) s rA sA Hstored HrunA). }
  assert (HrunB :
    execute_partition pfbx_settings pfbx_FBXExport export_data scene_path
      (B, Some planB) sA
    = prune_and_export pfbx_settings pfbx_FBXExport export_data B (hierarchy planB) pmB
        (with_scene snapshot sA)).
  { unfold execute_partition, cbind at 1, lift. rewrite HpmB.
    unfold cbind at 1. rewrite (cmds_file_open_stored _ _ _ HstoredA). reflexivity. }
  split; [exact HstoredA |]. split; [exact HrunB |].
  intros HOk. subst rA.
  unfold execute_partitions. cbn [cfor]. unfold cbind at 1. rewrite HrunA.
  unfold cbind at 1. rewrite HrunB.
  destruct (prune_and_export pfbx_settings pfbx_FBXExport export_data B
              (hierarchy planB) pmB (with_scene snapshot sA)) as [[[] | e |] s2];
    reflexivity.
Qed.

(** C2, as the code has it.  When the partitions before [name] went
    through, its scene was loaded and pruned, and the attempt to export it
    raises, the exception is caught and reported by [cmds.error] with the
    name of the partition; [cmds.error] raises in turn, so the loop ends
    there with [RuntimeError]: nothing is exported for [name] nor for the
    partitions after it, and the session is the one the failed attempt
    started in. *)
Theorem C2_export_failure_is_reported_and_ends_the_run :
  forall export_data scene_path done name plan rest pm s s1 s2 e s3,
    execute_partitions pfbx_settings pfbx_FBXExport export_data scene_path done s
    = (Ok tt, s1) ->
    partition_meshes_of export_data name = Ok pm ->
    (cmds_file_open scene_path ;;; delete_meshes pm ;;; delete_joints (hierarchy plan) ;;;
     print (export_path_of export_data name)) s1 = (Ok tt, s2) ->
    export_attempt pfbx_settings pfbx_FBXExport export_data
      (export_path_of export_data name) (hierarchy plan) pm s2 = (Raise e, s3) ->
    execute_partitions pfbx_settings pfbx_FBXExport export_data scene_path
      (done ++ (name, Some plan) :: rest) s
    = (Raise (RuntimeError (export_error_message name)), s2) /\
    exported s2 = exported s1.
Proof.
  intros export_data scene_path done name plan rest pm s s1 s2 e s3
    Hdone Hpm Hprune Hattempt.
  pose proof (export_attempt_Raise _ _ _ _ _ _ _ _ _ Hattempt) as Hsame. subst s3.
  split.
  - unfold execute_partitions in *. rewrite cfor_app, Hdone.
    cbn [cfor]. unfold cbind at 1.
    unfold execute_partition, cbind at 1, lift. rewrite Hpm.
    unfold prune_and_export, export_partition.
    unfold cbind in Hprune |- *.
    destruct (cmds_file_open scene_path s1) as [[[] | e1 |] t1]; try discriminate.
    destruct (delete_meshes pm t1) as [[[] | e2 |] t2]; try discriminate.
    destruct (delete_joints (hierarchy plan) t2) as [[[] | e3 |] t3]; try discriminate.
    destruct (print (export_path_of export_data name) t3) as [[[] | e4 |] t4];
      try discriminate.
    inversion Hprune; subst t4.
    unfold try_except. rewrite Hattempt. reflexivity.
  - assert (Hpres : preserves (fun t => exported t = exported s1)
                      (cmds_file_open scene_path ;;; delete_meshes pm ;;;
                       delete_joints (hierarchy plan) ;;;
                       print (export_path_of export_data name)));
      [| exact (Hpres s1 (Ok tt) s2 eq_refl Hprune)].
    apply (preserves_cbind (fun t => exported t = exported s1)).
    { intros t r t' HQ Hrun. unfold cmds_file_open in Hrun.
      destruct (find _ (files t)); inversion Hrun; subst; exact HQ. }
    intros _. apply (preserves_cbind (fun t => exported t = exported s1)).
    { unfold delete_meshes. apply preserves_cbind.
      - intros t r t' HQ Hrun. inversion Hrun; subst. exact HQ.
      - intros sc. apply preserves_cfor. intros x _.
        destruct pm as [pm |]; [| apply preserves_lift].
        destruct (negb (mem x pm)); [| apply preserves_ret].
        intros t r t' HQ Hrun. unfold cmds_delete, cbind, get_scene in Hrun.
        destruct (node_exists (scene t) x); inversion Hrun; subst; exact HQ. }
    intros _. apply (preserves_cbind (fun t => exported t = exported s1)).
    { unfold delete_joints. apply preserves_cbind.
      - intros t r t' HQ Hrun. inversion Hrun; subst. exact HQ.
      - intros sc. apply preserves_cfor. intros x _.
        destruct (negb (mem x (hierarchy plan))); [| apply preserves_ret].
        intros t r t' HQ Hrun. unfold cmds_delete, cbind, get_scene in Hrun.
        destruct (node_exists (scene t) x); inversion Hrun; subst; exact HQ. }
    intros _. intros t r t' HQ Hrun. inversion Hrun; subst. exact HQ.
Qed.

End ExecutorFacts.

(* ================================================================== *)
(** * The executor on the example scenes *)
(* ================================================================== *)

(** The mesh [|Body|Glove] is in the mesh set of the partition [Glove] and
    in the snapshot; the plan is the one the planner computes.  [|Body] is a
    mesh outside the mesh set: deleting it takes [|Body|Glove] away. *)
Lemma C6_Glove_goes_with_Body :
  plan_partitions (scene_host Examples.nested_skin Examples.nested_scene) 10 ["Root"]
    (partitions Examples.nested_export_data)
  = Ok [("Glove", Some {| root := "Root"; hierarchy := ["|Root"; "|Root|Hand"] |})] /\
  partition_meshes_of Examples.nested_export_data "Glove" = Ok (Some ["|Body|Glove"]) /\
  In {| path := "|Body|Glove"; kind := Mesh |} Examples.nested_scene /\
  node_exists
    (scene (snd (_export_skeletal_mesh_partitions (scene_host Examples.nested_skin) 10
                   Examples.settings_ok Examples.export_ok ["Root"]
                   Examples.nested_export_data Examples.conditioned_file
                   (Examples.session_on Examples.nested_scene))))
    "|Body|Glove" = false /\
  node_exists
    (scene (snd (execute_partition Examples.settings_ok Examples.export_ok
                   Examples.nested_export_data Examples.conditioned_file
                   ("Glove", Some {| root := "Root"; hierarchy := ["|Root"; "|Root|Hand"] |})
                   (Examples.session_on Examples.nested_scene))))
    "|Body|Glove" = false.
Proof.
  split; [reflexivity |]. split; [reflexivity |].
  split; [right; right; left; reflexivity |].
  split; reflexivity.
Qed.

(** In the outfit scene no node to keep for [Glove] is below a deleted one:
    [|Root|Hand] is still there after the partition was executed. *)
Lemma C6_Hand_stays_for_Glove :
  stored (Examples.session_on Examples.outfit_scene) Examples.conditioned_file
  = Some Examples.outfit_scene /\
  outside_excluded Examples.outfit_scene ["|Glove"] (hierarchy Examples.glove_plan)
    {| path := "|Root|Hand"; kind := Joint |} /\
  In {| path := "|Root|Hand"; kind := Joint |} (scene (snd Examples.after_glove)).
Proof.
  assert (Hout : outside_excluded Examples.outfit_scene ["|Glove"]
                   (hierarchy Examples.glove_plan)
                   {| path := "|Root|Hand"; kind := Joint |}).
  { intros d [n [Hin [Hpath Hkind]]]. subst d.
    simpl in Hin.
    destruct Hin as [<- | [<- | [<- | [<- | [<- | []]]]]]; simpl in Hkind;
      destruct Hkind as [[Hk Hmem] | [Hk Hmem]]; try discriminate; reflexivity. }
  split; [reflexivity |]. split; [exact Hout |].
  apply (C6_deletions_spare_nodes_outside_excluded_subtrees
           Examples.settings_ok Examples.export_ok
           Examples.outfit_export_data Examples.conditioned_file
           "Glove" Examples.glove_plan ["|Glove"] Examples.outfit_scene
           (Examples.session_on Examples.outfit_scene)
           (fst Examples.after_glove) (snd Examples.after_glove)
           {| path := "|Root|Hand"; kind := Joint |}).
  - reflexivity.
  - reflexivity.
  - reflexivity.
  - right. right. right. left. reflexivity.
  - exact Hout.
Defined.

(** [Boot] after [Glove]: the mesh [|Boot], deleted for [Glove], is in the
    scene [Boot] is pruned from. *)
Lemma C5_Boot_after_Glove :
  node_exists (scene (snd Examples.after_glove)) "|Boot" = false /\
  stored (snd Examples.after_glove) Examples.conditioned_file = Some Examples.outfit_scene /\
  execute_partition Examples.settings_ok Examples.export_ok Examples.outfit_export_data
    Examples.conditioned_file ("Boot", Some Examples.boot_plan) (snd Examples.after_glove)
  = prune_and_export Examples.settings_ok Examples.export_ok Examples.outfit_export_data
      "Boot" (hierarchy Examples.boot_plan) (Some ["|Boot"])
      (with_scene Examples.outfit_scene (snd Examples.after_glove)) /\
  (fst Examples.after_glove = Ok tt ->
   execute_partitions Examples.settings_ok Examples.export_ok Examples.outfit_export_data
     Examples.conditioned_file
     [("Glove", Some Examples.glove_plan); ("Boot", Some Examples.boot_plan)]
     (Examples.session_on Examples.outfit_scene)
   = prune_and_export Examples.settings_ok Examples.export_ok Examples.outfit_export_data
       "Boot" (hierarchy Examples.boot_plan) (Some ["|Boot"])
       (with_scene Examples.outfit_scene (snd Examples.after_glove))).
Proof.
  split; [reflexivity |].
  apply (C5_each_partition_is_run_on_the_snapshot
           Examples.settings_ok Examples.export_ok
           Examples.outfit_export_data Examples.conditioned_file
           "Glove" Examples.glove_plan "Boot" Examples.boot_plan (Some ["|Boot"])
           Examples.outfit_scene (Examples.session_on Examples.outfit_scene)
           (fst Examples.after_glove) (snd Examples.after_glove)).
  - reflexivity.
  - reflexivity.
  - reflexivity.
Defined.

(** The exporter fails on the file of [Glove] and would succeed on the one
    of [Boot].  The run ends with the [RuntimeError] of [cmds.error]; [Boot]
    is not exported, though alone it is. *)
Lemma C2_Boot_is_not_exported_after_Glove_failed :
  _export_skeletal_mesh_partitions (scene_host Examples.outfit_skin) 10
    Examples.settings_ok (Examples.export_fails_on "out/char_Glove.fbx") ["Root"]
    Examples.outfit_export_data Examples.conditioned_file
    (Examples.session_on Examples.outfit_scene)
  = (Raise (RuntimeError "Something wrong happened while export Partition Glove"),
     Examples.glove_pruned) /\
  exported Examples.glove_pruned = [] /\
  exported
    (snd (_export_skeletal_mesh_partitions (scene_host Examples.outfit_skin) 10
            Examples.settings_ok (Examples.export_fails_on "out/char_Glove.fbx") ["Root"]
            (Examples.export_data_of
               [("Boot", {| enabled := true; skeletal_meshes := Some ["|Boot"] |})])
            Examples.conditioned_file (Examples.session_on Examples.outfit_scene)))
  = [("out/char_Boot.fbx", ["|Root"; "|Root|Foot"; "|Boot"])].
Proof.
  split; [reflexivity |]. split; reflexivity.
Qed.

Lemma C2_Glove_failure_ends_the_run :
  export_attempt Examples.settings_ok (Examples.export_fails_on "out/char_Glove.fbx")
    Examples.outfit_export_data (export_path_of Examples.outfit_export_data "Glove")
    (hierarchy Examples.glove_plan) (Some ["|Glove"]) Examples.glove_pruned
  = (Raise (RuntimeError "FBX export failed"), Examples.glove_pruned) /\
  execute_partitions Examples.settings_ok (Examples.export_fails_on "out/char_Glove.fbx")
    Examples.outfit_export_data Examples.conditioned_file
    ([] ++ ("Glove", Some Examples.glove_plan) :: [("Boot", Some Examples.boot_plan)])
    (Examples.session_on Examples.outfit_scene)
  = (Raise (RuntimeError (export_error_message "Glove")), Examples.glove_pruned) /\
  exported Examples.glove_pruned = exported (Examples.session_on Examples.outfit_scene).
Proof.
  split; [reflexivity |].
  apply (C2_export_failure_is_reported_and_ends_the_run
           Examples.settings_ok (Examples.export_fails_on "out/char_Glove.fbx")
           Examples.outfit_export_data Examples.conditioned_file
           [] "Glove" Examples.glove_plan [("Boot", Some Examples.boot_plan)]
           (Some ["|Glove"])
           (Examples.session_on Examples.outfit_scene)
           (Examples.session_on Examples.outfit_scene)
           Examples.glove_pruned (RuntimeError "FBX export failed") Examples.glove_pruned).
  - reflexivity.
  - reflexivity.
  - reflexivity.
  - reflexivity.
Defined.

(* ================================================================== *)
(** * HierarchyCleaner: resolution misses *)
(* ================================================================== *)

Lemma list_remove_not_In (x : string) :
  forall l, ~ In x l -> list_remove x l = Raise (ValueError "list.remove(x): x not in list").
Proof.
  induction l as [| y l IH]; intros Hnot; simpl.
  - reflexivity.
  - destruct (String.eqb y x) eqn:Hyx.
    + apply String.eqb_eq in Hyx. exfalso. apply Hnot. left. exact Hyx.
    + rewrite IH; [reflexivity |]. intros Hin. apply Hnot. right. exact Hin.
Qed.

Lemma list_remove_Ok_incl (x : string) :
  forall l l', list_remove x l = Ok l' -> incl l' l.
Proof.
  induction l as [| y l IH]; intros l' Hrun; simpl in Hrun.
  - discriminate.
  - destruct (String.eqb y x).
    + inversion Hrun; subst. apply incl_tl, incl_refl.
    + apply bind_Ok_inv in Hrun as [rest' [Hrest Hl']]. inversion Hl'; subst.
      intros z [-> | Hz]; [left; reflexivity | right; exact (IH _ Hrest z Hz)].
Qed.

Lemma list_remove_within_fuel (x : string) :
  forall l, list_remove x l <> OutOfFuel.
Proof.
  induction l as [| y l IH]; simpl.
  - discriminate.
  - destruct (String.eqb y x); [discriminate |].
    destruct (list_remove x l); simpl; [discriminate | discriminate | congruence].
Qed.

(** Removing the names of [xs] one after the other raises as soon as one of
    them is not in the list. *)
Lemma remove_all_raises :
  forall xs names x,
    In x xs -> ~ In x names ->
    exists e, for_each (fun names i_o => list_remove i_o names) xs names = Raise e.
Proof.
  induction xs as [| x0 xs IH]; intros names x Hin Hnot; [destruct Hin |].
  simpl. destruct (list_remove x0 names) as [names' | e |] eqn:Hrm; simpl.
  - destruct Hin as [-> | Hin].
    + rewrite (list_remove_not_In x names Hnot) in Hrm. discriminate.
    + apply (IH names' x Hin). intros Hx. apply Hnot.
      exact (list_remove_Ok_incl _ _ _ Hrm x Hx).
  - exists e. reflexivity.
  - exfalso. exact (list_remove_within_fuel _ _ Hrm).
Qed.

(** Where the call is under a [try], a name that is not found is passed
    over: [_get_joint_list] returns the empty chain. *)
Lemma unresolved_joint_gives_the_empty_chain :
  forall host fuel start end_,
    full_path host start = None \/ full_path host end_ = None ->
    _get_joint_list host fuel start end_ = Ok [].
Proof.
  intros host fuel start end_ Hmiss. unfold _get_joint_list.
  destruct (full_path host start) as [start_joint |]; [| reflexivity].
  destruct Hmiss as [Hs | He]; [discriminate |].
  rewrite He. reflexivity.
Qed.

(** A keep path that is not in the list of top-level objects leaves the
    list as it is, and a line [skipped] is printed. *)
Lemma missing_keep_path_is_skipped :
  forall obj_names i_o s,
    ~ In ("|" ++ i_o)%string obj_names ->
    remove_kept obj_names i_o s
    = (Ok obj_names,
       {| scene := scene s; files := files s; exported := exported s;
          console := console s ++ [("  skipped " ++ "|" ++ i_o)%string] |}).
Proof.
  intros obj_names i_o s Hnot. unfold remove_kept, try_except, lift.
  rewrite (list_remove_not_In _ _ Hnot). reflexivity.
Qed.

(** The test on [temp_sel.length()] comes after [temp_sel.add(name)]: when
    [add] raises, [_parent_to_root] raises, and so does the deletion of a
    stale hierarchy. *)
Lemma selection_miss_raises :
  forall maya cmds_parent_world name s e,
    sel_add (maya (scene s)) name = Raises e ->
    _parent_to_root maya cmds_parent_world name s = (Raise e, s) /\
    delete_hierarchy maya name s = (Raise e, s).
Proof.
  intros maya cmds_parent_world name s e Hsel.
  unfold _parent_to_root, delete_hierarchy, cbind, get_scene, lift.
  rewrite Hsel. split; reflexivity.
Qed.

(** The removal of the four ignored objects is not under a [try]: when one
    of them is not in the list of top-level objects,
    [_cleanup_stale_dag_hierarchies] raises and leaves the scene as it was. *)
Lemma missing_ignored_object_raises :
  forall maya ignore_objects s i_o,
    In i_o IGNORED_OBJECTS ->
    ~ In i_o (_get_dag_objects_under_scene_root (scene s)) ->
    exists e, _cleanup_stale_dag_hierarchies maya ignore_objects s = (Raise e, s).
Proof.
  intros maya ignore_objects s i_o Hin Hnot.
  destruct (remove_all_raises IGNORED_OBJECTS _ i_o Hin Hnot) as [e He].
  exists e. unfold _cleanup_stale_dag_hierarchies, cbind, get_scene, lift.
  rewrite He. reflexivity.
Qed.

(** C3.  The studio scene has the four default cameras, the joints [|Root]
    and [|Root|Hand] and a stale hierarchy [|Stale]; no node is named
    [Body].  With the geometry root [Body], [_parent_to_root] raises the
    [RuntimeError] of [temp_sel.add]: the scene cleaning of
    [perform_fbx_condition] ends there, after its first line was printed, and
    the stale hierarchy is still in the scene.  The same name is passed over
    where the call is guarded: as the end of a chain, and as a keep path of
    the cleanup, which prints [skipped] and goes on to delete [|Stale]. *)
Theorem C3_missing_keep_path_aborts_the_cleaning :
  matches Examples.studio_scene "Body" = [] /\
  _parent_to_root (scene_host []) Examples.parent_world_idle "Body"
    (Examples.session_on Examples.studio_scene)
  = (Raise (RuntimeError "(kInvalidParameter): Object does not exist"),
     Examples.session_on Examples.studio_scene) /\
  scene_clean (scene_host []) Examples.parent_world_idle "Root" ["Body"]
    (Examples.session_on Examples.studio_scene)
  = (Raise (RuntimeError "(kInvalidParameter): Object does not exist"),
     {| scene := Examples.studio_scene;
        files := [(Examples.conditioned_file, Examples.studio_scene)];
        exported := [];
        console := ["Cleaning Scene.."] |}) /\
  _get_joint_list (scene_host [] Examples.studio_scene) 3 "Root" "Body" = Ok [] /\
  (let after := _cleanup_stale_dag_hierarchies (scene_host []) ["Root"; "Body"]
                  (Examples.session_on Examples.studio_scene) in
   fst after = Ok tt /\
   console (snd after) = ["  skipped |Body"] /\
   map path (scene (snd after))
   = ["|persp"; "|top"; "|front"; "|side"; "|Root"; "|Root|Hand"]).
Proof.
  split; [reflexivity |]. split; [reflexivity |]. split; [reflexivity |].
  split; [reflexivity |]. split; [reflexivity |]. split; reflexivity.
Qed.

(** Without [|persp] under the world the cleanup raises [ValueError]: the
    glove scene holds no camera. *)
Example cleanup_raises_without_persp :
  _get_dag_objects_under_scene_root Examples.glove_scene = ["|Root"; "|Glove"] /\
  _cleanup_stale_dag_hierarchies (scene_host []) ["Root"; "Glove"]
    (Examples.session_on Examples.glove_scene)
  = (Raise (ValueError "list.remove(x): x not in list"),
     Examples.session_on Examples.glove_scene).
Proof. split; reflexivity. Qed.

(* ================================================================== *)
(** * NamespaceNormalizer: idempotence *)
(* ================================================================== *)

Lemma substring_whole (s : string) : String.substring 0 (String.length s) s = s.
Proof.
  induction s as [| c s IH]; simpl; [reflexivity | rewrite IH; reflexivity].
Qed.

Lemma slice_from_0 (name : string) : slice_from 0 name = name.
Proof. unfold slice_from. rewrite Nat.sub_0_r. apply substring_whole. Qed.

Lemma filter_all {A} (f : A -> bool) :
  forall l, (forall x, In x l -> f x = true) -> filter f l = l.
Proof.
  induction l as [| y l IH]; intros H; simpl; [reflexivity |].
  rewrite (H y (or_introl eq_refl)), IH; [reflexivity |].
  intros x Hx. apply H. right. exact Hx.
Qed.

(** On a list without repetition, [if x in l: l.remove(x)] filters [x] out. *)
Lemma remove_if_present (x : string) :
  forall l,
    NoDup l ->
    (if mem x l then remove_first x l else l)
    = filter (fun y => negb (String.eqb y x)) l.
Proof.
  induction l as [| y l IH]; intros Hnd; [reflexivity |].
  inversion Hnd as [| y' l' Hnotin Hnd']; subst.
  unfold mem in *. simpl. rewrite (String.eqb_sym x y).
  destruct (String.eqb y x) eqn:Hyx; simpl.
  - apply String.eqb_eq in Hyx. subst y. symmetry. apply filter_all.
    intros z Hz. destruct (String.eqb z x) eqn:Hzx; [| reflexivity].
    apply String.eqb_eq in Hzx. subst z. contradiction.
  - rewrite <- (IH Hnd'). destruct (existsb (String.eqb x) l); reflexivity.
Qed.

Lemma fold_left_fixed {A B} (f : A -> B -> A) :
  forall l a, (forall x, In x l -> f a x = a) -> fold_left f l a = a.
Proof.
  induction l as [| y l IH]; intros a H; simpl; [reflexivity |].
  rewrite (H y (or_introl eq_refl)). apply IH.
  intros x Hx. apply H. right. exact Hx.
Qed.

Section NamespaceFacts.

Variable DG : Type.
Variable MObject : Type.
Variable getNamespaces : DG -> list string.
Variable getNamespaces_recurse : DG -> string -> list string.
Variable getNamespaceObjects : DG -> string -> list MObject.
Variable dg_name : DG -> MObject -> string.
Variable dg_namespace : DG -> MObject -> string.
Variable setName : MObject -> string -> DG -> DG.

Local Abbreviation clean :=
  (_clean_namespaces DG MObject getNamespaces getNamespaces_recurse
     getNamespaceObjects dg_name dg_namespace setName).

(** With the reserved namespaces alone in the graph, none is left to go
    through. *)
Lemma no_namespace_to_strip :
  forall g,
    NoDup (getNamespaces g) ->
    incl (getNamespaces g) IGNORED_NAMESPACES ->
    _get_scene_namespaces DG getNamespaces g = [].
Proof.
  intros g Hnd Hincl. unfold _get_scene_namespaces, IGNORED_NAMESPACES. simpl.
  rewrite (remove_if_present ":UI" _ Hnd).
  rewrite (remove_if_present ":shared" _ (NoDup_filter _ Hnd)).
  rewrite (remove_if_present ":root" _ (NoDup_filter _ (NoDup_filter _ Hnd))).
  match goal with |- ?l = [] => destruct l as [| z rest] eqn:Hl end; [reflexivity |].
  exfalso.
  assert (Hz : In z (z :: rest)) by (left; reflexivity).
  rewrite <- Hl in Hz.
  apply filter_In in Hz as [Hz Hroot]. apply filter_In in Hz as [Hz Hshared].
  apply filter_In in Hz as [Hz HUI].
  apply Hincl in Hz. unfold IGNORED_NAMESPACES in Hz.
  destruct Hz as [<- | [<- | [<- | []]]]; discriminate.
Qed.

(** Where no namespace gone through holds a node, nothing is renamed. *)
Lemma clean_stripped :
  forall st,
    stripped DG MObject getNamespaces getNamespaces_recurse getNamespaceObjects (graph _ _ st) ->
    clean st = st.
Proof.
  intros st Hstripped. unfold _clean_namespaces.
  apply fold_left_fixed. intros ns Hns.
  destruct (Hstripped ns Hns) as [Hown Hchildren].
  unfold strip_namespace.
  assert (Hkids : fold_left
                    (strip_objects DG MObject getNamespaceObjects dg_name dg_namespace setName)
                    (getNamespaces_recurse (graph _ _ st) ns) st = st).
  { apply fold_left_fixed. intros chld_ns Hchld.
    unfold strip_objects. rewrite (Hchildren chld_ns Hchld). reflexivity. }
  rewrite Hkids. unfold strip_objects. rewrite Hown. reflexivity.
Qed.

Local Abbreviation scene_ns := (_get_scene_namespaces DG getNamespaces).
Local Abbreviation gone := (gone_through DG getNamespaces getNamespaces_recurse).
Local Abbreviation less := (shrinks DG MObject getNamespaces getNamespaces_recurse getNamespaceObjects).
Local Abbreviation remove1 := (_remove_namespace DG MObject dg_name dg_namespace setName).
Local Abbreviation strip1 :=
  (strip_objects DG MObject getNamespaceObjects dg_name dg_namespace setName).
Local Abbreviation strip_ns :=
  (strip_namespace DG MObject getNamespaces_recurse getNamespaceObjects
     dg_name dg_namespace setName).

Lemma shrinks_refl (g : DG) : less g g.
Proof. split; [reflexivity | split; [reflexivity | intros ns o _ H; exact H]]. Qed.

Lemma shrinks_scene_namespaces (g g' : DG) : less g g' -> scene_ns g' = scene_ns g.
Proof. intros [Hns _]. unfold _get_scene_namespaces. rewrite Hns. reflexivity. Qed.

Lemma shrinks_gone_through (g g' : DG) (ns : string) :
  less g g' -> gone g ns -> gone g' ns.
Proof.
  intros Hless Hgone. pose proof (shrinks_scene_namespaces g g' Hless) as Hscene.
  destruct Hless as [_ [Hrec _]].
  destruct Hgone as [Hin | [namespace [Hin Hchild]]].
  - left. rewrite Hscene. exact Hin.
  - right. exists namespace. rewrite Hscene, Hrec. split; assumption.
Qed.

Lemma shrinks_trans (g1 g2 g3 : DG) : less g1 g2 -> less g2 g3 -> less g1 g3.
Proof.
  intros H12 H23.
  pose proof (shrinks_gone_through g1 g2) as Hgone.
  destruct H12 as [Hns12 [Hrec12 Hobj12]], H23 as [Hns23 [Hrec23 Hobj23]].
  split; [congruence |]. split.
  - intros ns. rewrite Hrec23. apply Hrec12.
  - intros ns o Hg Hin. apply (Hobj12 ns o Hg). apply (Hobj23 ns o); [| exact Hin].
    apply Hgone; [| exact Hg]. split; [exact Hns12 | split; assumption].
Qed.

Lemma shrinks_keeps_empty (g g' : DG) (ns : string) :
  less g g' -> gone g ns -> getNamespaceObjects g ns = [] -> getNamespaceObjects g' ns = [].
Proof.
  intros [_ [_ Hobj]] Hgone Hempty.
  destruct (getNamespaceObjects g' ns) as [| o rest] eqn:Hobjs; [reflexivity |].
  exfalso. specialize (Hobj ns o Hgone). rewrite Hobjs, Hempty in Hobj.
  apply Hobj. left. reflexivity.
Qed.

Section UnderTheLaws.

Hypothesis laws :
  rename_laws DG MObject getNamespaces getNamespaces_recurse getNamespaceObjects
    dg_name dg_namespace setName.

(** One rename. *)
Lemma _remove_namespace_shrinks (st : NsState DG MObject) (mobj : MObject) :
  less (graph _ _ st) (graph _ _ (remove1 st mobj)) /\
  forall ns o,
    gone (graph _ _ st) ns ->
    In o (getNamespaceObjects (graph _ _ (remove1 st mobj)) ns) -> o <> mobj.
Proof.
  destruct laws as [Hns Hrec Hobj]. unfold _remove_namespace. cbn [graph].
  split; [split; [apply Hns | split; [intros ns; apply Hrec |]] |].
  - intros ns o Hgone Hin. exact (proj1 (Hobj mobj _ ns o Hgone Hin)).
  - intros ns o Hgone Hin. exact (proj2 (Hobj mobj _ ns o Hgone Hin)).
Qed.

(** The loop over [m_objs]: none of them is left in a namespace gone
    through. *)
Lemma remove_all_shrinks :
  forall m_objs st,
    less (graph _ _ st) (graph _ _ (fold_left remove1 m_objs st)) /\
    forall ns o,
      gone (graph _ _ st) ns ->
      In o (getNamespaceObjects (graph _ _ (fold_left remove1 m_objs st)) ns) ->
      ~ In o m_objs.
Proof.
  induction m_objs as [| mobj m_objs IH]; intros st.
  - split; [apply shrinks_refl | intros ns o _ _ []].
  - cbn [fold_left].
    destruct (_remove_namespace_shrinks st mobj) as [Hstep Hgone1].
    destruct (IH (remove1 st mobj)) as [Hrest Hnot].
    split; [exact (shrinks_trans _ _ _ Hstep Hrest) |].
    intros ns o Hgone Hin [Heq | Hin'].
    + subst o. apply (Hgone1 ns mobj Hgone); [| reflexivity].
      destruct Hrest as [_ [_ Hobj]]. apply (Hobj ns mobj); [| exact Hin].
      exact (shrinks_gone_through _ _ ns Hstep Hgone).
    + apply (Hnot ns o); [| exact Hin | exact Hin'].
      exact (shrinks_gone_through _ _ ns Hstep Hgone).
Qed.

Lemma strip_objects_empties (st : NsState DG MObject) (ns : string) :
  less (graph _ _ st) (graph _ _ (strip1 st ns)) /\
  (gone (graph _ _ st) ns -> getNamespaceObjects (graph _ _ (strip1 st ns)) ns = []).
Proof.
  unfold strip_objects.
  destruct (remove_all_shrinks (getNamespaceObjects (graph _ _ st) ns) st) as [Hless Hnot].
  split; [exact Hless |]. intros Hgone.
  match goal with |- ?l = [] => destruct l as [| o rest] eqn:Hobjs end; [reflexivity |].
  exfalso.
  assert (Hin : In o (getNamespaceObjects
                        (graph _ _ (fold_left remove1 (getNamespaceObjects (graph _ _ st) ns) st))
                        ns)).
  { rewrite Hobjs. left. reflexivity. }
  apply (Hnot ns o Hgone Hin).
  destruct Hless as [_ [_ Hobj]]. exact (Hobj ns o Hgone Hin).
Qed.

(** The loop over [child_namespaces]. *)
Lemma strip_all_empties :
  forall namespaces st,
    (forall ns, In ns namespaces -> gone (graph _ _ st) ns) ->
    less (graph _ _ st) (graph _ _ (fold_left strip1 namespaces st)) /\
    forall ns, In ns namespaces ->
               getNamespaceObjects (graph _ _ (fold_left strip1 namespaces st)) ns = [].
Proof.
  induction namespaces as [| a namespaces IH]; intros st Hgone.
  - split; [apply shrinks_refl | intros ns []].
  - cbn [fold_left].
    destruct (strip_objects_empties st a) as [Hstep Hempty].
    assert (Hgone' : forall ns, In ns namespaces -> gone (graph _ _ (strip1 st a)) ns).
    { intros ns Hin. apply (shrinks_gone_through _ _ ns Hstep). apply Hgone. right. exact Hin. }
    destruct (IH (strip1 st a) Hgone') as [Hrest Hall].
    split; [exact (shrinks_trans _ _ _ Hstep Hrest) |].
    intros ns [<- | Hin]; [| exact (Hall ns Hin)].
    assert (Ha : gone (graph _ _ st) a) by (apply Hgone; left; reflexivity).
    apply (shrinks_keeps_empty _ _ a Hrest).
    + exact (shrinks_gone_through _ _ a Hstep Ha).
    + exact (Hempty Ha).
Qed.

(** The body of the loop over [namespaces]. *)
Lemma strip_namespace_empties (st : NsState DG MObject) (namespace : string) :
  In namespace (scene_ns (graph _ _ st)) ->
  less (graph _ _ st) (graph _ _ (strip_ns st namespace)) /\
  getNamespaceObjects (graph _ _ (strip_ns st namespace)) namespace = [] /\
  forall chld_ns,
    In chld_ns (getNamespaces_recurse (graph _ _ st) namespace) ->
    getNamespaceObjects (graph _ _ (strip_ns st namespace)) chld_ns = [].
Proof.
  intros Hin. unfold strip_namespace.
  assert (Hkids : forall ns, In ns (getNamespaces_recurse (graph _ _ st) namespace) ->
                             gone (graph _ _ st) ns).
  { intros ns Hns. right. exists namespace. split; assumption. }
  destruct (strip_all_empties _ st Hkids) as [Hless Hempty].
  set (st1 := fold_left strip1 (getNamespaces_recurse (graph _ _ st) namespace) st) in *.
  destruct (strip_objects_empties st1 namespace) as [Hstep Hown].
  split; [exact (shrinks_trans _ _ _ Hless Hstep) |]. split.
  - apply Hown. apply (shrinks_gone_through _ _ namespace Hless). left. exact Hin.
  - intros chld_ns Hchld.
    apply (shrinks_keeps_empty _ _ chld_ns Hstep).
    + apply (shrinks_gone_through _ _ chld_ns Hless). exact (Hkids chld_ns Hchld).
    + exact (Hempty chld_ns Hchld).
Qed.

(** The loop over [namespaces]. *)
Lemma strip_namespaces_empties :
  forall namespaces st,
    (forall ns, In ns namespaces -> In ns (scene_ns (graph _ _ st))) ->
    less (graph _ _ st) (graph _ _ (fold_left strip_ns namespaces st)) /\
    forall ns, In ns namespaces ->
      getNamespaceObjects (graph _ _ (fold_left strip_ns namespaces st)) ns = [] /\
      forall chld_ns,
        In chld_ns (getNamespaces_recurse (graph _ _ st) ns) ->
        getNamespaceObjects (graph _ _ (fold_left strip_ns namespaces st)) chld_ns = [].
Proof.
  induction namespaces as [| a namespaces IH]; intros st Hscene.
  - split; [apply shrinks_refl | intros ns []].
  - cbn [fold_left].
    assert (Ha : In a (scene_ns (graph _ _ st))) by (apply Hscene; left; reflexivity).
    destruct (strip_namespace_empties st a Ha) as [Hstep [Hown Hkids]].
    assert (Hscene' : forall ns, In ns namespaces -> In ns (scene_ns (graph _ _ (strip_ns st a)))).
    { intros ns Hin. rewrite (shrinks_scene_namespaces _ _ Hstep). apply Hscene. right. exact Hin. }
    destruct (IH (strip_ns st a) Hscene') as [Hrest Hall].
    split; [exact (shrinks_trans _ _ _ Hstep Hrest) |].
    intros ns [<- | Hin].
    + split.
      * apply (shrinks_keeps_empty _ _ a Hrest); [| exact Hown].
        apply (shrinks_gone_through _ _ a Hstep). left. exact Ha.
      * intros chld_ns Hchld.
        apply (shrinks_keeps_empty _ _ chld_ns Hrest); [| exact (Hkids chld_ns Hchld)].
        apply (shrinks_gone_through _ _ chld_ns Hstep). right. exists a. split; assumption.
    + destruct (Hall ns Hin) as [Hown' Hkids']. split; [exact Hown' |].
      intros chld_ns Hchld. apply Hkids'.
      destruct Hstep as [_ [Hrec _]]. rewrite Hrec. exact Hchld.
Qed.

(** The normalizer leaves no node in a namespace it goes through. *)
Lemma clean_leaves_stripped (st : NsState DG MObject) :
  stripped DG MObject getNamespaces getNamespaces_recurse getNamespaceObjects
    (graph _ _ (clean st)).
Proof.
  unfold _clean_namespaces.
  destruct (strip_namespaces_empties (scene_ns (graph _ _ st)) st (fun ns H => H))
    as [Hless Hall].
  intros ns Hns. rewrite (shrinks_scene_namespaces _ _ Hless) in Hns.
  destruct (Hall ns Hns) as [Hown Hkids]. split; [exact Hown |].
  intros chld_ns Hchld. apply Hkids.
  destruct Hless as [_ [Hrec _]]. rewrite Hrec in Hchld. exact Hchld.
Qed.

End UnderTheLaws.

(** C9.  On a graph whose namespaces are the reserved ones alone the
    normalizer goes through no namespace and renames nothing.  For a node in
    no namespace the name handed to [setName] is the name it has.  And
    running the normalizer twice is running it once: the first run leaves no
    node in a namespace it goes through, so the second renames nothing.  This
    holds whenever [setName] keeps the namespaces and takes the renamed node,
    and no other, out of the namespaces gone through. *)
Theorem C9_namespace_stripping_is_idempotent :
  (forall st,
     NoDup (getNamespaces (graph _ _ st)) ->
     incl (getNamespaces (graph _ _ st)) IGNORED_NAMESPACES ->
     _get_scene_namespaces DG getNamespaces (graph _ _ st) = [] /\ clean st = st) /\
  (forall g mobj,
     dg_namespace g mobj = "" ->
     stripped_name DG MObject dg_name dg_namespace g mobj = dg_name g mobj) /\
  (rename_laws DG MObject getNamespaces getNamespaces_recurse getNamespaceObjects
     dg_name dg_namespace setName ->
   forall st, clean (clean st) = clean st).
Proof.
  split; [| split].
  - intros st Hnd Hincl.
    pose proof (no_namespace_to_strip _ Hnd Hincl) as Hnone.
    split; [exact Hnone |].
    unfold _clean_namespaces. rewrite Hnone. reflexivity.
  - intros g mobj Hns. unfold stripped_name. rewrite Hns. apply slice_from_0.
  - intros laws st. apply clean_stripped. apply clean_leaves_stripped. exact laws.
Qed.

End NamespaceFacts.

(* ================================================================== *)
(** * NamespaceNormalizer: the example graphs obey the laws of setName *)
(* ================================================================== *)

Lemma slice_from_S (n : nat) (c : ascii) (rest : string) :
  slice_from (S n) (String c rest) = slice_from n rest.
Proof. reflexivity. Qed.

Lemma namespace_of_without_colon (s : string) :
  contains ":" s = false -> Examples.namespace_of s = "".
Proof.
  destruct s as [| c rest]; [reflexivity |]. simpl.
  intros H. apply orb_false_iff in H as [_ H]. rewrite H. reflexivity.
Qed.

(** The name [_remove_namespace] gives a node puts it in the root
    namespace. *)
Lemma stripped_name_is_in_the_root (name : string) :
  Examples.namespace_of
    (Examples.from_root (slice_from (String.length (Examples.namespace_of name)) name))
  = "".
Proof.
  induction name as [| c rest IH]; [reflexivity |].
  cbn [Examples.namespace_of].
  destruct (contains ":" rest) eqn:Hcolon.
  - cbn [String.length]. rewrite slice_from_S. exact IH.
  - cbn [String.length]. rewrite slice_from_0.
    assert (Hrest : Examples.namespace_of rest = "")
      by (apply namespace_of_without_colon; exact Hcolon).
    unfold Examples.from_root.
    destruct (Ascii.eqb c ":") eqn:Hc.
    + apply Ascii.eqb_eq in Hc. subst c. exact Hrest.
    + assert (Hname : Examples.namespace_of (String c rest) = "").
      { cbn [Examples.namespace_of]. rewrite Hcolon. reflexivity. }
      destruct c as [[] [] [] [] [] [] [] []]; try exact Hname; discriminate.
Qed.

Lemma set_nth_length (o : nat) (x : string) :
  forall l, List.length (Examples.set_nth o x l) = List.length l.
Proof.
  induction o as [| o IH]; intros [| y l]; simpl; try reflexivity.
  rewrite IH. reflexivity.
Qed.

Lemma nth_set_nth_same (x d : string) :
  forall o l, o < List.length l -> nth o (Examples.set_nth o x l) d = x.
Proof.
  induction o as [| o IH]; intros [| y l] Hlt; simpl in *; try lia; try reflexivity.
  apply IH. lia.
Qed.

Lemma nth_set_nth_other (x d : string) :
  forall o o' l, o' <> o -> nth o' (Examples.set_nth o x l) d = nth o' l d.
Proof.
  induction o as [| o IH]; intros [| o'] [| y l] Hne; simpl; try reflexivity; try congruence.
  apply IH. congruence.
Qed.

Lemma remove_first_incl (x : string) :
  forall l, incl (remove_first x l) l.
Proof.
  induction l as [| y l IH]; simpl; [apply incl_refl |].
  destruct (String.eqb y x); [apply incl_tl, incl_refl |].
  intros z [-> | Hz]; [left; reflexivity | right; exact (IH z Hz)].
Qed.

Lemma scene_namespaces_are_listed {DG : Type} (getNamespaces : DG -> list string) (g : DG) :
  incl (_get_scene_namespaces DG getNamespaces g) (getNamespaces g).
Proof.
  unfold _get_scene_namespaces.
  assert (Hfold : forall ignoreds spaces,
            incl (fold_left (fun spaces ignored =>
                               if mem ignored spaces then remove_first ignored spaces
                               else spaces) ignoreds spaces) spaces).
  { induction ignoreds as [| ignored ignoreds IH]; intros spaces; simpl; [apply incl_refl |].
    intros z Hz. apply IH in Hz.
    destruct (mem ignored spaces); [exact (remove_first_incl ignored spaces z Hz) | exact Hz]. }
  apply Hfold.
Qed.

Lemma gone_through_is_not_the_root (g : Examples.NsGraph) (ns : string) :
  gone_through Examples.NsGraph Examples.ns_getNamespaces Examples.ns_getNamespaces_recurse g ns ->
  ns <> ":".
Proof.
  assert (Htop : forall x, In x (_get_scene_namespaces Examples.NsGraph
                                   Examples.ns_getNamespaces g) ->
                           Examples.is_top_level x = true).
  { intros x Hx. apply scene_namespaces_are_listed in Hx.
    unfold Examples.ns_getNamespaces in Hx. apply filter_In in Hx. exact (proj2 Hx). }
  intros [Hin | [namespace [Hin Hchild]]] Heq; subst ns.
  - apply Htop in Hin. discriminate.
  - apply Htop in Hin. unfold Examples.ns_getNamespaces_recurse in Hchild.
    apply filter_In in Hchild as [_ Hprefix].
    destruct namespace as [| c x]; [discriminate |].
    simpl in Hprefix.
    destruct (Ascii.ascii_dec c ":"); [| discriminate].
    destruct x; discriminate.
Qed.

Lemma example_graphs_obey_the_rename_laws :
  rename_laws Examples.NsGraph nat Examples.ns_getNamespaces Examples.ns_getNamespaces_recurse
    Examples.ns_objects Examples.ns_name Examples.ns_namespace Examples.ns_setName.
Proof.
  constructor.
  - reflexivity.
  - reflexivity.
  - intros mobj g ns o Hgone Hin.
    pose proof (gone_through_is_not_the_root g ns Hgone) as Hroot.
    unfold Examples.ns_objects in *. apply filter_In in Hin as [Hseq Hns].
    cbn [Examples.ns_setName Examples.node_names] in Hseq, Hns.
    rewrite set_nth_length in Hseq.
    unfold Examples.ns_namespace, Examples.ns_name in Hns.
    cbn [Examples.ns_setName Examples.node_names] in Hns.
    destruct (Nat.eq_dec o mobj) as [-> | Hne].
    + exfalso. apply in_seq in Hseq.
      rewrite nth_set_nth_same in Hns by lia.
      unfold stripped_name, Examples.ns_namespace, Examples.ns_name in Hns.
      rewrite stripped_name_is_in_the_root in Hns.
      apply String.eqb_eq in Hns. apply Hroot. symmetry. exact Hns.
    + split; [| exact Hne]. apply filter_In. split; [exact Hseq |].
      rewrite nth_set_nth_other in Hns by exact Hne. exact Hns.
Qed.

(** On the graph of a new scene nothing is gone through.  On the rig graph
    the first run renames [rig:arm:Hand] and [rig:Root] and leaves [Glove]
    alone; the second run renames nothing. *)
Lemma C9_second_run_on_the_rig_graph :
  (_get_scene_namespaces Examples.NsGraph Examples.ns_getNamespaces Examples.plain_graph = [] /\
   _clean_namespaces Examples.NsGraph nat Examples.ns_getNamespaces
     Examples.ns_getNamespaces_recurse Examples.ns_objects Examples.ns_name
     Examples.ns_namespace Examples.ns_setName
     {| graph := Examples.plain_graph; renames := [] |}
   = {| graph := Examples.plain_graph; renames := [] |}) /\
  _clean_namespaces Examples.NsGraph nat Examples.ns_getNamespaces
    Examples.ns_getNamespaces_recurse Examples.ns_objects Examples.ns_name
    Examples.ns_namespace Examples.ns_setName
    {| graph := Examples.rig_graph; renames := [] |}
  = {| graph := {| Examples.spaces := [":UI"; ":shared"; ":rig"; ":rig:arm"];
                   Examples.node_names := ["Root"; "Glove"; "Hand"] |};
       renames := [(2, ":Hand"); (0, ":Root")] |} /\
  stripped_name Examples.NsGraph nat Examples.ns_name Examples.ns_namespace
    Examples.rig_graph 1 = "Glove" /\
  _clean_namespaces Examples.NsGraph nat Examples.ns_getNamespaces
    Examples.ns_getNamespaces_recurse Examples.ns_objects Examples.ns_name
    Examples.ns_namespace Examples.ns_setName
    (_clean_namespaces Examples.NsGraph nat Examples.ns_getNamespaces
       Examples.ns_getNamespaces_recurse Examples.ns_objects Examples.ns_name
       Examples.ns_namespace Examples.ns_setName
       {| graph := Examples.rig_graph; renames := [] |})
  = _clean_namespaces Examples.NsGraph nat Examples.ns_getNamespaces
      Examples.ns_getNamespaces_recurse Examples.ns_objects Examples.ns_name
      Examples.ns_namespace Examples.ns_setName
      {| graph := Examples.rig_graph; renames := [] |}.
Proof.
  destruct (C9_namespace_stripping_is_idempotent Examples.NsGraph nat
              Examples.ns_getNamespaces Examples.ns_getNamespaces_recurse
              Examples.ns_objects Examples.ns_name Examples.ns_namespace
              Examples.ns_setName) as [Hnone [Hname Htwice]].
  split; [| split; [reflexivity | split]].
  - apply (Hnone {| graph := Examples.plain_graph; renames := [] |}).
    + constructor; [intros [H | []]; discriminate |].
      constructor; [intros [] | constructor].
    + intros ns [<- | [<- | []]]; [left | right; left]; reflexivity.
  - apply Hname. reflexivity.
  - apply Htwice. exact example_graphs_obey_the_rename_laws.
Defined.

(* ================================================================== *)
(** * The glove scenario from end to end *)
(* ================================================================== *)

(** With the single candidate [Root] the plan for [Glove] is the chain from
    [Root] to [Hand]. *)
Example plan_for_Glove_from_Root :
  plan_partitions Examples.glove_host 10 ["Root"] Examples.glove_partitions
  = Ok [("Glove",
         Some {| root := "Root";
                 hierarchy := ["|Root"; "|Root|Spine"; "|Root|Spine|Arm";
                               "|Root|Spine|Arm|Hand"] |})].
Proof. reflexivity. Qed.

(** The pass hands the four joints and the mesh to the exporter and leaves
    the conditioned file as it was. *)
Example export_of_Glove_from_Root :
  _export_skeletal_mesh_partitions (scene_host Examples.glove_skin) 10
    Examples.settings_ok Examples.export_ok ["Root"]
    (Examples.export_data_of Examples.glove_partitions)
    Examples.conditioned_file (Examples.session_on Examples.glove_scene)
  = (Ok true,
     {| scene := Examples.glove_scene;
        files := [(Examples.conditioned_file, Examples.glove_scene)];
        exported := [("out/char_Glove.fbx",
                      ["|Root"; "|Root|Spine"; "|Root|Spine|Arm"; "|Root|Spine|Arm|Hand";
                       "|Glove"])];
        console := ["out/char_Glove.fbx"] |}).
Proof. reflexivity. Qed.

(* ================================================================== *)
(** * ChainResolver: further properties *)
(* ================================================================== *)

Section ChainShape.

Variable host : Host.

Lemma climbs_snoc :
  forall joint_list x p others,
    climbs host (joint_list ++ [x]) ->
    listRelatives_parent host x = p :: others ->
    climbs host ((joint_list ++ [x]) ++ [p]).
Proof.
  induction joint_list as [| a joint_list IH]; intros x p others Hclimbs Hpar.
  - simpl. split; [exists others; exact Hpar | exact I].
  - destruct joint_list as [| b joint_list].
    + simpl in *. destruct Hclimbs as [Ha _].
      split; [exact Ha |]. split; [exists others; exact Hpar | exact I].
    + simpl in Hclimbs. destruct Hclimbs as [Ha Hrest].
      simpl. split; [exact Ha |].
      exact (IH x p others Hrest Hpar).
Qed.

Lemma climb_climbs :
  forall fuel start_joint joint_list x l,
    climb host fuel start_joint (joint_list ++ [x]) x = Ok l ->
    climbs host (joint_list ++ [x]) ->
    climbs host l.
Proof.
  induction fuel as [| fuel IH]; intros start_joint joint_list x l Hrun Hclimbs.
  - discriminate.
  - simpl in Hrun. destruct (String.eqb x start_joint).
    + inversion Hrun; subst. exact Hclimbs.
    + destruct (listRelatives_parent host x) as [| p others] eqn:Hpar; [discriminate |].
      apply (IH start_joint (joint_list ++ [x]) p l Hrun).
      exact (climbs_snoc joint_list x p others Hclimbs Hpar).
Qed.

Lemma linked_snoc :
  forall chain p c others,
    linked host (chain ++ [p]) ->
    listRelatives_parent host c = p :: others ->
    linked host ((chain ++ [p]) ++ [c]).
Proof.
  induction chain as [| a chain IH]; intros p c others Hlinked Hpar.
  - simpl. split; [exists others; exact Hpar | exact I].
  - destruct chain as [| b chain].
    + simpl in *. destruct Hlinked as [Ha _].
      split; [exact Ha |]. split; [exists others; exact Hpar | exact I].
    + simpl in Hlinked. destruct Hlinked as [Ha Hrest].
      simpl. split; [exact Ha |].
      exact (IH p c others Hrest Hpar).
Qed.

Lemma climbs_rev_linked :
  forall joint_list, climbs host joint_list -> linked host (rev joint_list).
Proof.
  induction joint_list as [| c joint_list IH]; intros Hclimbs.
  - exact I.
  - destruct joint_list as [| p joint_list].
    + exact I.
    + simpl in Hclimbs. destruct Hclimbs as [[others Hpar] Hrest].
      change (rev (c :: p :: joint_list)) with ((rev joint_list ++ [p]) ++ [c]).
      apply (linked_snoc _ p c others); [| exact Hpar].
      exact (IH Hrest).
Qed.

Lemma _get_joint_list_linked :
  forall fuel start end_ chain,
    _get_joint_list host fuel start end_ = Ok chain -> linked host chain.
Proof.
  intros fuel start end_ chain Hrun. unfold _get_joint_list in Hrun.
  destruct (full_path host start) as [start_joint |]; [| inversion Hrun; exact I].
  destruct (full_path host end_) as [end_joint |]; [| inversion Hrun; exact I].
  destruct (String.eqb start_joint end_joint); [inversion Hrun; exact I |].
  destruct (Nat.eqb (count (ls_joint_descendants host start_joint) end_joint) 0);
    [inversion Hrun; exact I |].
  apply bind_Ok_inv in Hrun as [joint_list [Hclimb Hrev]].
  inversion Hrev; subst chain.
  apply climbs_rev_linked.
  exact (climb_climbs fuel start_joint [] end_joint joint_list Hclimb I).
Qed.

(** The chain between a joint and itself is that joint alone, under
    whatever names the two ends are given and with any fuel. *)
Theorem chain_of_a_joint_to_itself :
  forall fuel start end_ p,
    full_path host start = Some p ->
    full_path host end_ = Some p ->
    _get_joint_list host fuel start end_ = Ok [p].
Proof.
  intros fuel start end_ p Hs He. unfold _get_joint_list.
  rewrite Hs, He, String.eqb_refl. reflexivity.
Qed.

(** A chain that is returned and is not empty starts at the full path of
    the start joint, ends at the full path of the end joint, and each of
    its joints is the first parent Maya lists for the next one. *)
Theorem chain_goes_down_parent_links :
  forall fuel start end_ chain,
    _get_joint_list host fuel start end_ = Ok chain ->
    chain <> [] ->
    exists start_joint end_joint,
      full_path host start = Some start_joint /\
      full_path host end_ = Some end_joint /\
      hd_error chain = Some start_joint /\
      last chain "" = end_joint /\
      linked host chain.
Proof.
  intros fuel start end_ chain Hrun Hne.
  destruct (_get_joint_list_ends host fuel start end_ chain Hrun Hne)
    as [start_joint [end_joint [Hs [He [[tl Htl] [before Hbefore]]]]]].
  exists start_joint, end_joint.
  split; [exact Hs |]. split; [exact He |]. split; [rewrite Htl; reflexivity |].
  split; [rewrite Hbefore; apply last_last |].
  exact (_get_joint_list_linked fuel start end_ chain Hrun).
Qed.

Lemma climb_reaches :
  forall start_joint n x,
    reaches host start_joint n x ->
    forall fuel joint_list,
      n < fuel ->
      exists up,
        climb host fuel start_joint joint_list x = Ok (joint_list ++ up) /\
        List.length up = n.
Proof.
  intros start_joint n x Hreach.
  induction Hreach as [| n x p others Hne Hpar Hreach IH]; intros fuel joint_list Hfuel.
  - destruct fuel as [| fuel]; [lia |].
    exists []. simpl. rewrite String.eqb_refl, app_nil_r. split; reflexivity.
  - destruct fuel as [| fuel]; [lia |].
    destruct (IH fuel (joint_list ++ [p]) ltac:(lia)) as [up [Hrun Hlen]].
    exists (p :: up). simpl. apply String.eqb_neq in Hne. rewrite Hne, Hpar, Hrun.
    rewrite <- app_assoc. split; [reflexivity | simpl; rewrite Hlen; reflexivity].
Qed.

(** When the end joint is the start joint or is listed among its joint
    descendants, and the parent walk from it meets the start joint after
    [n] steps, [_get_joint_list] returns, with any fuel above [n], a chain
    of [n + 1] joints from the start joint to the end joint. *)
Theorem chain_of_a_reachable_joint :
  forall fuel n start end_ start_joint end_joint,
    full_path host start = Some start_joint ->
    full_path host end_ = Some end_joint ->
    start_joint = end_joint \/ In end_joint (ls_joint_descendants host start_joint) ->
    reaches host start_joint n end_joint ->
    n < fuel ->
    exists chain,
      _get_joint_list host fuel start end_ = Ok chain /\
      List.length chain = S n /\
      hd_error chain = Some start_joint /\
      last chain "" = end_joint.
Proof.
  intros fuel n start end_ start_joint end_joint Hs He Hdesc Hreach Hfuel.
  assert (Hrun : exists chain, _get_joint_list host fuel start end_ = Ok chain /\
                               List.length chain = S n).
  { unfold _get_joint_list. rewrite Hs, He.
    destruct (String.eqb start_joint end_joint) eqn:Heq.
    - apply String.eqb_eq in Heq. subst end_joint.
      exists [start_joint]. split; [reflexivity |].
      inversion Hreach as [| n' x p others Hne _ _]; [reflexivity | congruence].
    - apply String.eqb_neq in Heq. destruct Hdesc as [Hsame | Hin]; [contradiction |].
      destruct (Nat.eqb (count (ls_joint_descendants host start_joint) end_joint) 0) eqn:Hc.
      + apply count_zero_not_In in Hc. contradiction.
      + destruct (climb_reaches start_joint n end_joint Hreach fuel [end_joint] Hfuel)
          as [up [Hclimb Hlen]].
        rewrite Hclimb. exists (rev ([end_joint] ++ up)). split; [reflexivity |].
        rewrite length_rev. simpl. rewrite Hlen. reflexivity. }
  destruct Hrun as [chain [Hrun Hlen]].
  exists chain. split; [exact Hrun |]. split; [exact Hlen |].
  assert (Hne : chain <> []) by (intros ->; discriminate).
  destruct (_get_joint_list_ends host fuel start end_ chain Hrun Hne)
    as [s [e [Hs' [He' [[tl Htl] [before Hbefore]]]]]].
  rewrite Hs in Hs'. rewrite He in He'. inversion Hs'; inversion He'; subst s e.
  split; [rewrite Htl; reflexivity | rewrite Hbefore; apply last_last].
Qed.

Lemma _get_root_joint_stops :
  forall fuel x r, _get_root_joint host fuel x = Ok r -> no_joint_parent host r.
Proof.
  induction fuel as [| fuel IH]; intros x r Hrun; [discriminate |].
  simpl in Hrun.
  destruct (listRelatives_joint_parent host x) as [| parent others] eqn:Hpar.
  - inversion Hrun; subst. left. exact Hpar.
  - destruct (String.eqb parent "") eqn:Hempty.
    + apply String.eqb_eq in Hempty. inversion Hrun; subst.
      right. exists others. exact Hpar.
    + exact (IH parent r Hrun).
Qed.

(** The joint [_get_root_joint] returns has no joint parent, and asking
    for its root again gives the joint itself. *)
Theorem root_joint_is_its_own_root :
  forall fuel x r,
    _get_root_joint host fuel x = Ok r ->
    no_joint_parent host r /\
    forall fuel', _get_root_joint host (S fuel') r = Ok r.
Proof.
  intros fuel x r Hrun.
  pose proof (_get_root_joint_stops fuel x r Hrun) as Hstop.
  split; [exact Hstop |].
  intros fuel'. simpl. destruct Hstop as [Hnone | [others Hempty]].
  - rewrite Hnone. reflexivity.
  - rewrite Hempty. reflexivity.
Qed.

End ChainShape.

Lemma chain_of_Hand_to_itself :
  full_path Examples.glove_host "Hand" = Some "|Root|Spine|Arm|Hand" /\
  _get_joint_list Examples.glove_host 0 "Hand" "|Root|Spine|Arm|Hand"
  = Ok ["|Root|Spine|Arm|Hand"].
Proof.
  split; [reflexivity |].
  apply (chain_of_a_joint_to_itself Examples.glove_host 0 "Hand" "|Root|Spine|Arm|Hand");
    reflexivity.
Defined.

Lemma chain_from_Spine_to_Hand_goes_down :
  _get_joint_list Examples.glove_host 5 "Spine" "Hand"
  = Ok ["|Root|Spine"; "|Root|Spine|Arm"; "|Root|Spine|Arm|Hand"] /\
  exists start_joint end_joint,
    full_path Examples.glove_host "Spine" = Some start_joint /\
    full_path Examples.glove_host "Hand" = Some end_joint /\
    hd_error ["|Root|Spine"; "|Root|Spine|Arm"; "|Root|Spine|Arm|Hand"] = Some start_joint /\
    last ["|Root|Spine"; "|Root|Spine|Arm"; "|Root|Spine|Arm|Hand"] "" = end_joint /\
    linked Examples.glove_host ["|Root|Spine"; "|Root|Spine|Arm"; "|Root|Spine|Arm|Hand"].
Proof.
  split; [reflexivity |].
  apply (chain_goes_down_parent_links Examples.glove_host 5 "Spine" "Hand").
  - reflexivity.
  - discriminate.
Defined.

Lemma chain_from_Root_to_Arm_has_three_joints :
  reaches Examples.glove_host "|Root" 2 "|Root|Spine|Arm" /\
  exists chain,
    _get_joint_list Examples.glove_host 3 "Root" "Arm" = Ok chain /\
    List.length chain = 3 /\
    hd_error chain = Some "|Root" /\
    last chain "" = "|Root|Spine|Arm".
Proof.
  assert (Hreach : reaches Examples.glove_host "|Root" 2 "|Root|Spine|Arm").
  { apply (reaches_above _ _ 1 "|Root|Spine|Arm" "|Root|Spine" []);
      [discriminate | reflexivity |].
    apply (reaches_above _ _ 0 "|Root|Spine" "|Root" []);
      [discriminate | reflexivity |].
    apply reaches_here. }
  split; [exact Hreach |].
  apply (chain_of_a_reachable_joint Examples.glove_host 3 2 "Root" "Arm"
           "|Root" "|Root|Spine|Arm").
  - reflexivity.
  - reflexivity.
  - right. right. left. reflexivity.
  - exact Hreach.
  - apply le_n.
Defined.

Lemma root_of_Hand_is_its_own_root :
  _get_root_joint Examples.glove_host 10 "|Root|Spine|Arm|Hand" = Ok "Root" /\
  no_joint_parent Examples.glove_host "Root" /\
  forall fuel', _get_root_joint Examples.glove_host (S fuel') "Root" = Ok "Root".
Proof.
  split; [reflexivity |].
  apply (root_joint_is_its_own_root Examples.glove_host 10 "|Root|Spine|Arm|Hand" "Root").
  reflexivity.
Defined.

(* ================================================================== *)
(** * PartitionPlanner: further properties *)
(* ================================================================== *)

(** A loop that ends normally keeps what each turn keeps. *)
Lemma for_each_invariant {A B} (body : B -> A -> Result B) (P : B -> Prop) :
  forall l,
    (forall acc x acc', In x l -> P acc -> body acc x = Ok acc' -> P acc') ->
    forall acc b, P acc -> for_each body l acc = Ok b -> P b.
Proof.
  induction l as [| y l IH]; intros Hbody acc b HP Hrun; simpl in Hrun.
  - inversion Hrun; subst. exact HP.
  - apply bind_Ok_inv in Hrun as [acc' [Hy Hrest]].
    apply (IH (fun acc0 x acc1 Hx => Hbody acc0 x acc1 (or_intror Hx)) acc' b); [| exact Hrest].
    exact (Hbody acc y acc' (or_introl eq_refl) HP Hy).
Qed.

Lemma NoDup_snoc {A} (l : list A) (x : A) : NoDup l -> ~ In x l -> NoDup (l ++ [x]).
Proof.
  intros Hl Hx. apply NoDup_app; [exact Hl | constructor; [intros [] | constructor] |].
  intros a Ha [-> | []]. exact (Hx Ha).
Qed.

Lemma append_if_new_NoDup (v : list string) (x : string) :
  NoDup v -> NoDup (append_if_new v x).
Proof.
  intros Hv. unfold append_if_new. destruct (mem x v) eqn:Hmem; [exact Hv |].
  apply NoDup_snoc; [exact Hv | apply mem_false_not_In; exact Hmem].
Qed.

Lemma append_if_new_not_nil (v : list string) (x : string) : append_if_new v x <> [].
Proof.
  unfold append_if_new. destruct (mem x v) eqn:Hmem.
  - apply mem_In in Hmem. intros ->. destruct Hmem.
  - destruct v; discriminate.
Qed.

Lemma append_if_new_head (v : list string) (x a : string) (t : list string) :
  v = a :: t -> exists t', append_if_new v x = a :: t'.
Proof.
  intros ->. unfold append_if_new. destruct (mem x (a :: t)).
  - exists t. reflexivity.
  - exists (t ++ [x]). reflexivity.
Qed.

(** The entries after [append_new], when no key stands twice. *)
Lemma append_new_In (k x : string) :
  forall d k' v',
    NoDup (map fst d) ->
    In (k', v') (append_new k x d) ->
    (k' <> k /\ In (k', v') d) \/
    (k' = k /\ exists v, In (k, v) d /\ v' = append_if_new v x).
Proof.
  induction d as [| [k0 v0] d IH]; intros k' v' Hnd Hin; [destruct Hin |].
  simpl in Hnd. inversion Hnd as [| k0' keys Hnotin Hnd']; subst.
  simpl in Hin. destruct (String.eqb k0 k) eqn:Hk.
  - apply String.eqb_eq in Hk. subst k0. destruct Hin as [Heq | Hin].
    + inversion Heq; subst. right. split; [reflexivity |].
      exists v0. split; [left; reflexivity | reflexivity].
    + left. split; [| right; exact Hin].
      intros ->. apply Hnotin. apply in_map_iff. exists (k, v'). split; [reflexivity | exact Hin].
  - apply String.eqb_neq in Hk. destruct Hin as [Heq | Hin].
    + inversion Heq; subst. left. split; [exact Hk | left; reflexivity].
    + destruct (IH k' v' Hnd' Hin) as [[Hne Hd] | [Heq [v [Hd Hv]]]].
      * left. split; [exact Hne | right; exact Hd].
      * right. split; [exact Heq |]. exists v. split; [right; exact Hd | exact Hv].
Qed.

Lemma add_key_NoDup (keys : list string) (k : string) : NoDup keys -> NoDup (add_key keys k).
Proof.
  intros Hnd. unfold add_key. destruct (mem k keys) eqn:Hmem; [exact Hnd |].
  apply NoDup_snoc; [exact Hnd | apply mem_false_not_In; exact Hmem].
Qed.

Lemma setdefault_In (k : string) (d : JointHierarchy) :
  forall k' v, In (k', v) (setdefault k d) -> In (k', v) d \/ v = [].
Proof.
  intros k' v Hin. unfold setdefault in Hin. destruct (has_key k d); [left; exact Hin |].
  apply in_app_or in Hin as [Hin | [Heq | []]]; [left; exact Hin |].
  inversion Heq. right. reflexivity.
Qed.

Section HierarchyShape.

Variable host : Host.
Variable fuel : nat.

Lemma append_new_well_keyed :
  forall k p x d,
    full_path host k = Some p ->
    (well_keyed host) d ->
    x = p \/ (forall v, In (k, v) d -> v <> []) ->
    (well_keyed host) (append_new k x d) /\ (forall v, In (k, v) (append_new k x d) -> v <> []).
Proof.
  intros k p x d Hk [Hkeys Hentries] Hx. split; [split |].
  - rewrite keys_append_new. exact Hkeys.
  - intros k' v' Hin.
    destruct (append_new_In k x d k' v' Hkeys Hin) as [[Hne Hd] | [Heq [v [Hd Hv]]]].
    + exact (Hentries k' v' Hd).
    + subst k' v'. destruct (Hentries k v Hd) as [Hnd Hhead]. split.
      * apply append_if_new_NoDup. exact Hnd.
      * intros _. destruct v as [| a t].
        -- destruct Hx as [-> | Hnonempty]; [| exfalso; exact (Hnonempty [] Hd eq_refl)].
           exists p, []. split; [exact Hk | reflexivity].
        -- destruct (Hhead ltac:(discriminate)) as [p' [tl [Hp' Hv]]].
           inversion Hv; subst a tl.
           destruct (append_if_new_head (p' :: t) x p' t eq_refl) as [t' Ht'].
           exists p', t'. split; [exact Hp' | exact Ht'].
  - intros v' Hin.
    destruct (append_new_In k x d k v' Hkeys Hin) as [[Hne _] | [_ [v [_ Hv]]]].
    + congruence.
    + subst v'. apply append_if_new_not_nil.
Qed.

Lemma add_chain_nonempty_well_keyed :
  forall k p chain d,
    full_path host k = Some p ->
    (well_keyed host) d ->
    (forall v, In (k, v) d -> v <> []) ->
    (well_keyed host) (add_chain k chain d).
Proof.
  unfold add_chain. induction chain as [| x chain IH]; intros d Hk Hd Hnonempty; simpl.
  - exact Hd.
  - destruct (append_new_well_keyed k p x d Hk Hd (or_intror Hnonempty)) as [Hd' Hne'].
    exact (IH _ Hk Hd' Hne').
Qed.

Lemma add_chain_well_keyed :
  forall k chain d,
    (well_keyed host) d ->
    chain = [] \/ (exists p tl, full_path host k = Some p /\ chain = p :: tl) ->
    (well_keyed host) (add_chain k chain d).
Proof.
  intros k chain d Hd [-> | [p [tl [Hk ->]]]].
  - exact Hd.
  - unfold add_chain. simpl.
    destruct (append_new_well_keyed k p p d Hk Hd (or_introl eq_refl)) as [Hd' Hne'].
    exact (add_chain_nonempty_well_keyed k p tl _ Hk Hd' Hne').
Qed.

Lemma for_influences_well_keyed :
  forall k influences d d',
    (well_keyed host) d ->
    for_influences host fuel k influences d = Ok d' ->
    (well_keyed host) d'.
Proof.
  intros k influences d d' Hd Hrun. unfold for_influences in Hrun.
  refine (for_each_invariant _ (well_keyed host) influences _ d d' Hd Hrun).
  intros acc inf acc' _ Hacc Hstep.
  apply bind_Ok_inv in Hstep as [chain [Hchain Hacc']]. inversion Hacc'; subst acc'.
  apply add_chain_well_keyed; [exact Hacc |].
  destruct chain as [| a t]; [left; reflexivity |]. right.
  destruct (_get_joint_list_ends host fuel k inf (a :: t) Hchain ltac:(discriminate))
    as [p [e [Hp [_ [[tl Htl] _]]]]].
  exists p, tl. split; [exact Hp | exact Htl].
Qed.

Lemma setdefault_well_keyed (k : string) (d : JointHierarchy) :
  (well_keyed host) d -> (well_keyed host) (setdefault k d).
Proof.
  intros [Hkeys Hentries]. split.
  - rewrite keys_setdefault. apply add_key_NoDup. exact Hkeys.
  - intros k' v Hin. destruct (setdefault_In k d k' v Hin) as [Hd | ->].
    + exact (Hentries k' v Hd).
    + split; [constructor | intros Hne; exfalso; apply Hne; reflexivity].
Qed.

Lemma for_meshes_well_keyed :
  forall jnt_roots meshes items,
    for_meshes host fuel jnt_roots meshes = Ok items -> (well_keyed host) items.
Proof.
  intros jnt_roots meshes items Hrun. unfold for_meshes in Hrun.
  destruct meshes as [meshes |]; [| discriminate].
  refine (for_each_invariant _ (well_keyed host) meshes _ [] items _ Hrun).
  - intros acc mesh acc' _ Hacc Hstep.
    apply bind_Ok_inv in Hstep as [influences [_ Hroots]]. unfold for_roots in Hroots.
    refine (for_each_invariant _ (well_keyed host) jnt_roots _ acc acc' Hacc Hroots).
    intros d r d' _ Hd Hr.
    exact (for_influences_well_keyed r influences _ d' (setdefault_well_keyed r d Hd) Hr).
  - split; [constructor | intros k v []].
Qed.

Lemma choose_root_In :
  forall jnt_roots meshes r h,
    choose_root host fuel jnt_roots meshes = Ok (Some (r, h)) ->
    exists items,
      for_meshes host fuel jnt_roots meshes = Ok items /\ In (r, h) items /\ h <> [].
Proof.
  intros jnt_roots meshes r h Hrun. unfold choose_root in Hrun.
  apply bind_Ok_inv in Hrun as [items [Hitems Hshort]]. inversion Hshort as [Hs].
  exists items. split; [exact Hitems |].
  pose proof (shortest_first_shortest items) as Hspec. rewrite Hs in Hspec.
  destruct Hspec as [i [Hi [Hne _]]].
  split; [exact (nth_error_In _ _ Hi) | exact Hne].
Qed.

(** No joint stands twice in the hierarchy induced by a candidate root, in
    particular in the one the planner chooses: a joint is appended only when
    it is not in the list yet. *)
Theorem induced_hierarchies_have_no_duplicate :
  forall jnt_roots meshes,
    (forall items r h,
       for_meshes host fuel jnt_roots meshes = Ok items -> In (r, h) items -> NoDup h) /\
    (forall r h,
       choose_root host fuel jnt_roots meshes = Ok (Some (r, h)) -> NoDup h).
Proof.
  intros jnt_roots meshes. split.
  - intros items r h Hrun Hin.
    exact (proj1 (proj2 (for_meshes_well_keyed _ _ _ Hrun) r h Hin)).
  - intros r h Hrun.
    destruct (choose_root_In _ _ _ _ Hrun) as [items [Hitems [Hin _]]].
    exact (proj1 (proj2 (for_meshes_well_keyed _ _ _ Hitems) r h Hin)).
Qed.

(** The hierarchy the planner chooses starts at the full path of the
    candidate root it is kept for: [short_hierarchy[0]] is that candidate,
    whatever the influences are. *)
Theorem chosen_hierarchy_starts_at_its_candidate_root :
  forall jnt_roots meshes r h,
    choose_root host fuel jnt_roots meshes = Ok (Some (r, h)) ->
    exists p tl, full_path host r = Some p /\ h = p :: tl.
Proof.
  intros jnt_roots meshes r h Hrun.
  destruct (choose_root_In _ _ _ _ Hrun) as [items [Hitems [Hin Hne]]].
  exact (proj2 (proj2 (for_meshes_well_keyed _ _ _ Hitems) r h Hin) Hne).
Qed.

Lemma keys_set_entry (name : string) (p : option Plan) (d : PartitionsData) :
  ~ In name (map fst d) -> map fst (set_entry name p d) = map fst d ++ [name].
Proof.
  intros Hnot. unfold set_entry.
  assert (Hex : existsb (fun kv : string * option Plan => String.eqb (fst kv) name) d = false).
  { destruct (existsb _ d) eqn:Hex; [| reflexivity].
    apply existsb_exists in Hex as [kv [Hin Heq]]. apply String.eqb_eq in Heq.
    exfalso. apply Hnot. apply in_map_iff. exists kv. split; assumption. }
  rewrite Hex. destruct p as [plan |].
  - rewrite map_map.
    replace (map fst d ++ [name]) with (map fst (d ++ [(name, @None Plan)]))
      by (rewrite map_app; reflexivity).
    apply map_ext_in. intros kv _. destruct (String.eqb (fst kv) name) eqn:Heq.
    + apply String.eqb_eq in Heq. symmetry. exact Heq.
    + reflexivity.
  - rewrite map_app. reflexivity.
Qed.

Lemma plan_partitions_keys :
  forall jnt_roots parts pd0 pd,
    for_each (plan_partition host fuel jnt_roots) parts pd0 = Ok pd ->
    NoDup (map fst parts) ->
    (forall n, In n (map fst parts) -> ~ In n (map fst pd0)) ->
    map fst pd
    = map fst pd0 ++ map fst (filter (fun e => enabled (snd e)) parts).
Proof.
  induction parts as [| [name data] parts IH]; intros pd0 pd Hrun Hnd Hfresh.
  - inversion Hrun; subst. simpl. rewrite app_nil_r. reflexivity.
  - simpl in Hrun. apply bind_Ok_inv in Hrun as [pd1 [Hone Hrest]].
    simpl in Hnd. inversion Hnd as [| n ns Hnotin Hnd']; subst.
    unfold plan_partition in Hone. simpl filter. destruct (enabled data) eqn:Hen.
    + cbn [negb snd] in Hone. apply bind_Ok_inv in Hone as [chosen [_ Hentry]].
      assert (Hkeys : map fst pd1 = map fst pd0 ++ [name]).
      { destruct chosen as [[r h] |].
        - apply bind_Ok_inv in Hentry as [final [_ Hpd1]].
          injection Hpd1 as Hpd1. subst pd1.
          exact (keys_set_entry name (Some {| root := r; hierarchy := final |}) pd0
                   (Hfresh name (or_introl eq_refl))).
        - injection Hentry as Hentry. subst pd1.
          exact (keys_set_entry name None pd0 (Hfresh name (or_introl eq_refl))). }
      rewrite (IH pd1 pd Hrest Hnd').
      * rewrite Hkeys, <- app_assoc. reflexivity.
      * intros n Hn. rewrite Hkeys. intros Hin.
        apply in_app_or in Hin as [Hin | [<- | []]].
        -- exact (Hfresh n (or_intror Hn) Hin).
        -- exact (Hnotin Hn).
    + cbn [negb snd] in Hone. inversion Hone; subst pd1.
      apply (IH pd0 pd Hrest Hnd').
      intros n Hn. apply Hfresh. right. exact Hn.
Qed.

(** When the planner ends normally, [partitions_data] has one entry for
    each enabled partition, in the order of [partitions], and none for a
    disabled one. *)
Theorem plan_has_the_enabled_partitions_in_order :
  forall jnt_roots parts pd,
    NoDup (map fst parts) ->
    plan_partitions host fuel jnt_roots parts = Ok pd ->
    map fst pd = map fst (filter (fun e => enabled (snd e)) parts).
Proof.
  intros jnt_roots parts pd Hnd Hrun.
  exact (plan_partitions_keys jnt_roots parts [] pd Hrun Hnd (fun n _ Hin => Hin)).
Qed.

Lemma plan_partitions_all_disabled :
  forall jnt_roots parts pd0,
    (forall name data, In (name, data) parts -> enabled data = false) ->
    for_each (plan_partition host fuel jnt_roots) parts pd0 = Ok pd0.
Proof.
  induction parts as [| [name data] parts IH]; intros pd0 Hoff; simpl.
  - reflexivity.
  - unfold plan_partition at 1. rewrite (Hoff name data (or_introl eq_refl)). simpl.
    apply IH. intros n d Hin. exact (Hoff n d (or_intror Hin)).
Qed.

End HierarchyShape.

Lemma no_duplicate_in_the_glove_hierarchies :
  (forall items r h,
     for_meshes Examples.glove_host 10 ["Root"; "Spine"] (Some ["|Glove"; "|Glove"]) = Ok items ->
     In (r, h) items -> NoDup h) /\
  NoDup ["|Root|Spine"; "|Root|Spine|Arm"; "|Root|Spine|Arm|Hand"].
Proof.
  destruct (induced_hierarchies_have_no_duplicate Examples.glove_host 10
              ["Root"; "Spine"] (Some ["|Glove"; "|Glove"])) as [Hitems Hchosen].
  split; [exact Hitems |].
  apply (Hchosen "Spine"). reflexivity.
Defined.

Lemma Spine_hierarchy_starts_at_Spine :
  choose_root Examples.glove_host 10 ["Root"; "Spine"] (Some ["|Glove"])
  = Ok (Some ("Spine", ["|Root|Spine"; "|Root|Spine|Arm"; "|Root|Spine|Arm|Hand"])) /\
  exists p tl,
    full_path Examples.glove_host "Spine" = Some p /\
    ["|Root|Spine"; "|Root|Spine|Arm"; "|Root|Spine|Arm|Hand"] = p :: tl.
Proof.
  split; [reflexivity |].
  apply (chosen_hierarchy_starts_at_its_candidate_root Examples.glove_host 10
           ["Root"; "Spine"] (Some ["|Glove"]) "Spine").
  reflexivity.
Defined.

Lemma plan_of_the_outfit_without_Hat :
  NoDup ["Glove"; "Hat"; "Boot"] /\
  map fst
    [("Glove", Some Examples.glove_plan); ("Boot", Some Examples.boot_plan)]
  = map fst
      (filter (fun e : string * PartitionData => enabled (snd e))
         [("Glove", {| enabled := true; skeletal_meshes := Some ["|Glove"] |});
          ("Hat", {| enabled := false; skeletal_meshes := None |});
          ("Boot", {| enabled := true; skeletal_meshes := Some ["|Boot"] |})]).
Proof.
  assert (Hnd : NoDup ["Glove"; "Hat"; "Boot"]).
  { constructor; [intros [H | [H | []]]; discriminate |].
    constructor; [intros [H | []]; discriminate |].
    constructor; [intros [] | constructor]. }
  split; [exact Hnd |].
  apply (plan_has_the_enabled_partitions_in_order
           (scene_host Examples.outfit_skin Examples.outfit_scene) 10 ["Root"]
           [("Glove", {| enabled := true; skeletal_meshes := Some ["|Glove"] |});
            ("Hat", {| enabled := false; skeletal_meshes := None |});
            ("Boot", {| enabled := true; skeletal_meshes := Some ["|Boot"] |})]
           [("Glove", Some Examples.glove_plan); ("Boot", Some Examples.boot_plan)]).
  - exact Hnd.
  - reflexivity.
Defined.

(* ================================================================== *)
(** * PartitionExecutor: further properties *)
(* ================================================================== *)

Lemma cbind_Ok_inv {A B} (c : Cmd A) (k : A -> Cmd B) (s s' : Session) (b : B) :
  cbind c k s = (Ok b, s') ->
  exists a s1, c s = (Ok a, s1) /\ k a s1 = (Ok b, s').
Proof.
  unfold cbind. destruct (c s) as [[a | e |] s1]; intros H; try discriminate.
  exists a, s1. split; [reflexivity | exact H].
Qed.

Lemma in_subtree_self (p : string) : in_subtree p p = true.
Proof. unfold in_subtree. rewrite String.eqb_refl. reflexivity. Qed.

(** A deletion loop that ends normally leaves no node under a name it
    passed that was not to keep, and adds none. *)
Lemma delete_loop_Ok (keep : list string) :
  forall l s s',
    cfor (fun x => if negb (mem x keep) then cmds_delete x else ret tt) l s = (Ok tt, s') ->
    incl (scene s') (scene s) /\
    forall x, In x l -> mem x keep = false ->
              forall n, In n (scene s') -> path n <> x.
Proof.
  induction l as [| y l IH]; intros s s' Hrun.
  - inversion Hrun; subst. split; [apply incl_refl | intros x []].
  - simpl in Hrun. apply cbind_Ok_inv in Hrun as [[] [s1 [Hy Hrest]]].
    destruct (IH s1 s' Hrest) as [Hincl Hgone].
    assert (Hstep : incl (scene s1) (scene s) /\
                    (mem y keep = false -> forall n, In n (scene s1) -> path n <> y)).
    { destruct (mem y keep) eqn:Hmem; simpl in Hy.
      - inversion Hy; subst. split; [apply incl_refl | discriminate].
      - unfold cmds_delete, cbind, get_scene in Hy.
        destruct (node_exists (scene s) y); [| discriminate].
        inversion Hy; subst; simpl. split.
        + intros n Hn. apply filter_In in Hn. exact (proj1 Hn).
        + intros _ n Hn Hpath. apply filter_In in Hn as [_ Hout].
          rewrite Hpath, in_subtree_self in Hout. discriminate. }
    destruct Hstep as [Hincl1 Hgone1]. split.
    + intros n Hn. exact (Hincl1 n (Hincl n Hn)).
    + intros x [<- | Hx] Hmem n Hn.
      * exact (Hgone1 Hmem n (Hincl n Hn)).
      * exact (Hgone x Hx Hmem n Hn).
Qed.

Lemma cmds_file_open_keeps_exported (P : list (string * list string) -> Prop)
  (scene_path : string) :
  preserves (fun s => P (exported s)) (cmds_file_open scene_path).
Proof.
  intros s r s' HQ Hrun. unfold cmds_file_open in Hrun.
  destruct (find (fun kv => String.eqb (fst kv) scene_path) (files s)) as [kv |];
    inversion Hrun; subst; exact HQ.
Qed.

Lemma cmds_delete_keeps_exported (P : list (string * list string) -> Prop) (p : string) :
  preserves (fun s => P (exported s)) (cmds_delete p).
Proof.
  intros s r s' HQ Hrun. unfold cmds_delete, cbind, get_scene in Hrun.
  destruct (node_exists (scene s) p); inversion Hrun; subst; exact HQ.
Qed.

Lemma delete_meshes_keeps_exported (P : list (string * list string) -> Prop)
  partition_meshes :
  preserves (fun s => P (exported s)) (delete_meshes partition_meshes).
Proof.
  unfold delete_meshes. apply preserves_cbind.
  - intros s r s' HQ Hrun. inversion Hrun; subst. exact HQ.
  - intros sc. apply preserves_cfor. intros x _.
    destruct partition_meshes as [pm |]; [| apply preserves_lift].
    destruct (negb (mem x pm)); [apply cmds_delete_keeps_exported | apply preserves_ret].
Qed.

Lemma delete_joints_keeps_exported (P : list (string * list string) -> Prop)
  partition_joints :
  preserves (fun s => P (exported s)) (delete_joints partition_joints).
Proof.
  unfold delete_joints. apply preserves_cbind.
  - intros s r s' HQ Hrun. inversion Hrun; subst. exact HQ.
  - intros sc. apply preserves_cfor. intros x _.
    destruct (negb (mem x partition_joints));
      [apply cmds_delete_keeps_exported | apply preserves_ret].
Qed.

Section ExecutorShape.

Variable maya : Scene -> Host.
Variable fuel : nat.
Variable pfbx_settings : ExportData -> Outcome unit.
Variable pfbx_FBXExport : string -> list string -> Scene -> Outcome unit.

(** An attempt either records the export of the joints and the meshes, or
    leaves the session as it was. *)
Lemma export_attempt_cases :
  forall export_data export_path partition_joints partition_meshes s r s',
    export_attempt pfbx_settings pfbx_FBXExport export_data export_path
      partition_joints partition_meshes s = (r, s') ->
    s' = s \/
    exists pm, partition_meshes = Some pm /\
               scene s' = scene s /\
               exported s' = exported s ++ [(export_path, partition_joints ++ pm)].
Proof.
  intros export_data export_path partition_joints partition_meshes s r s' Hrun.
  unfold export_attempt, cbind, lift, get_scene in Hrun.
  destruct (call (pfbx_settings export_data)) as [[] | e0 |];
    [| inversion Hrun; left; reflexivity | inversion Hrun; left; reflexivity].
  destruct partition_meshes as [pm |]; [| inversion Hrun; left; reflexivity].
  destruct (cmds_select (partition_joints ++ pm) s) as [[[] | e1 |] s1] eqn:Hsel;
    apply cmds_select_unchanged in Hsel; subst s1;
    [| inversion Hrun; left; reflexivity | inversion Hrun; left; reflexivity].
  destruct (call (pfbx_FBXExport export_path (partition_joints ++ pm) (scene s)))
    as [[] | e2 |];
    [| inversion Hrun; left; reflexivity | inversion Hrun; left; reflexivity].
  inversion Hrun; subst. right. exists pm.
  split; [reflexivity |]. split; reflexivity.
Qed.

Lemma execute_partition_exports :
  forall export_data scene_path name plan s r s',
    execute_partition pfbx_settings pfbx_FBXExport export_data scene_path
      (name, Some plan) s = (r, s') ->
    exported s' = exported s \/
    exists pm,
      partition_meshes_of export_data name = Ok (Some pm) /\
      exported s'
      = exported s ++ [(export_path_of export_data name, hierarchy plan ++ pm)].
Proof.
  intros export_data scene_path name plan s r s' Hrun.
  unfold execute_partition, cbind at 1, lift in Hrun.
  destruct (partition_meshes_of export_data name) as [partition_meshes | e |] eqn:Hpm;
    [| inversion Hrun; left; reflexivity | inversion Hrun; left; reflexivity].
  unfold cbind at 1 in Hrun.
  destruct (cmds_file_open scene_path s) as [[[] | e |] s1] eqn:Hopen;
    pose proof (cmds_file_open_keeps_exported (fun x => x = exported s) scene_path
                  s _ s1 eq_refl Hopen) as H1;
    [| inversion Hrun; subst; left; exact H1 | inversion Hrun; subst; left; exact H1].
  unfold prune_and_export, cbind at 1 in Hrun.
  destruct (delete_meshes partition_meshes s1) as [[[] | e |] s2] eqn:Hmeshes;
    pose proof (delete_meshes_keeps_exported (fun x => x = exported s) partition_meshes
                  s1 _ s2 H1 Hmeshes) as H2;
    [| inversion Hrun; subst; left; exact H2 | inversion Hrun; subst; left; exact H2].
  unfold cbind at 1 in Hrun.
  destruct (delete_joints (hierarchy plan) s2) as [[[] | e |] s3] eqn:Hjoints;
    pose proof (delete_joints_keeps_exported (fun x => x = exported s) (hierarchy plan)
                  s2 _ s3 H2 Hjoints) as H3;
    [| inversion Hrun; subst; left; exact H3 | inversion Hrun; subst; left; exact H3].
  unfold export_partition, cbind at 1 in Hrun. rewrite print_scene in Hrun.
  unfold try_except in Hrun.
  match type of Hrun with
  | context [export_attempt ?a ?b ?c ?d ?e ?f ?t] =>
      destruct (export_attempt a b c d e f t) as [ra sa] eqn:Hattempt
  end.
  destruct (export_attempt_cases _ _ _ _ _ _ _ Hattempt) as [Hsame | [pm [Hsome [_ Hadded]]]].
  - left. subst sa. destruct ra as [[] | e |]; inversion Hrun; subst; exact H3.
  - subst partition_meshes. simpl in Hadded. rewrite H3 in Hadded.
    destruct ra as [[] | e |]; inversion Hrun; subst;
      right; exists pm; (split; [reflexivity | exact Hadded]).
Qed.

(** What the executor hands to the exporter.  The records already there
    stay, also when the run ends with an exception; each record added is
    the export of a partition that has a plan: its file is
    [file_name_<partition>.fbx] under [file_path], its selection the
    hierarchy of the plan followed by the meshes of the partition. *)
Theorem executor_records_planned_partitions_only :
  forall export_data scene_path partitions_data s,
    exists added,
      exported (snd (execute_partitions pfbx_settings pfbx_FBXExport export_data
                       scene_path partitions_data s))
      = exported s ++ added /\
      Forall (fun record =>
                exists name plan pm,
                  In (name, Some plan) partitions_data /\
                  partition_meshes_of export_data name = Ok (Some pm) /\
                  record = (export_path_of export_data name, hierarchy plan ++ pm))
             added.
Proof.
  intros export_data scene_path partitions_data. unfold execute_partitions.
  induction partitions_data as [| [name entry] partitions_data IH]; intros s.
  - exists []. simpl. rewrite app_nil_r. split; [reflexivity | constructor].
  - cbn [cfor]. unfold cbind at 1.
    destruct (execute_partition pfbx_settings pfbx_FBXExport export_data scene_path
                (name, entry) s) as [r s1] eqn:Hone.
    assert (Hfirst : exists a1,
               exported s1 = exported s ++ a1 /\
               Forall (fun record =>
                         exists name0 plan pm,
                           In (name0, Some plan) ((name, entry) :: partitions_data) /\
                           partition_meshes_of export_data name0 = Ok (Some pm) /\
                           record = (export_path_of export_data name0, hierarchy plan ++ pm))
                      a1).
    { destruct entry as [plan |].
      - destruct (execute_partition_exports _ _ _ _ _ _ _ Hone) as [Hsame | [pm [Hpm Hadd]]].
        + exists []. rewrite app_nil_r. split; [exact Hsame | constructor].
        + exists [(export_path_of export_data name, hierarchy plan ++ pm)].
          split; [exact Hadd |]. constructor; [| constructor].
          exists name, plan, pm. split; [left; reflexivity |]. split; [exact Hpm | reflexivity].
      - inversion Hone; subst. exists []. simpl. rewrite app_nil_r.
        split; [reflexivity | constructor]. }
    destruct Hfirst as [a1 [Ha1 Hall1]].
    destruct r as [[] | e |].
    + destruct (IH s1) as [a2 [Ha2 Hall2]].
      exists (a1 ++ a2). split.
      * rewrite Ha2, Ha1, app_assoc. reflexivity.
      * apply Forall_app. split; [exact Hall1 |].
        apply (Forall_impl _ (P := fun record =>
                 exists name0 plan pm,
                   In (name0, Some plan) partitions_data /\
                   partition_meshes_of export_data name0 = Ok (Some pm) /\
                   record = (export_path_of export_data name0, hierarchy plan ++ pm)));
          [| exact Hall2].
        intros record [n [pl [pm [Hin Hrest]]]]. exists n, pl, pm.
        split; [right; exact Hin | exact Hrest].
    + exists a1. split; [exact Ha1 | exact Hall1].
    + exists a1. split; [exact Ha1 | exact Hall1].
Qed.

Lemma _export_skeletal_mesh_partitions_keeps_files (P : list (string * Scene) -> Prop) :
  forall jnt_roots export_data scene_path,
    preserves (fun t => P (files t))
      (_export_skeletal_mesh_partitions maya fuel pfbx_settings pfbx_FBXExport
         jnt_roots export_data scene_path).
Proof.
  intros jnt_roots export_data scene_path.
  unfold _export_skeletal_mesh_partitions.
  destruct (partitions export_data) as [| p ps].
  - apply preserves_cbind; [| intros _; apply preserves_ret].
    intros t r t' HQ Hrun. inversion Hrun; subst. exact HQ.
  - apply preserves_cbind.
    { intros t r t' HQ Hrun. inversion Hrun; subst. exact HQ. }
    intros sc. apply preserves_cbind; [apply preserves_lift | intros pd].
    apply preserves_cbind; [| intros _; apply preserves_ret].
    unfold execute_partitions. apply preserves_cfor. intros entry _.
    apply (execute_partition_keeps_files pfbx_settings pfbx_FBXExport P).
Qed.

(** With no partition declared the pass returns [False]; with partitions
    that are all disabled it returns [True].  In both cases it has loaded,
    deleted and exported nothing: the open scene, the scene files and the
    exports on record are what they were. *)
Theorem pass_with_nothing_enabled :
  forall jnt_roots export_data scene_path s,
    (forall name data, In (name, data) (partitions export_data) -> enabled data = false) ->
    let after := _export_skeletal_mesh_partitions maya fuel pfbx_settings pfbx_FBXExport
                   jnt_roots export_data scene_path s in
    fst after = Ok (match partitions export_data with [] => false | _ => true end) /\
    scene (snd after) = scene s /\
    files (snd after) = files s /\
    exported (snd after) = exported s.
Proof.
  intros jnt_roots export_data scene_path s Hoff after.
  assert (Hrun : after
                 = match partitions export_data with
                   | [] => (Ok false, snd (print "  Partitions not defined!" s))
                   | _ => (Ok true, s)
                   end).
  { subst after. unfold _export_skeletal_mesh_partitions.
    destruct (partitions export_data) as [| p ps] eqn:Hparts; [reflexivity |].
    unfold cbind at 1, get_scene. unfold cbind at 1, lift.
    unfold plan_partitions.
    rewrite (plan_partitions_all_disabled (maya (scene s)) fuel jnt_roots (p :: ps) [] Hoff).
    reflexivity. }
  rewrite Hrun. destruct (partitions export_data); repeat split; reflexivity.
Qed.

(** Once a partition was executed to its end, the open scene holds nodes
    of the snapshot only, its meshes are all in the mesh set of the
    partition and its joints all in the hierarchy of the plan. *)
Theorem executed_partition_holds_its_meshes_and_joints_only :
  forall export_data scene_path name plan pm snapshot s s',
    stored s scene_path = Some snapshot ->
    partition_meshes_of export_data name = Ok (Some pm) ->
    execute_partition pfbx_settings pfbx_FBXExport export_data scene_path
      (name, Some plan) s = (Ok tt, s') ->
    incl (scene s') snapshot /\
    forall n, In n (scene s') ->
      (kind n = Mesh -> In (path n) pm) /\
      (kind n = Joint -> In (path n) (hierarchy plan)).
Proof.
  intros export_data scene_path name plan pm snapshot s s' Hstored Hpm Hrun.
  unfold execute_partition, cbind at 1, lift in Hrun. rewrite Hpm in Hrun.
  unfold cbind at 1 in Hrun. rewrite (cmds_file_open_stored _ _ _ Hstored) in Hrun.
  unfold prune_and_export in Hrun.
  apply cbind_Ok_inv in Hrun as [[] [s1 [Hmeshes Hrun]]].
  apply cbind_Ok_inv in Hrun as [[] [s2 [Hjoints Hexport]]].
  unfold delete_meshes, cbind, get_scene in Hmeshes.
  unfold delete_joints, cbind, get_scene in Hjoints.
  destruct (delete_loop_Ok pm _ _ _ Hmeshes) as [Hincl1 Hgone1].
  destruct (delete_loop_Ok (hierarchy plan) _ _ _ Hjoints) as [Hincl2 Hgone2].
  assert (Hscene : scene s' = scene s2).
  { exact (export_partition_keeps pfbx_settings pfbx_FBXExport
             (fun sc _ => sc = scene s2) export_data name (hierarchy plan) (Some pm)
             s2 (Ok tt) s' eq_refl Hexport). }
  rewrite Hscene. split.
  - intros n Hn. exact (Hincl1 n (Hincl2 n Hn)).
  - intros n Hn. split; intros Hkind.
    + destruct (mem (path n) pm) eqn:Hmem; [apply mem_In; exact Hmem |].
      exfalso. apply (Hgone1 (path n)) with (n := n).
      * unfold _get_all_mesh_dag_objects. apply in_map. apply filter_In.
        split; [exact (Hincl1 n (Hincl2 n Hn)) | rewrite Hkind; reflexivity].
      * exact Hmem.
      * exact (Hincl2 n Hn).
      * reflexivity.
    + destruct (mem (path n) (hierarchy plan)) eqn:Hmem; [apply mem_In; exact Hmem |].
      exfalso. apply (Hgone2 (path n)) with (n := n).
      * apply -> in_rev. unfold _get_all_joint_dag_objects. apply in_map. apply filter_In.
        split; [exact (Hincl2 n Hn) | rewrite Hkind; reflexivity].
      * exact Hmem.
      * exact Hn.
      * reflexivity.
Qed.

End ExecutorShape.

(** The partition [Hat] is disabled: the pass returns [True] and the outfit
    scene is still open. *)
Lemma pass_with_Hat_disabled :
  let after :=
    _export_skeletal_mesh_partitions (scene_host Examples.outfit_skin) 10
      Examples.settings_ok Examples.export_ok ["Root"]
      (Examples.export_data_of [("Hat", {| enabled := false; skeletal_meshes := None |})])
      Examples.conditioned_file (Examples.session_on Examples.outfit_scene) in
  fst after = Ok true /\
  scene (snd after) = Examples.outfit_scene /\
  files (snd after) = [(Examples.conditioned_file, Examples.outfit_scene)] /\
  exported (snd after) = [].
Proof.
  apply (pass_with_nothing_enabled (scene_host Examples.outfit_skin) 10
           Examples.settings_ok Examples.export_ok ["Root"]
           (Examples.export_data_of [("Hat", {| enabled := false; skeletal_meshes := None |})])
           Examples.conditioned_file (Examples.session_on Examples.outfit_scene)).
  intros name data [Heq | []]. inversion Heq. reflexivity.
Defined.

Lemma scene_left_by_Glove :
  Examples.after_glove
  = (Ok tt,
     {| scene := [ {| path := "|Root"; kind := Joint |};
                   {| path := "|Glove"; kind := Mesh |};
                   {| path := "|Root|Hand"; kind := Joint |} ];
        files := [(Examples.conditioned_file, Examples.outfit_scene)];
        exported := [("out/char_Glove.fbx", ["|Root"; "|Root|Hand"; "|Glove"])];
        console := ["out/char_Glove.fbx"] |}) /\
  incl (scene (snd Examples.after_glove)) Examples.outfit_scene /\
  forall n, In n (scene (snd Examples.after_glove)) ->
    (kind n = Mesh -> In (path n) ["|Glove"]) /\
    (kind n = Joint -> In (path n) (hierarchy Examples.glove_plan)).
Proof.
  split; [reflexivity |].
  apply (executed_partition_holds_its_meshes_and_joints_only
           Examples.settings_ok Examples.export_ok
           Examples.outfit_export_data Examples.conditioned_file
           "Glove" Examples.glove_plan ["|Glove"] Examples.outfit_scene
           (Examples.session_on Examples.outfit_scene) (snd Examples.after_glove)).
  - reflexivity.
  - reflexivity.
  - reflexivity.
Defined.

(* ================================================================== *)
(** * perform_fbx_condition: the conditioned file *)
(* ================================================================== *)

Lemma last_char_app (s t : string) :
  last_char (s ++ t)
  = match last_char t with
    | Some d => Some d
    | None => last_char s
    end.
Proof.
  induction s as [| c s IH]; simpl.
  - destruct (last_char t); reflexivity.
  - rewrite IH. destruct (last_char t); reflexivity.
Qed.

Lemma conditioned_file_last_char (master_fbx_path : string) :
  last_char (conditioned_file_of master_fbx_path) = Some "a"%char.
Proof. unfold conditioned_file_of. rewrite last_char_app. reflexivity. Qed.

Lemma export_path_last_char (export_data : ExportData) (partition_name : string) :
  last_char (export_path_of export_data partition_name) = Some "x"%char.
Proof.
  assert (Hname : forall f, last_char (f ++ "_" ++ partition_name ++ ".fbx") = Some "x"%char).
  { intros f. rewrite last_char_app. simpl. rewrite last_char_app. reflexivity. }
  unfold export_path_of, os_path_join.
  destruct (String.prefix "/" _); [apply Hname |].
  destruct (_ || _).
  - rewrite last_char_app, Hname. reflexivity.
  - rewrite last_char_app. simpl. rewrite Hname. reflexivity.
Qed.

(** The file a partition is exported to is never the conditioned file,
    whatever the master path, the output directory, the file name and the
    partition name are: the one ends in [.fbx], the other in [.ma]. *)
Theorem export_never_goes_to_the_conditioned_file :
  forall master_fbx_path export_data partition_name,
    export_path_of export_data partition_name <> conditioned_file_of master_fbx_path.
Proof.
  intros master_fbx_path export_data partition_name Heq.
  pose proof (export_path_last_char export_data partition_name) as Hx.
  rewrite Heq, conditioned_file_last_char in Hx. discriminate.
Qed.

Lemma find_after_filter (name : string) :
  forall fs : list (string * Scene),
    find (fun kv => String.eqb (fst kv) name)
         (filter (fun kv => negb (String.eqb (fst kv) name)) fs) = None.
Proof.
  induction fs as [| kv fs IH]; simpl; [reflexivity |].
  destruct (String.eqb (fst kv) name) eqn:Heq; simpl; [exact IH |].
  rewrite Heq. exact IH.
Qed.

Section PartitionStageFacts.

Variable maya : Scene -> Host.
Variable fuel : nat.
Variable pfbx_settings : ExportData -> Outcome unit.
Variable pfbx_FBXExport : string -> list string -> Scene -> Outcome unit.

(** The partition stage of [perform_fbx_condition].  When the pass over
    the partitions returns, a new scene is opened and the conditioned file
    is removed from the disk.  When the pass raises, the stage raises the
    same exception at once: the conditioned file stays on the disk, with
    the scene it was written from. *)
Theorem conditioned_file_is_removed_unless_the_pass_raises :
  forall export_data root_joint conditioned_file s r s1,
    _export_skeletal_mesh_partitions maya fuel pfbx_settings pfbx_FBXExport
      [root_joint] export_data conditioned_file (conditioned_session conditioned_file s)
    = (r, s1) ->
    (forall b, r = Ok b ->
       perform_fbx_condition_partitions maya fuel pfbx_settings pfbx_FBXExport
         true (Some export_data) root_joint conditioned_file s
       = (Ok tt,
          {| scene := new_scene;
             files := filter (fun kv => negb (String.eqb (fst kv) conditioned_file)) (files s1);
             exported := exported s1;
             console := console s1 |}) /\
       stored
         (snd (perform_fbx_condition_partitions maya fuel pfbx_settings pfbx_FBXExport
                 true (Some export_data) root_joint conditioned_file s))
         conditioned_file = None) /\
    (forall e, r = Raise e ->
       perform_fbx_condition_partitions maya fuel pfbx_settings pfbx_FBXExport
         true (Some export_data) root_joint conditioned_file s
       = (Raise e, s1) /\
       stored s1 conditioned_file = Some (scene s)).
Proof.
  intros export_data root_joint conditioned_file s r s1 Hpass.
  assert (Hfiles : files s1 = files (conditioned_session conditioned_file s)).
  { exact (_export_skeletal_mesh_partitions_keeps_files maya fuel pfbx_settings
             pfbx_FBXExport
             (fun f => f = files (conditioned_session conditioned_file s))
             [root_joint] export_data conditioned_file _ r s1 eq_refl Hpass). }
  assert (Hstage :
    perform_fbx_condition_partitions maya fuel pfbx_settings pfbx_FBXExport
      true (Some export_data) root_joint conditioned_file s
    = match r with
      | Ok _ =>
          (Ok tt,
           {| scene := new_scene;
              files := filter (fun kv => negb (String.eqb (fst kv) conditioned_file)) (files s1);
              exported := exported s1;
              console := console s1 |})
      | Raise e => (Raise e, s1)
      | OutOfFuel => (OutOfFuel, s1)
      end).
  { unfold perform_fbx_condition_partitions.
    unfold cbind at 1. rewrite print_scene.
    unfold cbind at 1. rewrite print_scene.
    unfold cbind at 1, cmds_file_save_as.
    cbn [scene files exported console].
    rewrite <- app_assoc.
    change (_export_skeletal_mesh_partitions maya fuel pfbx_settings pfbx_FBXExport
              [root_joint] export_data conditioned_file
              (conditioned_session conditioned_file s) = (r, s1)) in Hpass.
    unfold conditioned_session in Hpass. cbn [app] in Hpass |- *.
    unfold cbind at 1. rewrite Hpass.
    destruct r as [b | e |]; [| reflexivity | reflexivity].
    unfold cbind, cmds_file_new, set_scene, os_path_exists. cbn [files].
    rewrite Hfiles. unfold conditioned_session. cbn [files existsb fst].
    rewrite String.eqb_refl. reflexivity. }
  split.
  - intros b ->. split; [exact Hstage |].
    rewrite Hstage. unfold stored. cbn [snd files]. rewrite find_after_filter. reflexivity.
  - intros e ->. split; [exact Hstage |].
    unfold stored. rewrite Hfiles. unfold conditioned_session. cbn [files find fst].
    rewrite String.eqb_refl. reflexivity.
Qed.

End PartitionStageFacts.

Lemma conditioned_file_of_the_outfit :
  fst StageExamples.outfit_pass = Ok true /\
  stored
    (snd (perform_fbx_condition_partitions (scene_host Examples.outfit_skin) 10
            Examples.settings_ok Examples.export_ok true
            (Some Examples.outfit_export_data) "Root" Examples.conditioned_file
            (Examples.session_on Examples.outfit_scene)))
    Examples.conditioned_file = None /\
  fst StageExamples.outfit_pass_failing
  = Raise (RuntimeError "Something wrong happened while export Partition Glove") /\
  fst (perform_fbx_condition_partitions (scene_host Examples.outfit_skin) 10
         Examples.settings_ok (Examples.export_fails_on "out/char_Glove.fbx") true
         (Some Examples.outfit_export_data) "Root" Examples.conditioned_file
         (Examples.session_on Examples.outfit_scene))
  = Raise (RuntimeError "Something wrong happened while export Partition Glove") /\
  stored (snd StageExamples.outfit_pass_failing) Examples.conditioned_file
  = Some Examples.outfit_scene.
Proof.
  assert (Hok : fst StageExamples.outfit_pass = Ok true) by (vm_compute; reflexivity).
  assert (Hfail : fst StageExamples.outfit_pass_failing
                  = Raise (RuntimeError "Something wrong happened while export Partition Glove"))
    by (vm_compute; reflexivity).
  split; [exact Hok |]. split.
  - exact (proj2 (proj1 (conditioned_file_is_removed_unless_the_pass_raises
                           (scene_host Examples.outfit_skin) 10
                           Examples.settings_ok Examples.export_ok
                           Examples.outfit_export_data "Root" Examples.conditioned_file
                           (Examples.session_on Examples.outfit_scene)
                           (fst StageExamples.outfit_pass) (snd StageExamples.outfit_pass)
                           (surjective_pairing StageExamples.outfit_pass))
                    true Hok)).
  - split; [exact Hfail |].
    destruct (proj2 (conditioned_file_is_removed_unless_the_pass_raises
                       (scene_host Examples.outfit_skin) 10
                       Examples.settings_ok (Examples.export_fails_on "out/char_Glove.fbx")
                       Examples.outfit_export_data "Root" Examples.conditioned_file
                       (Examples.session_on Examples.outfit_scene)
                       (fst StageExamples.outfit_pass_failing)
                       (snd StageExamples.outfit_pass_failing)
                       (surjective_pairing StageExamples.outfit_pass_failing))
                _ Hfail) as [Hrun Hstored].
    split; [rewrite Hrun; reflexivity | exact Hstored].
Defined.

(* ================================================================== *)
(** * perform_fbx_condition: names without namespace *)
(* ================================================================== *)

Lemma split_not_nil (sep : ascii) (s : string) : split sep s <> [].
Proof.
  destruct s as [| c s]; simpl; [discriminate |].
  destruct (Ascii.eqb c sep); [discriminate |].
  destruct (split sep s); discriminate.
Qed.

Lemma split_without_separator (sep : ascii) :
  forall s, contains sep s = false -> split sep s = [s].
Proof.
  induction s as [| c s IH]; simpl; intros Hno; [reflexivity |].
  apply orb_false_iff in Hno as [Hc Hs].
  rewrite Hc, (IH Hs). reflexivity.
Qed.

Lemma split_segments (sep : ascii) :
  forall s w, In w (split sep s) -> contains sep w = false.
Proof.
  induction s as [| c s IH]; simpl; intros w Hin.
  - destruct Hin as [<- | []]. reflexivity.
  - destruct (Ascii.eqb c sep) eqn:Hc.
    + destruct Hin as [<- | Hin]; [reflexivity | exact (IH w Hin)].
    + destruct (split sep s) as [| w0 ws] eqn:Hsplit.
      * destruct Hin as [<- | []]. simpl. rewrite Hc. reflexivity.
      * destruct Hin as [<- | Hin].
        -- simpl. rewrite Hc. apply IH. left. reflexivity.
        -- apply IH. right. exact Hin.
Qed.

Lemma split_app (sep : ascii) :
  forall a b, split sep (a ++ String sep b) = split sep a ++ split sep b.
Proof.
  induction a as [| c a IH]; intros b; simpl.
  - rewrite Ascii.eqb_refl. reflexivity.
  - destruct (Ascii.eqb c sep); [rewrite IH; reflexivity |].
    rewrite IH. destruct (split sep a) as [| w ws] eqn:Hsplit.
    + exfalso. exact (split_not_nil sep a Hsplit).
    + reflexivity.
Qed.

Lemma last_In {A} (l : list A) (d : A) : l <> [] -> In (last l d) l.
Proof.
  induction l as [| x l IH]; intros Hne; [congruence |].
  destruct l as [| y l]; [left; reflexivity |].
  right. apply IH. discriminate.
Qed.

Lemma last_app_not_nil {A} (l1 l2 : list A) (d : A) :
  l2 <> [] -> last (l1 ++ l2) d = last l2 d.
Proof.
  intros Hne. induction l1 as [| x l1 IH]; [reflexivity |].
  simpl. destruct (l1 ++ l2) eqn:Happ.
  - apply app_eq_nil in Happ. destruct Happ. contradiction.
  - exact IH.
Qed.

(** Line 72, [name.split(":")[-1]]: a name without colon is left as it is,
    the result holds no colon, so taking it again changes nothing, and of
    a name [ns:leaf] with a leaf without colon the leaf is kept. *)
Theorem name_without_namespace :
  (forall name, contains ":" name = false -> without_namespace name = name) /\
  (forall name, contains ":" (without_namespace name) = false) /\
  (forall name, without_namespace (without_namespace name) = without_namespace name) /\
  (forall ns leaf,
     contains ":" leaf = false -> without_namespace (ns ++ ":" ++ leaf) = leaf).
Proof.
  assert (Hfree : forall name, contains ":" name = false -> without_namespace name = name).
  { intros name Hno. unfold without_namespace.
    rewrite (split_without_separator _ _ Hno). reflexivity. }
  assert (Hclean : forall name, contains ":" (without_namespace name) = false).
  { intros name. unfold without_namespace.
    apply (split_segments ":" name). apply last_In. apply split_not_nil. }
  split; [exact Hfree |]. split; [exact Hclean |]. split.
  - intros name. apply Hfree. apply Hclean.
  - intros ns leaf Hno. unfold without_namespace. simpl append.
    rewrite split_app, last_app_not_nil by apply split_not_nil.
    rewrite (split_without_separator _ _ Hno). reflexivity.
Qed.

Lemma names_of_the_rig_without_namespace :
  names_after_namespaces true "rig:Root" ["rig:body:Glove"; "Boot"]
  = ("Root", ["Glove"; "Boot"]) /\
  without_namespace "Boot" = "Boot" /\
  without_namespace ("rig:body" ++ ":" ++ "Glove") = "Glove".
Proof.
  destruct name_without_namespace as [Hfree [_ [_ Hleaf]]].
  split; [reflexivity |]. split.
  - apply Hfree. reflexivity.
  - apply Hleaf. reflexivity.
Defined.

(* ================================================================== *)
(** * NamespaceNormalizer: further properties *)
(* ================================================================== *)

Lemma filter_filter {A} (f g : A -> bool) :
  forall l, filter f (filter g l) = filter (fun x => g x && f x) l.
Proof.
  induction l as [| x l IH]; simpl; [reflexivity |].
  destruct (g x); simpl; [| exact IH].
  destruct (f x); rewrite IH; reflexivity.
Qed.

Lemma substring_after_prefix :
  forall a b,
    String.substring (String.length a) (String.length (a ++ b) - String.length a) (a ++ b) = b.
Proof.
  induction a as [| c a IH]; intros b; simpl.
  - rewrite Nat.sub_0_r. apply substring_whole.
  - apply IH.
Qed.

Section NamespaceShape.

Variable DG : Type.
Variable MObject : Type.
Variable getNamespaces : DG -> list string.
Variable getNamespaceObjects : DG -> string -> list MObject.
Variable dg_name : DG -> MObject -> string.
Variable dg_namespace : DG -> MObject -> string.
Variable setName : MObject -> string -> DG -> DG.

(** [_get_scene_namespaces] gives the namespaces of the scene in the order
    Maya lists them, [:UI], [:shared] and [:root] left out and no other. *)
Theorem scene_namespaces_are_the_unreserved_ones :
  forall g,
    NoDup (getNamespaces g) ->
    _get_scene_namespaces DG getNamespaces g
    = filter (fun ns => negb (mem ns IGNORED_NAMESPACES)) (getNamespaces g).
Proof.
  intros g Hnd. unfold _get_scene_namespaces, IGNORED_NAMESPACES. simpl fold_left.
  rewrite (remove_if_present ":UI" _ Hnd).
  rewrite (remove_if_present ":shared" _ (NoDup_filter _ Hnd)).
  rewrite (remove_if_present ":root" _ (NoDup_filter _ (NoDup_filter _ Hnd))).
  rewrite !filter_filter. apply filter_ext. intros ns. unfold mem. simpl.
  rewrite (String.eqb_sym ns ":UI"), (String.eqb_sym ns ":shared"),
    (String.eqb_sym ns ":root").
  destruct (String.eqb ":UI" ns), (String.eqb ":shared" ns), (String.eqb ":root" ns);
    reflexivity.
Qed.

(** For a node whose name starts with the name of its namespace,
    [_remove_namespace] hands to [setName] what follows that prefix, and
    nothing else of the state changes. *)
Theorem remove_namespace_drops_the_prefix :
  forall st mobj rest,
    dg_name (graph _ _ st) mobj = (dg_namespace (graph _ _ st) mobj ++ rest)%string ->
    _remove_namespace DG MObject dg_name dg_namespace setName st mobj
    = {| graph := setName mobj rest (graph _ _ st);
         renames := renames _ _ st ++ [(mobj, rest)] |}.
Proof.
  intros st mobj rest Hname. unfold _remove_namespace, stripped_name, slice_from.
  rewrite Hname, substring_after_prefix. reflexivity.
Qed.

End NamespaceShape.

Lemma namespaces_of_the_rig_graph :
  NoDup (Examples.ns_getNamespaces Examples.rig_graph) /\
  _get_scene_namespaces Examples.NsGraph Examples.ns_getNamespaces Examples.rig_graph
  = [":rig"].
Proof.
  assert (Hnd : NoDup (Examples.ns_getNamespaces Examples.rig_graph)).
  { unfold Examples.ns_getNamespaces.
    constructor; [intros [H | [H | []]]; discriminate |].
    constructor; [intros [H | []]; discriminate |].
    constructor; [intros [] | constructor]. }
  split; [exact Hnd |].
  rewrite (scene_namespaces_are_the_unreserved_ones Examples.NsGraph
             Examples.ns_getNamespaces Examples.rig_graph Hnd).
  reflexivity.
Defined.

Lemma namespace_of_rig_Root_is_dropped :
  Examples.ns_name Examples.rig_graph 0 = ("rig" ++ ":Root")%string /\
  _remove_namespace Examples.NsGraph nat Examples.ns_name Examples.ns_namespace
    Examples.ns_setName {| graph := Examples.rig_graph; renames := [] |} 0
  = {| graph := {| Examples.spaces := [":UI"; ":shared"; ":rig"; ":rig:arm"];
                   Examples.node_names := ["Root"; "Glove"; "rig:arm:Hand"] |};
       renames := [(0, ":Root")] |}.
Proof.
  split; [reflexivity |].
  apply (remove_namespace_drops_the_prefix Examples.NsGraph nat Examples.ns_name
           Examples.ns_namespace Examples.ns_setName
           {| graph := Examples.rig_graph; renames := [] |} 0 ":Root").
  reflexivity.
Defined.

(* ================================================================== *)
(** * HierarchyCleaner: what the cleanup spares *)
(* ================================================================== *)

Lemma list_remove_In_Ok (x : string) :
  forall l, In x l -> exists l', list_remove x l = Ok l'.
Proof.
  induction l as [| y l IH]; intros Hin; [destruct Hin |].
  simpl. destruct (String.eqb y x) eqn:Hyx; [exists l; reflexivity |].
  destruct Hin as [-> | Hin]; [rewrite String.eqb_refl in Hyx; discriminate |].
  destruct (IH Hin) as [l' Hl']. rewrite Hl'. exists (y :: l'). reflexivity.
Qed.

(** On a list without repetition [l.remove(x)] leaves a list without
    repetition that does not hold [x]. *)
Lemma list_remove_NoDup (x : string) :
  forall l l',
    NoDup l -> list_remove x l = Ok l' ->
    NoDup l' /\ forall y, In y l' -> In y l /\ y <> x.
Proof.
  induction l as [| y0 l IH]; intros l' Hnd Hrun; simpl in Hrun; [discriminate |].
  inversion Hnd as [| y0' l0 Hnotin Hnd']; subst.
  destruct (String.eqb y0 x) eqn:Hyx.
  - apply String.eqb_eq in Hyx. subst y0. inversion Hrun; subst l'.
    split; [exact Hnd' |]. intros y Hy. split; [right; exact Hy |].
    intros ->. contradiction.
  - apply String.eqb_neq in Hyx.
    apply bind_Ok_inv in Hrun as [rest' [Hrest Hl']]. inversion Hl'; subst l'.
    destruct (IH rest' Hnd' Hrest) as [Hnd'' Hin'']. split.
    + constructor; [| exact Hnd'']. intros Hy0. apply Hnotin. exact (proj1 (Hin'' y0 Hy0)).
    + intros y [<- | Hy]; [split; [left; reflexivity | exact Hyx] |].
      destruct (Hin'' y Hy) as [Hl Hne]. split; [right; exact Hl | exact Hne].
Qed.

Lemma remove_all_NoDup :
  forall xs l l',
    NoDup l ->
    for_each (fun names i_o => list_remove i_o names) xs l = Ok l' ->
    NoDup l' /\ forall y, In y l' -> In y l /\ ~ In y xs.
Proof.
  induction xs as [| x xs IH]; intros l l' Hnd Hrun; simpl in Hrun.
  - inversion Hrun; subst. split; [exact Hnd |]. intros y Hy. split; [exact Hy | intros []].
  - apply bind_Ok_inv in Hrun as [l1 [Hx Hrest]].
    destruct (list_remove_NoDup x l l1 Hnd Hx) as [Hnd1 Hin1].
    destruct (IH l1 l' Hnd1 Hrest) as [Hnd' Hin']. split; [exact Hnd' |].
    intros y Hy. destruct (Hin' y Hy) as [Hy1 Hnot]. destruct (Hin1 y Hy1) as [Hl Hne].
    split; [exact Hl |]. intros [Heq | Hxs]; [congruence | exact (Hnot Hxs)].
Qed.

(** The loop over the keep paths always ends normally, changes nothing
    but the lines printed, and leaves no keep path in the list. *)
Lemma remove_kept_all :
  forall keeps names s,
    NoDup names ->
    exists names' s1,
      cfold remove_kept keeps names s = (Ok names', s1) /\
      scene s1 = scene s /\
      NoDup names' /\
      forall y, In y names' ->
        In y names /\ forall k, In k keeps -> y <> ("|" ++ k)%string.
Proof.
  induction keeps as [| k keeps IH]; intros names s Hnd.
  - exists names, s. split; [reflexivity |]. split; [reflexivity |].
    split; [exact Hnd |]. intros y Hy. split; [exact Hy | intros k0 []].
  - simpl. unfold cbind at 1, remove_kept at 1, try_except, lift.
    destruct (list_remove ("|" ++ k) names) as [names1 | e |] eqn:Hrm.
    + destruct (list_remove_NoDup _ _ _ Hnd Hrm) as [Hnd1 Hin1].
      destruct (IH names1 s Hnd1) as [names' [s1 [Hrun [Hscene [Hnd' Hin']]]]].
      exists names', s1. split; [exact Hrun |]. split; [exact Hscene |].
      split; [exact Hnd' |]. intros y Hy.
      destruct (Hin' y Hy) as [Hy1 Hkeeps]. destruct (Hin1 y Hy1) as [Hl Hne].
      split; [exact Hl |]. intros k0 [<- | Hk0]; [exact Hne | exact (Hkeeps k0 Hk0)].
    + unfold cbind at 1. rewrite print_scene. unfold ret at 1.
      match goal with
      | |- context [cfold remove_kept keeps names ?t] =>
          destruct (IH names t Hnd) as [names' [s1 [Hrun [Hscene [Hnd' Hin']]]]]
      end.
      exists names', s1. split; [exact Hrun |]. split; [exact Hscene |].
      split; [exact Hnd' |]. intros y Hy.
      destruct (Hin' y Hy) as [Hl Hkeeps]. split; [exact Hl |].
      intros k0 [<- | Hk0]; [| exact (Hkeeps k0 Hk0)].
      intros ->. destruct (list_remove_In_Ok _ _ Hl) as [l' Hl'].
      cbn [append] in Hl', Hrm. rewrite Hl' in Hrm. discriminate.
    + exfalso. exact (list_remove_within_fuel _ _ Hrm).
Qed.

(** The cleanup deletes stale hierarchies only.  The top-level objects
    have distinct names, and a selection list that holds one node for the
    name of one of them holds the node of that name.  Then, however the
    cleanup ends, a node is still in the scene when it neither is nor lies
    below a top-level object other than the four ignored ones and the keep
    paths. *)
Theorem cleanup_spares_ignored_and_kept_hierarchies :
  forall maya ignore_objects s m,
    NoDup (_get_dag_objects_under_scene_root (scene s)) ->
    (forall sc name p,
       incl sc (scene s) ->
       In name (_get_dag_objects_under_scene_root (scene s)) ->
       sel_add (maya sc) name = Returns [p] -> p = name) ->
    In m (scene s) ->
    (forall d,
       In d (_get_dag_objects_under_scene_root (scene s)) ->
       ~ In d IGNORED_OBJECTS ->
       (forall k, In k ignore_objects -> d <> ("|" ++ k)%string) ->
       in_subtree d (path m) = false) ->
    In m (scene (snd (_cleanup_stale_dag_hierarchies maya ignore_objects s))).
Proof.
  intros maya ignore_objects s m Hnd Hsel Hm Hout.
  unfold _cleanup_stale_dag_hierarchies, cbind at 1, get_scene.
  unfold cbind at 1, lift.
  destruct (for_each (fun names i_o => list_remove i_o names) IGNORED_OBJECTS
              (_get_dag_objects_under_scene_root (scene s))) as [names1 | e |] eqn:Hignored;
    [| exact Hm | exact Hm].
  destruct (remove_all_NoDup _ _ _ Hnd Hignored) as [Hnd1 Hin1].
  unfold cbind at 1.
  destruct (remove_kept_all ignore_objects names1 s Hnd1)
    as [names2 [s2 [Hkept [Hscene [_ Hin2]]]]].
  rewrite Hkept.
  assert (Hpres : preserves (fun t => incl (scene t) (scene s) /\ In m (scene t))
                    (cfor (delete_hierarchy maya) names2)).
  { apply preserves_cfor. intros d Hd t r t' [Hincl Hmt] Hrun.
    destruct (Hin2 d Hd) as [Hd1 Hnotkept]. destruct (Hin1 d Hd1) as [Htop Hnotignored].
    unfold delete_hierarchy, cbind, get_scene, lift in Hrun.
    destruct (sel_add (maya (scene t)) d) as [temp_sel | e] eqn:Hadd; simpl in Hrun;
      [| inversion Hrun; subst; split; assumption].
    destruct temp_sel as [| p [| q rest]]; [inversion Hrun; subst; split; assumption | |
                                             inversion Hrun; subst; split; assumption].
    pose proof (Hsel (scene t) d p Hincl Htop Hadd) as Hp. subst p.
    inversion Hrun; subst t'; simpl. split.
    - intros n Hn. apply filter_In in Hn. exact (Hincl n (proj1 Hn)).
    - apply filter_In. split; [exact Hmt |].
      rewrite (Hout d Htop Hnotignored Hnotkept). reflexivity. }
  destruct (cfor (delete_hierarchy maya) names2 s2) as [r s'] eqn:Hrun.
  refine (proj2 (Hpres s2 r s' _ Hrun)).
  rewrite Hscene. split; [apply incl_refl | exact Hm].
Qed.

(** In the studio scene [|Root|Hand] is below the keep path [Root]: the
    cleanup, which deletes [|Stale], leaves it. *)
Lemma cleanup_of_the_studio_spares_Hand :
  map path
    (scene (snd (_cleanup_stale_dag_hierarchies (scene_host []) ["Root"; "Nope"]
                   (Examples.session_on Examples.studio_scene))))
  = ["|persp"; "|top"; "|front"; "|side"; "|Root"; "|Root|Hand"] /\
  In {| path := "|Root|Hand"; kind := Joint |}
    (scene (snd (_cleanup_stale_dag_hierarchies (scene_host []) ["Root"; "Nope"]
                   (Examples.session_on Examples.studio_scene)))).
Proof.
  split; [reflexivity |].
  apply (cleanup_spares_ignored_and_kept_hierarchies (scene_host []) ["Root"; "Nope"]
           (Examples.session_on Examples.studio_scene)
           {| path := "|Root|Hand"; kind := Joint |}).
  - simpl.
    repeat (constructor;
            [simpl; intros H;
             repeat (destruct H as [H | H]; [discriminate |]); exact H |]).
    constructor.
  - intros sc name p Hincl Hname Hsel.
    simpl in Hsel. unfold scene_sel_add in Hsel.
    destruct (matches sc name) as [| q l] eqn:Hmatches; [discriminate |].
    inversion Hsel; subst q l.
    assert (Hp : In p (matches sc name)) by (rewrite Hmatches; left; reflexivity).
    unfold matches in Hp. apply in_map_iff in Hp as [n [Hpath Hn]].
    apply filter_In in Hn as [Hn Hcond]. apply Hincl in Hn. subst p.
    simpl in Hname, Hn.
    destruct Hname as [<- | [<- | [<- | [<- | [<- | [<- | []]]]]]];
      destruct Hn as [<- | [<- | [<- | [<- | [<- | [<- | [<- | [<- | []]]]]]]]];
      vm_compute in Hcond; try discriminate; reflexivity.
  - simpl. right. right. right. right. right. right. left. reflexivity.
  - intros d Hd Hnotignored Hnotkept. simpl in Hd.
    destruct Hd as [<- | [<- | [<- | [<- | [<- | [<- | []]]]]]]; try reflexivity.
    exfalso. apply (Hnotkept "Root"); [left; reflexivity | reflexivity].
Defined.

(* ================================================================== *)
(** * PartitionPlanner: the hierarchy covers the chains *)
(* ================================================================== *)

(** A loop that ends normally has [M] at its end when the turn of [x]
    brings it about and every turn keeps it. *)
Lemma for_each_establishes {A B} (body : B -> A -> Result B) (Inv M : B -> Prop) (x : A) :
  forall l,
    (forall a y a', Inv a -> body a y = Ok a' -> Inv a' /\ (M a -> M a')) ->
    (forall a a', Inv a -> body a x = Ok a' -> M a') ->
    In x l ->
    forall acc b, Inv acc -> for_each body l acc = Ok b -> M b.
Proof.
  intros l Hkeep Hmake.
  assert (Hrest : forall l acc b, Inv acc -> M acc -> for_each body l acc = Ok b -> M b).
  { induction l0 as [| y l0 IH]; intros acc b HI HM Hrun; simpl in Hrun.
    - inversion Hrun; subst. exact HM.
    - apply bind_Ok_inv in Hrun as [a' [Hy Hrun]].
      destruct (Hkeep acc y a' HI Hy) as [HI' HM'].
      exact (IH a' b HI' (HM' HM) Hrun). }
  induction l as [| y l IH]; intros Hin acc b HI Hrun; [destruct Hin |].
  simpl in Hrun. apply bind_Ok_inv in Hrun as [a' [Hy Hrun]].
  destruct (Hkeep acc y a' HI Hy) as [HI' _].
  destruct Hin as [-> | Hin].
  - exact (Hrest l a' b HI' (Hmake acc a' HI Hy) Hrun).
  - exact (IH Hin a' b HI' Hrun).
Qed.

Lemma append_if_new_In (v : list string) (x y : string) :
  In y (append_if_new v x) <-> In y v \/ y = x.
Proof.
  unfold append_if_new. destruct (mem x v) eqn:Hmem.
  - apply mem_In in Hmem. split; [tauto |]. intros [H | ->]; assumption.
  - rewrite in_app_iff. simpl. split; intros [H | H]; try tauto.
    + destruct H as [<- | []]. right. reflexivity.
    + right. left. symmetry. exact H.
Qed.

Lemma append_new_keeps_holds (k y r x : string) :
  forall d, holds d r x -> holds (append_new k y d) r x.
Proof.
  induction d as [| [k0 v0] d IH]; intros [h [Hin Hx]]; [destruct Hin |].
  simpl. destruct (String.eqb k0 k) eqn:Hk.
  - destruct Hin as [Heq | Hin].
    + inversion Heq; subst. exists (append_if_new h y). split; [left; reflexivity |].
      apply append_if_new_In. left. exact Hx.
    + exists h. split; [right; exact Hin | exact Hx].
  - destruct Hin as [Heq | Hin].
    + exists h. split; [left; exact Heq | exact Hx].
    + destruct (IH (ex_intro _ h (conj Hin Hx))) as [h' [Hin' Hx']].
      exists h'. split; [right; exact Hin' | exact Hx'].
Qed.

Lemma append_new_holds (k y : string) :
  forall d, has_key k d = true -> holds (append_new k y d) k y.
Proof.
  unfold has_key. induction d as [| [k0 v0] d IH]; simpl; intros Hkey; [discriminate |].
  destruct (String.eqb k0 k) eqn:Hk.
  - apply String.eqb_eq in Hk. subst k0.
    exists (append_if_new v0 y). split; [left; reflexivity |].
    apply append_if_new_In. right. reflexivity.
  - simpl in Hkey. destruct (IH Hkey) as [h [Hin Hy]].
    exists h. split; [right; exact Hin | exact Hy].
Qed.

Lemma has_key_append_new (k y k' : string) (d : JointHierarchy) :
  has_key k' (append_new k y d) = has_key k' d.
Proof. rewrite !has_key_mem, keys_append_new. reflexivity. Qed.

Lemma add_chain_holds (k : string) :
  forall chain d,
    has_key k d = true ->
    has_key k (add_chain k chain d) = true /\
    (forall r x, holds d r x -> holds (add_chain k chain d) r x) /\
    (forall y, In y chain -> holds (add_chain k chain d) k y).
Proof.
  unfold add_chain. induction chain as [| z chain IH]; intros d Hkey; simpl.
  - split; [exact Hkey |]. split; [tauto | intros y []].
  - assert (Hkey' : has_key k (append_new k z d) = true)
      by (rewrite has_key_append_new; exact Hkey).
    destruct (IH _ Hkey') as [Hk [Hmono Hall]].
    split; [exact Hk |]. split.
    + intros r x Hh. apply Hmono. apply append_new_keeps_holds. exact Hh.
    + intros y [<- | Hy]; [| exact (Hall y Hy)].
      apply Hmono. apply append_new_holds. exact Hkey.
Qed.

Lemma setdefault_holds (k : string) (d : JointHierarchy) :
  has_key k (setdefault k d) = true /\
  forall r x, holds d r x -> holds (setdefault k d) r x.
Proof.
  unfold setdefault. destruct (has_key k d) eqn:Hkey.
  - split; [exact Hkey | tauto].
  - split.
    + unfold has_key. rewrite existsb_app. simpl. rewrite String.eqb_refl.
      apply orb_true_r.
    + intros r x [h [Hin Hx]]. exists h. split; [apply in_or_app; left; exact Hin | exact Hx].
Qed.

Lemma NoDup_keys_unique (d : JointHierarchy) (k : string) (v v' : list string) :
  NoDup (map fst d) -> In (k, v) d -> In (k, v') d -> v = v'.
Proof.
  induction d as [| [k0 v0] d IH]; intros Hnd Hv Hv'; [destruct Hv |].
  simpl in Hnd. inversion Hnd as [| k0' ks Hnotin Hnd']; subst.
  assert (Hkey : forall w, In (k, w) d -> In k (map fst d)).
  { intros w Hw. apply in_map_iff. exists (k, w). split; [reflexivity | exact Hw]. }
  destruct Hv as [Heq | Hv]; destruct Hv' as [Heq' | Hv'].
  - congruence.
  - inversion Heq; subst. exfalso. exact (Hnotin (Hkey v' Hv')).
  - inversion Heq'; subst. exfalso. exact (Hnotin (Hkey v Hv)).
  - exact (IH Hnd' Hv Hv').
Qed.

Section Coverage.

Variable host : Host.
Variable fuel : nat.

Lemma for_influences_holds (k : string) :
  forall influences d d',
    has_key k d = true ->
    for_influences host fuel k influences d = Ok d' ->
    (forall r x, holds d r x -> holds d' r x) /\
    (forall inf_jnt chain y,
       In inf_jnt influences ->
       _get_joint_list host fuel k inf_jnt = Ok chain ->
       In y chain -> holds d' k y).
Proof.
  intros influences d d' Hkey Hrun. unfold for_influences in Hrun.
  assert (Hstep : forall a inf a',
             has_key k a = true ->
             (chain <- _get_joint_list host fuel k inf ;; Ok (add_chain k chain a)) = Ok a' ->
             has_key k a' = true /\
             (forall r x, holds a r x -> holds a' r x) /\
             (forall chain y, _get_joint_list host fuel k inf = Ok chain ->
                              In y chain -> holds a' k y)).
  { intros a inf a' Ha Hone.
    apply bind_Ok_inv in Hone as [chain [Hchain Ha']]. inversion Ha'; subst a'.
    destruct (add_chain_holds k chain a Ha) as [Hk [Hmono Hall]].
    split; [exact Hk |]. split; [exact Hmono |].
    intros chain' y Hchain' Hy. rewrite Hchain in Hchain'. inversion Hchain'; subst chain'.
    exact (Hall y Hy). }
  split.
  - intros r x Hh.
    refine (proj2 (for_each_invariant _ (fun a => has_key k a = true /\ holds a r x)
                     influences _ d d' (conj Hkey Hh) Hrun)).
    intros a inf a' _ [Ha Hhold] Hone.
    destruct (Hstep a inf a' Ha Hone) as [Hk [Hmono _]].
    split; [exact Hk | exact (Hmono r x Hhold)].
  - intros inf_jnt chain y Hinf Hchain Hy.
    refine (for_each_establishes _ (fun a => has_key k a = true)
              (fun a => holds a k y) inf_jnt influences _ _ Hinf d d' Hkey Hrun).
    + intros a inf a' Ha Hone. destruct (Hstep a inf a' Ha Hone) as [Hk [Hmono _]].
      split; [exact Hk | exact (Hmono k y)].
    + intros a a' Ha Hone. destruct (Hstep a inf_jnt a' Ha Hone) as [_ [_ Hall]].
      exact (Hall chain y Hchain Hy).
Qed.

Lemma for_roots_holds (influences : list string) :
  forall jnt_roots d d',
    for_roots host fuel jnt_roots influences d = Ok d' ->
    (forall r x, holds d r x -> holds d' r x) /\
    (forall jnt_root inf_jnt chain y,
       In jnt_root jnt_roots ->
       In inf_jnt influences ->
       _get_joint_list host fuel jnt_root inf_jnt = Ok chain ->
       In y chain -> holds d' jnt_root y).
Proof.
  intros jnt_roots d d' Hrun. unfold for_roots in Hrun.
  assert (Hstep : forall a k a',
             for_influences host fuel k influences (setdefault k a) = Ok a' ->
             (forall r x, holds a r x -> holds a' r x) /\
             (forall inf_jnt chain y,
                In inf_jnt influences ->
                _get_joint_list host fuel k inf_jnt = Ok chain ->
                In y chain -> holds a' k y)).
  { intros a k a' Hone. destruct (setdefault_holds k a) as [Hkey Hmono0].
    destruct (for_influences_holds k influences _ a' Hkey Hone) as [Hmono Hall].
    split; [| exact Hall]. intros r x Hh. exact (Hmono r x (Hmono0 r x Hh)). }
  split.
  - intros r x Hh.
    refine (for_each_invariant _ (fun a => holds a r x) jnt_roots _ d d' Hh Hrun).
    intros a k a' _ Hhold Hone. exact (proj1 (Hstep a k a' Hone) r x Hhold).
  - intros jnt_root inf_jnt chain y Hroot Hinf Hchain Hy.
    refine (for_each_establishes _ (fun _ => True) (fun a => holds a jnt_root y)
              jnt_root jnt_roots _ _ Hroot d d' I Hrun).
    + intros a k a' _ Hone. split; [exact I | exact (proj1 (Hstep a k a' Hone) jnt_root y)].
    + intros a a' _ Hone. exact (proj2 (Hstep a jnt_root a' Hone) inf_jnt chain y Hinf Hchain Hy).
Qed.

Lemma for_meshes_holds :
  forall jnt_roots meshes items mesh influences jnt_root inf_jnt chain y,
    for_meshes host fuel jnt_roots (Some meshes) = Ok items ->
    In mesh meshes ->
    skinCluster_influence host mesh = Returns influences ->
    In inf_jnt influences ->
    In jnt_root jnt_roots ->
    _get_joint_list host fuel jnt_root inf_jnt = Ok chain ->
    In y chain ->
    holds items jnt_root y.
Proof.
  intros jnt_roots meshes items mesh influences jnt_root inf_jnt chain y
    Hrun Hmesh Hskin Hinf Hroot Hchain Hy.
  unfold for_meshes in Hrun.
  refine (for_each_establishes _ (fun _ => True) (fun a => holds a jnt_root y)
            mesh meshes _ _ Hmesh [] items I Hrun).
  - intros a m a' _ Hone. split; [exact I |].
    apply bind_Ok_inv in Hone as [infs [_ Hroots]].
    exact (proj1 (for_roots_holds infs jnt_roots a a' Hroots) jnt_root y).
  - intros a a' _ Hone. rewrite Hskin in Hone. simpl in Hone.
    exact (proj2 (for_roots_holds influences jnt_roots a a' Hone)
             jnt_root inf_jnt chain y Hroot Hinf Hchain Hy).
Qed.

(** The plan covers the chains.  Every joint of the chain from the chosen
    candidate root to an influence of a mesh of the partition is in the
    hierarchy chosen for the partition, and still in the hierarchy of the
    plan once it is brought up to the true root. *)
Theorem plan_covers_the_chains_to_the_influences :
  forall jnt_roots meshes mesh influences inf_jnt r h chain y final,
    choose_root host fuel jnt_roots (Some meshes) = Ok (Some (r, h)) ->
    In mesh meshes ->
    skinCluster_influence host mesh = Returns influences ->
    In inf_jnt influences ->
    In r jnt_roots ->
    _get_joint_list host fuel r inf_jnt = Ok chain ->
    In y chain ->
    extend_to_root host fuel h = Ok final ->
    In y h /\ In y final.
Proof.
  intros jnt_roots meshes mesh influences inf_jnt r h chain y final
    Hchoose Hmesh Hskin Hinf Hroot Hchain Hy Hfinal.
  destruct (choose_root_In host fuel _ _ _ _ Hchoose) as [items [Hitems [Hin _]]].
  destruct (for_meshes_holds jnt_roots meshes items mesh influences r inf_jnt chain y
              Hitems Hmesh Hskin Hinf Hroot Hchain Hy) as [h' [Hin' Hy']].
  pose proof (for_meshes_well_keyed host fuel _ _ _ Hitems) as [Hkeys _].
  pose proof (NoDup_keys_unique items r h h' Hkeys Hin Hin') as Hsame. subst h'.
  split; [exact Hy' |].
  unfold extend_to_root in Hfinal. destruct h as [| first others]; [destruct Hy' |].
  apply bind_Ok_inv in Hfinal as [root_jnt [_ Hrest]].
  destruct (negb (mem root_jnt (first :: others))).
  - apply bind_Ok_inv in Hrest as [parent_hierarchy [_ Hcat]].
    inversion Hcat; subst final. apply in_or_app. right. exact Hy'.
  - inversion Hrest; subst final. exact Hy'.
Qed.

End Coverage.

Lemma plan_for_Glove_covers_the_chain_to_Hand :
  In "|Root|Spine|Arm" ["|Root|Spine"; "|Root|Spine|Arm"; "|Root|Spine|Arm|Hand"] /\
  In "|Root|Spine|Arm"
     ["|Root"; "|Root|Spine"; "|Root|Spine"; "|Root|Spine|Arm"; "|Root|Spine|Arm|Hand"].
Proof.
  apply (plan_covers_the_chains_to_the_influences Examples.glove_host 10
           ["Root"; "Spine"] ["|Glove"] "|Glove" ["Hand"] "Hand" "Spine"
           ["|Root|Spine"; "|Root|Spine|Arm"; "|Root|Spine|Arm|Hand"]
           ["|Root|Spine"; "|Root|Spine|Arm"; "|Root|Spine|Arm|Hand"]
           "|Root|Spine|Arm"
           ["|Root"; "|Root|Spine"; "|Root|Spine"; "|Root|Spine|Arm"; "|Root|Spine|Arm|Hand"]).
  - reflexivity.
  - left. reflexivity.
  - reflexivity.
  - left. reflexivity.
  - right. left. reflexivity.
  - reflexivity.
  - right. left. reflexivity.
  - reflexivity.
Defined.
